(** * Check-in automation: a shallow embedding and its verified properties

    The development follows the three scripts of the repository:

    - [Monitor]: the polling scheduler (the 24/7 monitor script);
    - [WiFi]: the Wi-Fi gate ([getCurrentWiFiSSID], [isOnOfficeWiFi]);
    - [Checkin]: the browser flow of [scripts/zohoCheckin.js]
      ([performZohoCheckin], [handleGoogleLogin], [handlePasswordLogin]).

    JavaScript strings are modelled by [string]; every character is a code
    unit below 256 (Latin-1), which covers all literals of the scripts. *)

From Stdlib Require Import String Ascii List ZArith Bool Lia DecimalString Sorted.
Import ListNotations.
Local Open Scope string_scope.

(** ** The JavaScript string and array primitives the scripts use *)

Module JS.

(** [s.includes(sub)]. *)
Fixpoint includes (s sub : string) : bool :=
  String.prefix sub s ||
  match s with
  | EmptyString => false
  | String _ rest => includes rest sub
  end.

(** [arr.includes(x)] on an array of strings ([SameValueZero] on strings is
    string equality). *)
Fixpoint array_includes (arr : list string) (x : string) : bool :=
  match arr with
  | [] => false
  | y :: rest => String.eqb y x || array_includes rest x
  end.

(** Lower-casing of one code unit: [A-Z] and the Latin-1 capitals. *)
Definition lower_char (c : ascii) : ascii :=
  let n := nat_of_ascii c in
  if ((65 <=? n) && (n <=? 90))%nat then ascii_of_nat (n + 32)
  else if ((192 <=? n) && (n <=? 222) && negb (n =? 215))%nat
       then ascii_of_nat (n + 32)
       else c.

(** [s.toLowerCase()]. *)
Fixpoint toLowerCase (s : string) : string :=
  match s with
  | EmptyString => EmptyString
  | String c rest => String (lower_char c) (toLowerCase rest)
  end.

(** White space in the sense of [String.prototype.trim], below 256:
    TAB, LF, VT, FF, CR, SPACE and NBSP. *)
Definition is_space (c : ascii) : bool :=
  let n := nat_of_ascii c in
  (((9 <=? n) && (n <=? 13)) || (n =? 32) || (n =? 160))%nat.

Fixpoint trimStart (s : string) : string :=
  match s with
  | EmptyString => EmptyString
  | String c rest => if is_space c then trimStart rest else s
  end.

Fixpoint trimEnd (s : string) : string :=
  match s with
  | EmptyString => EmptyString
  | String c rest =>
      match trimEnd rest with
      | EmptyString => if is_space c then EmptyString else String c EmptyString
      | r => String c r
      end
  end.

(** [s.trim()]. *)
Definition trim (s : string) : string := trimEnd (trimStart s).

(** [s.split(sep)] for a one-character separator; the result is never
    empty: [''.split(',')] is [['']]. *)
Fixpoint split (sep : ascii) (s : string) : list string :=
  match s with
  | EmptyString => [EmptyString]
  | String c rest =>
      if Ascii.eqb c sep then EmptyString :: split sep rest
      else match split sep rest with
           | h :: t => String c h :: t
           | [] => [String c EmptyString]
           end
  end.

(** [arr.join(sep)]. *)
Fixpoint join (sep : string) (arr : list string) : string :=
  match arr with
  | [] => EmptyString
  | [x] => x
  | x :: rest => x ++ sep ++ join sep rest
  end.

(** Truthiness of a string value: [''] is falsy. *)
Definition truthy (s : string) : bool := negb (String.eqb s EmptyString).

(** Truthiness of a possibly [undefined] string (an environment
    variable, a nullable result). *)
Definition truthy_opt (o : option string) : bool :=
  match o with
  | None => false
  | Some s => truthy s
  end.

(** [o === lit] for a possibly [undefined] string. *)
Definition strict_eq (o : option string) (lit : string) : bool :=
  match o with
  | None => false
  | Some s => String.eqb s lit
  end.

(** [customList.split(',').map(s => s.trim()).filter(s => s.length > 0)]:
    the idiom used for every comma-separated override. *)
Definition split_trim_filter (s : string) : list string :=
  filter truthy (map trim (split "," s)).

(** The double-quote character, as a string. *)
Definition dquote : string := String (ascii_of_nat 34) EmptyString.

(** Decimal rendering of an integer inside a template literal. *)
Definition string_of_Z (z : Z) : string := NilZero.string_of_int (Z.to_int z).

End JS.

(** Log levels of the [log] utility shared by the scripts. A log line is
    recorded by its level and message; the time stamp that [log] puts in
    front of it is not part of the record. *)
Inductive level := INFO | ERROR.

(** ** The polling scheduler *)

Module Monitor.

(** What the script reads off one [new Date()]. *)
Record Date := mkDate {
  getDay : Z;              (* 0 = Sunday, ..., 6 = Saturday *)
  getHours : Z;
  getMinutes : Z;
  toDateString : string
}.

Record Time := { hour : Z; minute : Z }.

Definition CHECKIN_TIME : Time := {| hour := 6; minute := 0 |}.
Definition CHECKOUT_TIME : Time := {| hour := 13; minute := 45 |}.
Definition WEEKDAYS : list Z := [1; 2; 3; 4; 5]%Z.

(** The two module-level variables; [None] is [null]. *)
Record state := mkState {
  lastCheckinDate : option string;
  lastCheckoutDate : option string
}.

Definition initial : state :=
  {| lastCheckinDate := None; lastCheckoutDate := None |}.

(** What the monitor does to the outside world. *)
Inductive effect :=
| Log (lvl : level) (msg : string)
| DotenvConfig
| Spawn (command : string) (script : string) (env_override : string * string).

(** Every effect is recorded together with the value of the module
    variables at the moment it is performed. *)
Definition trace := list (state * effect).

(** Outcome of a piece of monitor code: it returns, or the process exits. *)
Inductive res (A : Type) :=
| Ret (a : A)
| Exited (code : Z).
Arguments Ret {A} a.
Arguments Exited {A} code.

Definition Mon (A : Type) : Type := state -> res A * state * trace.

Definition ret {A} (a : A) : Mon A := fun st => (Ret a, st, []).

Definition bind {A B} (m : Mon A) (f : A -> Mon B) : Mon B :=
  fun st =>
    match m st with
    | (Ret a, st1, t1) =>
        match f a st1 with
        | (r, st2, t2) => (r, st2, (t1 ++ t2)%list)
        end
    | (Exited c, st1, t1) => (Exited c, st1, t1)
    end.

Definition emit (e : effect) : Mon unit := fun st => (Ret tt, st, [(st, e)]).
Definition get : Mon state := fun st => (Ret st, st, []).
Definition put (st' : state) : Mon unit := fun _ => (Ret tt, st', []).
Definition process_exit {A} (code : Z) : Mon A := fun st => (Exited code, st, []).

Notation "x <- m ;; k" := (bind m (fun x => k))
  (at level 61, m at next level, right associativity).
Notation "m ;;; k" := (bind m (fun _ => k))
  (at level 61, right associativity).

Definition log (msg : string) (lvl : level) : Mon unit := emit (Log lvl msg).

Definition when (b : bool) (m : Mon unit) : Mon unit := if b then m else ret tt.

(** [lastXDate !== dateStr]. *)
Definition differs (marker : option string) (dateStr : string) : bool :=
  negb (JS.strict_eq marker dateStr).

Definition Z_includes (l : list Z) (z : Z) : bool := existsb (Z.eqb z) l.

(** [shouldRunCheckin()], reading the clock as [now]. *)
Definition shouldRunCheckin (now : Date) : Mon bool :=
  let dayOfWeek := getDay now in
  let hour_ := getHours now in
  let minute_ := getMinutes now in
  let dateStr := toDateString now in
  if negb (Z_includes WEEKDAYS dayOfWeek) then ret false
  else if (hour_ =? hour CHECKIN_TIME)%Z && (minute_ =? minute CHECKIN_TIME)%Z then
    st <- get ;;
    if differs (lastCheckinDate st) dateStr then
      put {| lastCheckinDate := Some dateStr;
             lastCheckoutDate := lastCheckoutDate st |} ;;;
      ret true
    else ret false
  else ret false.

(** [shouldRunCheckout()], reading the clock as [now]. *)
Definition shouldRunCheckout (now : Date) : Mon bool :=
  let dayOfWeek := getDay now in
  let hour_ := getHours now in
  let minute_ := getMinutes now in
  let dateStr := toDateString now in
  if negb (Z_includes WEEKDAYS dayOfWeek) then ret false
  else if (hour_ =? hour CHECKOUT_TIME)%Z && (minute_ =? minute CHECKOUT_TIME)%Z then
    st <- get ;;
    if differs (lastCheckoutDate st) dateStr then
      put {| lastCheckinDate := lastCheckinDate st;
             lastCheckoutDate := Some dateStr |} ;;;
      ret true
    else ret false
  else ret false.

(** The script path [path.join(__dirname, 'zohoCheckin.js')] is left
    relative to the directory of the monitor. *)
Definition scriptPath : string := "zohoCheckin.js".

(** [runCheckinScript()]: the child is spawned and the function returns;
    the child's handlers run later, as inputs of the event loop. *)
Definition runCheckinScript : Mon unit :=
  log "Triggering check-in/check-out script..." INFO ;;;
  emit DotenvConfig ;;;
  emit (Spawn "node" scriptPath ("HEADLESS", "false")).

(** [child.on('error', ...)]. *)
Definition on_child_error (message : string) : Mon unit :=
  log ("Error running script: " ++ message) ERROR.

(** [child.on('exit', ...)]; [None] is the [null] code of a child killed
    by a signal. *)
Definition code_to_string (code : option Z) : string :=
  match code with
  | Some c => JS.string_of_Z c
  | None => "null"
  end.

Definition on_child_exit (code : option Z) : Mon unit :=
  match code with
  | Some 0%Z => log "Check-in/check-out script completed successfully" INFO
  | _ => log ("Check-in/check-out script exited with code " ++ code_to_string code) ERROR
  end.

Definition checkin_detected : string := "Check-in time detected - Running check-in...".
Definition checkout_detected : string := "Check-out time detected - Running check-out...".

(** One run of the [setInterval] callback. The callback reads the clock
    three times: [now] on entry, [nowIn] inside [shouldRunCheckin] and
    [nowOut] inside [shouldRunCheckout]. *)
Definition tick (now nowIn nowOut : Date) : Mon unit :=
  b1 <- shouldRunCheckin nowIn ;;
  when b1 (log checkin_detected INFO ;;; runCheckinScript) ;;;
  b2 <- shouldRunCheckout nowOut ;;
  when b2 (log checkout_detected INFO ;;; runCheckinScript) ;;;
  if (getHours now =? 0)%Z && (getMinutes now =? 0)%Z then
    put {| lastCheckinDate := None; lastCheckoutDate := None |} ;;;
    log "Daily reset - Ready for new check-in/check-out" INFO
  else ret tt.

(** [process.on('SIGINT' | 'SIGTERM', ...)]. *)
Definition on_signal : Mon unit :=
  log "Shutting down monitor..." INFO ;;;
  process_exit 0.

(** What the event loop delivers to the monitor after [startMonitoring]. *)
Inductive input :=
| Tick (now nowIn nowOut : Date)
| ChildError (message : string)
| ChildExit (code : option Z)
| Signal.

Definition handle (i : input) : Mon unit :=
  match i with
  | Tick now nowIn nowOut => tick now nowIn nowOut
  | ChildError message => on_child_error message
  | ChildExit code => on_child_exit code
  | Signal => on_signal
  end.

(** The event loop: inputs are handled one after the other until the
    process exits. *)
Fixpoint loop (ins : list input) : Mon unit :=
  match ins with
  | [] => ret tt
  | i :: rest => handle i ;;; loop rest
  end.

(** The 12-hour rendering of a scheduled time in [startMonitoring]. *)
Definition timeStr (t : Time) : string :=
  JS.string_of_Z (if (hour t >? 12)%Z then hour t - 12 else hour t)%Z ++ ":" ++
  (let m := JS.string_of_Z (minute t) in
   if (String.length m <? 2)%nat then "0" ++ m else m) ++ " " ++
  (if (hour t >=? 12)%Z then "PM" else "AM").

(** [startMonitoring()] followed by the inputs the event loop delivers. *)
Definition startMonitoring (ins : list input) : Mon unit :=
  log "Zoho Check-in/Check-out Monitor started - Running 24/7" INFO ;;;
  log ("Check-in scheduled: " ++ timeStr CHECKIN_TIME ++ " (Weekdays)") INFO ;;;
  log ("Check-out scheduled: " ++ timeStr CHECKOUT_TIME ++ " (Weekdays)") INFO ;;;
  log "Monitor is running. Press Ctrl+C to stop." INFO ;;;
  loop ins.

Definition monitor (ins : list input) : res unit * state * trace :=
  startMonitoring ins initial.

(** *** Vocabulary of the scheduler properties *)

Inductive target := CheckIn | CheckOut.

Definition detected (t : target) : string :=
  match t with
  | CheckIn => checkin_detected
  | CheckOut => checkout_detected
  end.

Definition schedule (t : target) : Time :=
  match t with
  | CheckIn => CHECKIN_TIME
  | CheckOut => CHECKOUT_TIME
  end.

Definition marker (t : target) (st : state) : option string :=
  match t with
  | CheckIn => lastCheckinDate st
  | CheckOut => lastCheckoutDate st
  end.

(** The clock reading a tick uses for a target. *)
Definition reading_for (t : target) (nowIn nowOut : Date) : Date :=
  match t with
  | CheckIn => nowIn
  | CheckOut => nowOut
  end.

(** The (hour, minute, weekday) match condition of a target. *)
Definition matches (t : target) (now : Date) : Prop :=
  In (getDay now) WEEKDAYS /\
  getHours now = hour (schedule t) /\ getMinutes now = minute (schedule t).

Definition announces (msg : string) (e : state * effect) : bool :=
  match snd e with
  | Log INFO m => String.eqb m msg
  | _ => false
  end.

Definition is_spawn (e : state * effect) : bool :=
  match snd e with
  | Spawn _ _ _ => true
  | _ => false
  end.

Definition count {A} (p : A -> bool) (l : list A) : nat := length (filter p l).

(** Number of times a target fired in a trace: the tick announces the
    target and calls [runCheckinScript] right after. *)
Definition fired (t : target) (tr : trace) : nat := count (announces (detected t)) tr.

(** Number of child processes spawned in a trace. *)
Definition spawned (tr : trace) : nat := count is_spawn tr.

(** The effects of one firing, performed in state [st]. *)
Definition firing (t : target) (st : state) : trace :=
  [ (st, Log INFO (detected t));
    (st, Log INFO "Triggering check-in/check-out script...");
    (st, DotenvConfig);
    (st, Spawn "node" scriptPath ("HEADLESS", "false")) ].

Definition readings (i : input) : list Date :=
  match i with
  | Tick now nowIn nowOut => [now; nowIn; nowOut]
  | _ => []
  end.

Definition minute_of_day (d : Date) : Z := 60 * getHours d + getMinutes d.

(** All clock readings of the inputs fall on the calendar day [d]. *)
Definition same_day (d : string) (ins : list input) : Prop :=
  Forall (fun r => toDateString r = d) (flat_map readings ins).

(** The local clock never runs backwards over the inputs. *)
Definition chronological (ins : list input) : Prop :=
  StronglySorted Z.le (map minute_of_day (flat_map readings ins)).

(** One run of the callback is over within a minute of its start. *)
Definition brief (i : input) : Prop :=
  match i with
  | Tick now _ nowOut => (minute_of_day nowOut <= minute_of_day now + 1)%Z
  | _ => True
  end.

Definition is_signal (i : input) : bool :=
  match i with
  | Signal => true
  | _ => false
  end.

(** The decision taken by [shouldRunCheckin] and [shouldRunCheckout]. *)
Definition due (t : target) (now : Date) (st : state) : bool :=
  Z_includes WEEKDAYS (getDay now) &&
  ((getHours now =? hour (schedule t))%Z && (getMinutes now =? minute (schedule t))%Z) &&
  differs (marker t st) (toDateString now).

Definition mark (t : target) (now : Date) (st : state) : state :=
  match t with
  | CheckIn => {| lastCheckinDate := Some (toDateString now);
                  lastCheckoutDate := lastCheckoutDate st |}
  | CheckOut => {| lastCheckinDate := lastCheckinDate st;
                   lastCheckoutDate := Some (toDateString now) |}
  end.

Definition after_check (t : target) (now : Date) (st : state) : state :=
  if due t now st then mark t now st else st.

Definition midnight (now : Date) : bool :=
  (getHours now =? 0)%Z && (getMinutes now =? 0)%Z.

Definition reset : state := {| lastCheckinDate := None; lastCheckoutDate := None |}.

(** A run of ticks, each given by its three clock readings. *)
Definition tick_inputs (l : list (Date * Date * Date)) : list input :=
  map (fun x => Tick (fst (fst x)) (snd (fst x)) (snd x)) l.

(** The pieces a trace is made of: a firing performed with the target's
    marker already holding the day [d], or a single log line. *)
Inductive block (d : string) : trace -> Prop :=
| block_firing t s : marker t s = Some d -> block d (firing t s)
| block_log s lvl msg : block d [(s, Log lvl msg)].

(** Sample clock readings and runs. *)
Definition tue_0600 : Date := mkDate 2 6 0 "Tue Nov 03 2026".
Definition tue_1345 : Date := mkDate 2 13 45 "Tue Nov 03 2026".

Definition tue_0000 : Date := mkDate 2 0 0 "Tue Nov 03 2026".

(** A clock that is set back to midnight between two 06:00 ticks. *)
Definition clock_set_back : list (Date * Date * Date) :=
  [ (tue_0600, tue_0600, tue_0600); (tue_0000, tue_0000, tue_0000);
    (tue_0600, tue_0600, tue_0600) ].

(** A callback that starts at midnight and reads 06:00 only inside
    [shouldRunCheckin], followed by an ordinary 06:00 tick. *)
Definition stalled_callback : list (Date * Date * Date) :=
  [ (tue_0000, tue_0600, tue_0600); (tue_0600, tue_0600, tue_0600) ].

Definition two_matching_ticks : list (Date * Date * Date) :=
  [ (tue_0600, tue_0600, tue_0600); (tue_0600, tue_0600, tue_0600) ].

Definition marked_on_monday : state :=
  {| lastCheckinDate := Some "Mon Nov 02 2026";
     lastCheckoutDate := Some "Mon Nov 02 2026" |}.

Definition day_with_failed_child : list input :=
  [ Tick tue_0600 tue_0600 tue_0600;
    ChildError "spawn node ENOENT";
    ChildExit (Some 1%Z);
    Tick tue_0600 tue_0600 tue_0600;
    Tick tue_1345 tue_1345 tue_1345;
    ChildExit None ].

(** Some tick of the run reads, for the target, a time that matches
    its schedule. *)
Definition has_match (t : target) (ins : list input) : Prop :=
  exists now nowIn nowOut,
    In (Tick now nowIn nowOut) ins /\ matches t (reading_for t nowIn nowOut).

(** No tick of the run reads a matching time for either target. *)
Definition off_schedule (ins : list input) : Prop :=
  forall now nowIn nowOut,
    In (Tick now nowIn nowOut) ins ->
    ~ matches CheckIn nowIn /\ ~ matches CheckOut nowOut.

Definition sat_0600 : Date := mkDate 6 6 0 "Sat Nov 07 2026".
Definition sat_1345 : Date := mkDate 6 13 45 "Sat Nov 07 2026".
Definition tue_0601 : Date := mkDate 2 6 1 "Tue Nov 03 2026".

(** A Saturday, read at both scheduled times, and a Tuesday read a
    minute late. *)
Definition quiet_ticks : list input :=
  [ Tick sat_0600 sat_0600 sat_0600; Tick sat_1345 sat_1345 sat_1345;
    Tick tue_0601 tue_0601 tue_0601 ].

Definition final_state {A} (r : res A * state * trace) : state := snd (fst r).
Definition result {A} (r : res A * state * trace) : res A := fst (fst r).
Definition effects {A} (r : res A * state * trace) : trace := snd r.

End Monitor.

(** ** The Wi-Fi gate *)

Module WiFi.

(** A call either returns or throws an error with a message. *)
Inductive outcome (A : Type) :=
| Ok (a : A)
| Throw (message : string).
Arguments Ok {A} a.
Arguments Throw {A} message.

Definition bind {A B} (m : outcome A) (f : A -> outcome B) : outcome B :=
  match m with
  | Ok a => f a
  | Throw e => Throw e
  end.

(** [try { body } catch (err) { handler }]. *)
Definition try_catch {A} (body : outcome A) (handler : string -> outcome A) : outcome A :=
  match body with
  | Ok a => Ok a
  | Throw e => handler e
  end.

Notation "x <- m ;; k" := (bind m (fun x => k))
  (at level 61, m at next level, right associativity).

(** The regular expressions of [getCurrentWiFiSSID]. The regex engine is
    kept abstract: a matcher gives the first capture group of the first
    match, [None] when the expression does not match. *)
Record Regex := {
  re_hardware_port : string -> option string;  (* /Hardware Port: (?:Wi-Fi|AirPort)\s+Device: (\w+)/ *)
  re_patterns : list (string -> option string); (* the five patterns tried on networksetup's output *)
  re_network_name : string -> option string;   (* /Current Network Information:\s*\n\s*Network Name:\s*(.+)/ *)
  re_parens : string -> option string;         (* /\((.+)\)/ *)
  re_service : string -> option string;        (* /(?:Wi-Fi|AirPort)\s*\(([^)]+)\)/ *)
  re_ssid_line : string -> option string;      (* /SSID:\s*(.+)/ *)
  re_ssid_word : string -> option string;      (* /SSID[:\s]+([^\s\n]+)/i *)
  re_airport : string -> option string         (* /^\s*SSID:\s*(.+)$/m *)
}.

Section Detection.

(** [execSync(command, ...)]: the standard output of the command, or the
    error thrown when it fails. *)
Variable execSync : string -> outcome string.
Variable re : Regex.

(** [m && m[1]] followed by [m[1].trim()]. *)
Definition group1 (m : option string) : option string :=
  match m with
  | Some g => if JS.truthy g then Some (JS.trim g) else None
  | None => None
  end.

Definition not_associated (result : string) : bool :=
  JS.includes result "not associated" ||
  JS.includes result "not connected" ||
  String.eqb (JS.trim result) "You are not associated with an AirPort network." ||
  String.eqb (JS.trim result) "You are not associated with a Wi-Fi network.".

Definition acceptable_ssid (ssid : string) : bool :=
  JS.truthy ssid &&
  negb (JS.includes (JS.toLowerCase ssid) "error") &&
  negb (JS.includes (JS.toLowerCase ssid) "not associated") &&
  negb (JS.includes (JS.toLowerCase ssid) "not connected").

(** The loop over [patterns]; [Some ssid] is the [return ssid]. *)
Fixpoint try_patterns (patterns : list (string -> option string)) (result : string)
  : option string :=
  match patterns with
  | [] => None
  | pattern :: rest =>
      match group1 (pattern result) with
      | Some ssid => if acceptable_ssid ssid then Some ssid else try_patterns rest result
      | None => try_patterns rest result
      end
  end.

(** The loop over [interfacesToTry]; every iteration is a [try] whose
    [catch] only logs. *)
Fixpoint try_interfaces (ifaces : list string) : outcome (option string) :=
  match ifaces with
  | [] => Ok None
  | iface :: rest =>
      found <- try_catch
                 (result <- execSync ("/usr/sbin/networksetup -getairportnetwork " ++ iface) ;;
                  if not_associated result then Ok None
                  else Ok (try_patterns (re_patterns re) result))
                 (fun _ => Ok None) ;;
      match found with
      | Some ssid => Ok (Some ssid)
      | None => try_interfaces rest
      end
  end.

Definition service_name (line : string) : option string :=
  match group1 (re_parens re line) with
  | Some name => Some name
  | None =>
      match re_service re line with
      | Some g => Some (JS.trim g)
      | None => None
      end
  end.

Definition newline : ascii := ascii_of_nat 10.

(** The loop over the lines of [scutil --nc list]. *)
Fixpoint try_services (lines : list string) : outcome (option string) :=
  match lines with
  | [] => Ok None
  | line :: rest =>
      found <-
        (if (JS.includes line "Wi-Fi" || JS.includes line "AirPort") &&
            JS.includes line "Connected"
         then match service_name line with
              | Some serviceName =>
                  if JS.truthy serviceName then
                    try_catch
                      (info <- execSync ("/usr/sbin/scutil --nc show " ++ JS.dquote ++ serviceName ++ JS.dquote) ;;
                       Ok (group1 (re_ssid_line re info)))
                      (fun _ => Ok None)
                  else Ok None
              | None => Ok None
              end
         else Ok None) ;;
      match found with
      | Some ssid => Ok (Some ssid)
      | None => try_services rest
      end
  end.

Definition from_prefs : outcome (option string) :=
  try_catch
    (prefs <- execSync "/usr/sbin/scutil --prefs" ;;
     match group1 (re_ssid_word re prefs) with
     | Some ssid => if JS.truthy ssid then Ok (Some ssid) else Ok None
     | None => Ok None
     end)
    (fun _ => Ok None).

Definition usable_ssid (ssid : string) : bool :=
  JS.truthy ssid &&
  negb (String.eqb (JS.toLowerCase ssid) "off") &&
  negb (String.eqb (JS.toLowerCase ssid) "none") &&
  negb (JS.includes ssid "not associated").

Definition airportPath : string :=
  "/System/Library/PrivateFrameworks/Apple80211.framework/Versions/Current/Resources/airport".

(** Runs the stages in order; the first stage that returns an SSID ends
    the function. *)
Fixpoint first_found (stages : list (outcome (option string))) : outcome (option string) :=
  match stages with
  | [] => Ok None
  | stage :: rest =>
      found <- stage ;;
      match found with
      | Some ssid => Ok (Some ssid)
      | None => first_found rest
      end
  end.

(** [getCurrentWiFiSSID()]; [Ok None] is the [null] result. The console
    output of the function is not modelled. *)
Definition getCurrentWiFiSSID : outcome (option string) :=
  wifiInterface <-
    try_catch
      (interfaces <- execSync "/usr/sbin/networksetup -listallhardwareports" ;;
       match re_hardware_port re interfaces with
       | Some g => if JS.truthy g then Ok (Some g) else Ok None
       | None => Ok None
       end)
      (fun _ => Ok None) ;;
  let interfacesToTry :=
    match wifiInterface with
    | Some i => [i]
    | None => ["en0"; "en1"]
    end in
  first_found
    [ try_interfaces interfacesToTry;
      try_catch
        (result <- execSync "/usr/sbin/system_profiler SPAirPortDataType" ;;
         Ok (group1 (re_network_name re result)))
        (fun _ => Ok None);
      try_catch
        (state <- execSync "/usr/sbin/scutil --nc list" ;;
         found <- try_services (JS.split newline state) ;;
         match found with
         | Some ssid => Ok (Some ssid)
         | None => from_prefs
         end)
        (fun _ => Ok None);
      try_catch
        (result <- execSync "/usr/bin/wdutil info" ;;
         match group1 (re_ssid_word re result) with
         | Some ssid => if usable_ssid ssid then Ok (Some ssid) else Ok None
         | None => Ok None
         end)
        (fun _ => Ok None);
      try_catch
        (result <- execSync (airportPath ++ " -I 2>&1") ;;
         if JS.includes result "deprecated" && negb (JS.includes result "SSID:")
         then Ok None
         else match group1 (re_airport re result) with
              | Some ssid => if usable_ssid ssid then Ok (Some ssid) else Ok None
              | None => Ok None
              end)
        (fun _ => Ok None) ].

(** The values [isOnOfficeWiFi] can be called with. *)
Inductive expected :=
| Absent                      (* undefined or null *)
| Str (s : string)            (* one name, or names separated by commas *)
| Arr (names : list string)   (* an array of names *)
| Other (truthy : bool).      (* anything else: a number, a boolean, an object *)

(** [!expectedSSIDs]. *)
Definition falsy (e : expected) : bool :=
  match e with
  | Absent => true
  | Str s => negb (JS.truthy s)
  | Arr _ => false
  | Other t => negb t
  end.

(** [isOnOfficeWiFi(expectedSSIDs)]. *)
Definition isOnOfficeWiFi (expectedSSIDs : expected) : outcome bool :=
  if falsy expectedSSIDs then Ok false
  else
    match
      match expectedSSIDs with
      | Arr names => Some names
      | Str s => Some (JS.split_trim_filter s)
      | _ => None
      end
    with
    | None => Ok false
    | Some officeSSIDs =>
        if (List.length officeSSIDs =? 0)%nat then Ok false
        else
          currentSSID <- getCurrentWiFiSSID ;;
          if negb (JS.truthy_opt currentSSID) then Ok false
          else
            match currentSSID with
            | Some ssid => Ok (JS.array_includes officeSSIDs ssid)
            | None => Ok false
            end
    end.

(** The exit code of the script run directly, without [--test]. *)
Definition main (OFFICE_WIFI_SSID : option string) : outcome Z :=
  match OFFICE_WIFI_SSID with
  | Some officeSSID =>
      if JS.truthy officeSSID then
        onOfficeWiFi <- isOnOfficeWiFi (Str officeSSID) ;;
        Ok (if onOfficeWiFi then 0%Z else 1%Z)
      else Ok 1%Z
  | None => Ok 1%Z
  end.

End Detection.

(** The script run directly (the block guarded by
    [require.main === module]): with [--test] or [-t] it only reports
    whether a network is detected; the result is the exit code. *)
Definition run_directly (execSync : string -> outcome string) (re : Regex)
  (argv : list string) (OFFICE_WIFI_SSID : option string) : outcome Z :=
  if JS.array_includes argv "--test" || JS.array_includes argv "-t" then
    bind (getCurrentWiFiSSID execSync re)
         (fun currentSSID => Ok (if JS.truthy_opt currentSSID then 0%Z else 1%Z))
  else main execSync re OFFICE_WIFI_SSID.

(** The string does not begin with white space. *)
Definition clean_start (s : string) : Prop :=
  match s with
  | EmptyString => True
  | String c _ => JS.is_space c = false
  end.

(** The name carries no white space at either end. *)
Definition trimmed (name : string) : Prop := JS.trim name = name.

(** A stage of the detection only ever returns trimmed names. *)
Definition yields_trimmed (stage : outcome (option string)) : Prop :=
  forall name, stage = Ok (Some name) -> trimmed name.

(** Every command fails on the host. *)
Definition all_commands_fail (execSync : string -> outcome string) : Prop :=
  forall command, exists message, execSync command = Throw message.

(** *** Vocabulary of the Wi-Fi property *)

(** [name] is an entry of the expected set: an element of the array, or
    the trimmed form of one of the comma-separated pieces of the string. *)
Definition entry_of (e : expected) (name : string) : Prop :=
  match e with
  | Str s => exists piece, In piece (JS.split "," s) /\ JS.trim piece = name
  | Arr names => In name names
  | Absent | Other _ => False
  end.

(** The call returns a value: it does not throw. *)
Definition returns {A} (m : outcome A) : Prop := exists v, m = Ok v.

(** Detection is conclusive when it yields a non-empty name. *)
Definition conclusive (detected : option string) : Prop :=
  exists name, detected = Some name /\ name <> EmptyString.

(** *** The expected set, said without the operations of the code *)

(** White space: TAB, LF, VT, FF, CR, SPACE and NBSP. *)
Definition white (c : ascii) : Prop :=
  In (nat_of_ascii c) [9; 10; 11; 12; 13; 32; 160]%nat.

(** Every character of [s] is white space. *)
Definition blank (s : string) : Prop :=
  forall pre c post, s = pre ++ String c post -> white c.

(** [name] is [piece] without the white space at its two ends: what is
    cut off is white space, and what is left neither starts nor ends
    with white space. *)
Definition stripped (piece name : string) : Prop :=
  exists lead trail,
    piece = lead ++ name ++ trail /\ blank lead /\ blank trail /\
    (forall c rest, name = String c rest -> ~ white c) /\
    (forall body c, name = body ++ String c EmptyString -> ~ white c).

(** [s] holds no comma. *)
Definition comma_free (s : string) : Prop :=
  forall pre post, s <> pre ++ String "," post.

(** What comes before a piece: nothing, or text that ends with a comma. *)
Definition after_comma (before : string) : Prop :=
  before = EmptyString \/ exists b, before = b ++ ",".

(** What comes after a piece: nothing, or text that starts with a comma. *)
Definition before_comma (after : string) : Prop :=
  after = EmptyString \/ exists a, after = String "," a.

(** [piece] is one of the pieces of [s] between its commas. *)
Definition comma_piece (s piece : string) : Prop :=
  comma_free piece /\
  exists before after,
    s = before ++ piece ++ after /\ after_comma before /\ before_comma after.

(** The names an expected value lists: the trimmed pieces of a string,
    the entries of an array as they are given. *)
Definition listed (e : expected) (name : string) : Prop :=
  match e with
  | Str s => exists piece, comma_piece s piece /\ stripped piece name
  | Arr names => In name names
  | Absent | Other _ => False
  end.

(** The expected set as the specification words it: whatever the form
    of the input, its names are split at the commas and trimmed. *)
Definition spec_expected_set (e : expected) (name : string) : Prop :=
  match e with
  | Str s => exists piece, comma_piece s piece /\ stripped piece name
  | Arr names =>
      exists entry piece,
        In entry names /\ comma_piece entry piece /\ stripped piece name
  | Absent | Other _ => False
  end.

(** A host for the examples: [networksetup] reports the network
    [ssid] on [en0]; the hardware-port listing fails. *)
Definition sample_exec (ssid : string) (command : string) : outcome string :=
  if String.eqb command "/usr/sbin/networksetup -getairportnetwork en0"
  then Ok ("Current Wi-Fi Network: " ++ ssid)
  else Throw "Command failed".

(** A host on which every command fails. *)
Definition dead_exec (command : string) : outcome string := Throw "Command failed".

(** A stand-in matcher for the first pattern,
    [/Current (?:Wi-Fi|AirPort) Network:\s*(.+)/], good for outputs that
    begin with the Wi-Fi label. *)
Definition after_label (result : string) : option string :=
  if String.prefix "Current Wi-Fi Network: " result
  then Some (String.substring 23 (String.length result - 23) result)
  else None.

Definition sample_re : Regex :=
  {| re_hardware_port := fun _ => None;
     re_patterns := [after_label];
     re_network_name := fun _ => None;
     re_parens := fun _ => None;
     re_service := fun _ => None;
     re_ssid_line := fun _ => None;
     re_ssid_word := fun _ => None;
     re_airport := fun _ => None |}.

End WiFi.

(** ** The browser flow of [scripts/zohoCheckin.js] *)

Module Checkin.

(** [process.env], after [dotenv] has loaded the [.env] file, together
    with the two paths the script derives from [__dirname]. *)
Record Env := {
  env_ZOHO_EMAIL : option string;
  env_ZOHO_PASSWORD : option string;
  env_ZOHO_URL : option string;
  env_USE_GOOGLE_LOGIN : option string;
  env_USER_DATA_DIR : option string;
  env_USE_PERSISTENT_CONTEXT : option string;
  env_HEADLESS : option string;
  env_HEADED : option string;
  env_ZOHO_CHECKIN_URL : option string;
  env_CHECKIN_SELECTORS : option string;
  env_GOOGLE_LOGIN_SELECTORS : option string;
  STORAGE_STATE_PATH : string;      (* path.join(__dirname, '..', 'logs', 'zoho-auth-state.json') *)
  default_USER_DATA_DIR : string    (* path.join(__dirname, '..', 'logs', 'browser-data') *)
}.

(** [process.env.X || fallback]. *)
Definition or_default (o : option string) (fallback : string) : string :=
  match o with
  | Some s => if JS.truthy s then s else fallback
  | None => fallback
  end.

Definition ZOHO_EMAIL (env : Env) : option string := env_ZOHO_EMAIL env.
Definition ZOHO_PASSWORD (env : Env) : option string := env_ZOHO_PASSWORD env.

Definition ZOHO_URL (env : Env) : string :=
  or_default (env_ZOHO_URL env)
    "https://accounts.zoho.com/signin?servicename=zohopeople&signupurl=https://www.zoho.com/people/signup.html".

Definition USE_GOOGLE_LOGIN (env : Env) : bool :=
  JS.strict_eq (env_USE_GOOGLE_LOGIN env) "true" || negb (JS.truthy_opt (ZOHO_PASSWORD env)).

Definition USER_DATA_DIR (env : Env) : string :=
  or_default (env_USER_DATA_DIR env) (default_USER_DATA_DIR env).

Definition USE_PERSISTENT_CONTEXT (env : Env) : bool :=
  negb (JS.strict_eq (env_USE_PERSISTENT_CONTEXT env) "false").

(** [process.env.HEADLESS === 'true'], the [useHeadless] of the main
    function. *)
Definition useHeadless (env : Env) : bool := JS.strict_eq (env_HEADLESS env) "true".

Definition checkinUrl (env : Env) : string :=
  or_default (env_ZOHO_CHECKIN_URL env)
    "https://people.zoho.com/iscalesolutions/zp#home/myspace/overview-actionlist".

(** A piece of text between double quotes, for selectors and messages. *)
Definition q (s : string) : string := JS.dquote ++ s ++ JS.dquote.

Definition default_actionSelectors : list string :=
  [ "#ZPAtt_check_in_out";
    "button#ZPAtt_check_in_out";
    "button[aria-label*=" ++ q "Check" ++ "]";
    "button:has-text(" ++ q "Check-in" ++ ")";
    "button:has-text(" ++ q "Check-out" ++ ")";
    "button:has-text(" ++ q "Check In" ++ ")";
    "[onclick*=" ++ q "TAMSUtil.Attendance.punch" ++ "]" ].

Definition default_googleButtonSelectors : list string :=
  [ "span[aria-label=" ++ q "Sign in with Google" ++ "]";
    "span.google_icon";
    "span[value=" ++ q "google" ++ "]";
    ".google_fed";
    "span.fed_div.google_icon";
    "button:has-text(" ++ q "Google" ++ ")";
    "button:has-text(" ++ q "Sign in with Google" ++ ")";
    "a:has-text(" ++ q "Google" ++ ")";
    "a:has-text(" ++ q "Sign in with Google" ++ ")";
    "[data-provider=" ++ q "google" ++ "]";
    ".google-signin";
    "button[aria-label*=" ++ q "Google" ++ "]";
    "a[aria-label*=" ++ q "Google" ++ "]";
    "span[aria-label*=" ++ q "Google" ++ "]" ].

Definition emailSelectors : list string :=
  [ "input[type=" ++ q "email" ++ "]";
    "input[name=" ++ q "login_id" ++ "]";
    "input[id*=" ++ q "email" ++ "]";
    "input[id*=" ++ q "login" ++ "]";
    "#login_id";
    "#email" ].

Definition nextButtonSelectors : list string :=
  [ "button:has-text(" ++ q "Next" ++ ")";
    "button:has-text(" ++ q "Continue" ++ ")";
    "button[type=" ++ q "submit" ++ "]";
    "#nextbtn";
    ".zgh-button" ].

Definition passwordSelectors : list string :=
  [ "input[type=" ++ q "password" ++ "]";
    "input[name=" ++ q "password" ++ "]";
    "#password";
    "input[id*=" ++ q "password" ++ "]" ].

Definition submitSelectors : list string :=
  [ "button[type=" ++ q "submit" ++ "]";
    "button:has-text(" ++ q "Sign in" ++ ")";
    "button:has-text(" ++ q "Login" ++ ")";
    "#nextbtn";
    "input[type=" ++ q "submit" ++ "]" ].

(** The selector the password login waits for before it scans. *)
Definition emailWaitSelector : string :=
  "input[type=" ++ q "email" ++ "], input[name=" ++ q "login_id" ++
  "], input[id*=" ++ q "email" ++ "], input[id*=" ++ q "login" ++ "]".

(** [process.env.X] parsed as a selector list when set, the built-in
    list otherwise. *)
Definition custom (o : option string) : option (list string) :=
  match o with
  | Some s => if JS.truthy s then Some (JS.split_trim_filter s) else None
  | None => None
  end.

(** What a call into the automation engine gives back: a value, or a
    rejection with the message of the error. *)
Inductive outcome (A : Type) :=
| Fulfilled (a : A)
| Rejected (message : string).
Arguments Fulfilled {A} a.
Arguments Rejected {A} message.

(** The type error raised by [null.toLowerCase()]. *)
Definition TypeError_toLowerCase : string :=
  "Cannot read properties of null (reading 'toLowerCase')".

(** The classification of the matched control, as written in the action
    loop: [ariaLabel] is [None] when the element has no [aria-label]
    attribute ([getAttribute] resolves to [null]), and the second operand
    of the first [||] then raises. *)
Definition classify (buttonText : string) (ariaLabel : option string) : outcome string :=
  if JS.includes (JS.toLowerCase buttonText) "check-in" then Fulfilled "check-in"
  else
    match ariaLabel with
    | None => Rejected TypeError_toLowerCase
    | Some label =>
        if JS.includes (JS.toLowerCase label) "check-in" then Fulfilled "check-in"
        else if JS.includes (JS.toLowerCase buttonText) "check-out" ||
                JS.includes (JS.toLowerCase label) "check-out"
             then Fulfilled "check-out"
             else Fulfilled (if JS.includes (JS.toLowerCase buttonText) "out"
                             then "check-out" else "check-in")
    end.

(** [${x}] for a possibly [null] string. *)
Definition show_nullable (o : option string) : string :=
  match o with
  | Some s => s
  | None => "null"
  end.

Definition show_bool (b : bool) : string := if b then "true" else "false".

(** [s.replace(/[:.]/g, '-')]. *)
Fixpoint dashes (s : string) : string :=
  match s with
  | EmptyString => EmptyString
  | String c rest =>
      String (if Ascii.eqb c ":" || Ascii.eqb c "." then "-"%char else c) (dashes rest)
  end.

(** *** The automation engine and the effects of the script *)

(** What the script asks the engine, the file system and the process to
    do. [Handle] is the type of element handles. Option bags (browser
    arguments, user agent, headers, [waitUntil]) are left out. *)
Inductive action (Handle : Type) :=
| MkdirSync (dir : string)
| LaunchPersistentContext (userDataDir : string) (headless : bool)
| Launch (headless : bool)
| NewContext (storageState : option string)
| NewPage
| AddInitScript
| SetExtraHTTPHeaders
| Goto (url : string) (timeout : Z)
| WaitForTimeout (ms : Z)
| WaitForSelector (selector : string) (timeout : Z)
| Screenshot (path : string)
| StorageState (path : string)
| ScrollIntoViewIfNeeded (h : Handle)
| Click (h : Handle)
| Fill (h : Handle) (value : option string)
| KeyboardPress (key : string)
| BrowserPages
| BrowserClose.
Arguments MkdirSync {Handle} dir.
Arguments LaunchPersistentContext {Handle} userDataDir headless.
Arguments Launch {Handle} headless.
Arguments NewContext {Handle} storageState.
Arguments NewPage {Handle}.
Arguments AddInitScript {Handle}.
Arguments SetExtraHTTPHeaders {Handle}.
Arguments Goto {Handle} url timeout.
Arguments WaitForTimeout {Handle} ms.
Arguments WaitForSelector {Handle} selector timeout.
Arguments Screenshot {Handle} path.
Arguments StorageState {Handle} path.
Arguments ScrollIntoViewIfNeeded {Handle} h.
Arguments Click {Handle} h.
Arguments Fill {Handle} h value.
Arguments KeyboardPress {Handle} key.
Arguments BrowserPages {Handle}.
Arguments BrowserClose {Handle}.

(** The engine seen from the script. [World] is the state of the
    browser, of the page and of the file system; an action moves it and
    may be rejected, a query reads it. *)
Record Engine (World Handle : Type) := {
  perform : action Handle -> World -> outcome unit * World;
  page_url : World -> string;                                   (* page.url() *)
  page_query : World -> string -> outcome (option Handle);      (* page.$(selector) *)
  isVisible : World -> Handle -> outcome bool;
  textContent : World -> Handle -> outcome string;
  getAttribute : World -> Handle -> string -> outcome (option string);
  existsSync : World -> string -> bool;                         (* fs.existsSync *)
  context_pages : World -> nat;                                 (* persistentContext.pages().length *)
  browser_pages : World -> nat;                                 (* pages.length in the error handler *)
  toISOString : World -> string;                                (* new Date().toISOString() *)
  stack : string -> string                                      (* error.stack of an error *)
}.
Arguments perform {World Handle} e _ _.
Arguments page_url {World Handle} e _.
Arguments page_query {World Handle} e _ _.
Arguments isVisible {World Handle} e _ _.
Arguments textContent {World Handle} e _ _.
Arguments getAttribute {World Handle} e _ _ _.
Arguments existsSync {World Handle} e _ _.
Arguments context_pages {World Handle} e _.
Arguments browser_pages {World Handle} e _.
Arguments toISOString {World Handle} e _.
Arguments stack {World Handle} e _.

(** What a run leaves behind, in order. *)
Inductive event (Handle : Type) :=
| Act (a : action Handle)
| Logged (lvl : level) (msg : string).
Arguments Act {Handle} a.
Arguments Logged {Handle} lvl msg.

(** How a piece of the script ends: normally, by a thrown error, or by
    [process.exit], which nothing catches. *)
Inductive res (A : Type) :=
| Ok (a : A)
| Throw (message : string)
| Exit (code : Z).
Arguments Ok {A} a.
Arguments Throw {A} message.
Arguments Exit {A} code.

Section Script.

Context {World Handle : Type}.
Variable E : Engine World Handle.

(** The world and the mutable variables of the script that outlive a
    [try] block. *)
Record St := mkSt {
  world : World;
  browser : bool;              (* browser !== null *)
  actionPerformed : bool;
  actionType : string;
  googleButtonFound : bool
}.

Definition start (w : World) : St :=
  {| world := w; browser := false; actionPerformed := false;
     actionType := "unknown"; googleButtonFound := false |}.

Definition M (A : Type) : Type := St -> res A * St * list (event Handle).

Definition ret {A} (a : A) : M A := fun s => (Ok a, s, []).

Definition bind {A B} (m : M A) (f : A -> M B) : M B :=
  fun s =>
    match m s with
    | (Ok a, s1, t1) =>
        match f a s1 with
        | (r, s2, t2) => (r, s2, (t1 ++ t2)%list)
        end
    | (Throw e, s1, t1) => (Throw e, s1, t1)
    | (Exit c, s1, t1) => (Exit c, s1, t1)
    end.

Definition throw {A} (message : string) : M A := fun s => (Throw message, s, []).
Definition process_exit {A} (code : Z) : M A := fun s => (Exit code, s, []).

(** [try { body } catch (err) { handler(err.message) }]. *)
Definition try_catch {A} (body : M A) (handler : string -> M A) : M A :=
  fun s =>
    match body s with
    | (Throw e, s1, t1) =>
        match handler e s1 with
        | (r, s2, t2) => (r, s2, (t1 ++ t2)%list)
        end
    | other => other
    end.

(** [try { body } finally { fin }]: [fin] runs unless the process has
    exited; an error thrown by [fin] replaces the completion of [body]. *)
Definition try_finally {A} (body : M A) (fin : M unit) : M A :=
  fun s =>
    match body s with
    | (Exit c, s1, t1) => (Exit c, s1, t1)
    | (r, s1, t1) =>
        match fin s1 with
        | (Ok _, s2, t2) => (r, s2, (t1 ++ t2)%list)
        | (Throw e, s2, t2) => (Throw e, s2, (t1 ++ t2)%list)
        | (Exit c, s2, t2) => (Exit c, s2, (t1 ++ t2)%list)
        end
    end.

Notation "x <- m ;; k" := (bind m (fun x => k))
  (at level 61, m at next level, right associativity).
Notation "m ;;; k" := (bind m (fun _ => k))
  (at level 61, right associativity).

Definition log (msg : string) (lvl : level) : M unit :=
  fun s => (Ok tt, s, [Logged lvl msg]).

Definition with_world (s : St) (w : World) : St :=
  mkSt w (browser s) (actionPerformed s) (actionType s) (googleButtonFound s).

(** [await] of an action of the engine. *)
Definition act (a : action Handle) : M unit :=
  fun s =>
    match perform E a (world s) with
    | (Fulfilled _, w) => (Ok tt, with_world s w, [Act a])
    | (Rejected e, w) => (Throw e, with_world s w, [Act a])
    end.

(** [await] of a query of the engine. *)
Definition ask {A} (query : World -> outcome A) : M A :=
  fun s =>
    match query (world s) with
    | Fulfilled a => (Ok a, s, [])
    | Rejected e => (Throw e, s, [])
    end.

(** A synchronous read of the world. *)
Definition read {A} (f : World -> A) : M A := fun s => (Ok (f (world s)), s, []).

(** [promise.catch(() => fallback)]. *)
Definition or_else {A} (m : M A) (fallback : A) : M A :=
  try_catch m (fun _ => ret fallback).

Definition set_browser (b : bool) : M unit :=
  fun s => (Ok tt, mkSt (world s) b (actionPerformed s) (actionType s) (googleButtonFound s), []).
Definition set_actionPerformed (b : bool) : M unit :=
  fun s => (Ok tt, mkSt (world s) (browser s) b (actionType s) (googleButtonFound s), []).
Definition set_actionType (t : string) : M unit :=
  fun s => (Ok tt, mkSt (world s) (browser s) (actionPerformed s) t (googleButtonFound s), []).
Definition set_googleButtonFound (b : bool) : M unit :=
  fun s => (Ok tt, mkSt (world s) (browser s) (actionPerformed s) (actionType s) b, []).
Definition get {A} (f : St -> A) : M A := fun s => (Ok (f s), s, []).

Definition when (b : bool) (m : M unit) : M unit := if b then m else ret tt.

(** A pure computation that may raise. *)
Definition lift {A} (o : outcome A) : M A :=
  match o with
  | Fulfilled a => ret a
  | Rejected e => throw e
  end.

Variable env : Env.

(** *** The selector scans *)

(** The end of a turn of the action loop, once the control is
    classified: scroll, click, settle, and leave the loop. *)
Definition click_and_settle (button : Handle) (type selector : string) : M bool :=
  act (ScrollIntoViewIfNeeded button) ;;;
  act (WaitForTimeout 500) ;;;
  act (Click button) ;;;
  set_actionPerformed true ;;;
  log (type ++ " performed using selector: " ++ selector) INFO ;;;
  act (WaitForTimeout 3000) ;;;
  act (WaitForTimeout 2000) ;;;
  newButtonText <- or_else (ask (fun w => textContent E w button)) "" ;;
  log ("Button text after action: " ++ q newButtonText) INFO ;;;
  ret true.

(** One turn of the action loop of [performZohoCheckin]; the result says
    whether the loop is left by [break]. *)
Definition try_action_selector (selector : string) : M bool :=
  try_catch
    (or_else (act (WaitForSelector selector 10000)) tt ;;;
     actionButton <- ask (fun w => page_query E w selector) ;;
     match actionButton with
     | Some button =>
         visible <- or_else (ask (fun w => isVisible E w button)) false ;;
         if visible then
           buttonText <- or_else (ask (fun w => textContent E w button)) "" ;;
           ariaLabel <- or_else (ask (fun w => getAttribute E w button "aria-label"))
                                (Some "") ;;
           type <- lift (classify buttonText ariaLabel) ;;
           set_actionType type ;;;
           log ("Found " ++ type ++ " button. Button text: " ++ q buttonText ++
                ", Aria-label: " ++ q (show_nullable ariaLabel)) INFO ;;;
           click_and_settle button type selector
         else ret false
     | None => ret false
     end)
    (fun message =>
       log ("Error trying selector " ++ selector ++ ": " ++ message) INFO ;;;
       ret false).

Fixpoint action_loop (selectors : list string) : M unit :=
  match selectors with
  | [] => ret tt
  | selector :: rest =>
      stop <- try_action_selector selector ;;
      if stop then ret tt else action_loop rest
  end.

(** One turn of the loop of [handleGoogleLogin]. *)
Definition try_google_selector (selector : string) : M bool :=
  try_catch
    (act (WaitForTimeout 1000) ;;;
     googleButton <- ask (fun w => page_query E w selector) ;;
     match googleButton with
     | Some button =>
         visible <- or_else (ask (fun w => isVisible E w button)) false ;;
         if visible then
           log ("Found Google login button using selector: " ++ selector) INFO ;;;
           act (ScrollIntoViewIfNeeded button) ;;;
           act (WaitForTimeout 500) ;;;
           act (Click button) ;;;
           set_googleButtonFound true ;;;
           log "Clicked Google login button. Please complete authentication in the browser." INFO ;;;
           act (WaitForTimeout 3000) ;;;
           ret true
         else
           log ("Google button found with selector " ++ selector ++
                " but not visible, trying next...") INFO ;;;
           ret false
     | None => ret false
     end)
    (fun message =>
       log ("Error trying selector " ++ selector ++ ": " ++ message) INFO ;;;
       ret false).

Fixpoint google_loop (selectors : list string) : M unit :=
  match selectors with
  | [] => ret tt
  | selector :: rest =>
      stop <- try_google_selector selector ;;
      if stop then ret tt else google_loop rest
  end.

(** The loop over [emailSelectors]; the result is [emailFilled]. The
    field is filled as soon as it exists: there is no [isVisible] test. *)
Fixpoint email_loop (selectors : list string) : M bool :=
  match selectors with
  | [] => ret false
  | selector :: rest =>
      filled <- try_catch
                  (emailField <- ask (fun w => page_query E w selector) ;;
                   match emailField with
                   | Some field =>
                       act (Fill field (ZOHO_EMAIL env)) ;;;
                       log ("Email entered using selector: " ++ selector) INFO ;;;
                       ret true
                   | None => ret false
                   end)
                  (fun _ => ret false) ;;
      if filled then ret true else email_loop rest
  end.

(** The loop over [nextButtonSelectors]. *)
Fixpoint next_loop (selectors : list string) : M unit :=
  match selectors with
  | [] => ret tt
  | selector :: rest =>
      stop <- try_catch
                (nextButton <- ask (fun w => page_query E w selector) ;;
                 match nextButton with
                 | Some button =>
                     visible <- ask (fun w => isVisible E w button) ;;
                     if visible then
                       act (Click button) ;;;
                       log "Clicked next/continue button" INFO ;;;
                       act (WaitForTimeout 2000) ;;;
                       ret true
                     else ret false
                 | None => ret false
                 end)
                (fun _ => ret false) ;;
      if stop then ret tt else next_loop rest
  end.

(** The loop over [passwordSelectors]; the result is [passwordFilled]. *)
Fixpoint password_loop (selectors : list string) : M bool :=
  match selectors with
  | [] => ret false
  | selector :: rest =>
      filled <- try_catch
                  (passwordField <- ask (fun w => page_query E w selector) ;;
                   match passwordField with
                   | Some field =>
                       visible <- ask (fun w => isVisible E w field) ;;
                       if visible then
                         act (Fill field (ZOHO_PASSWORD env)) ;;;
                         log ("Password entered using selector: " ++ selector) INFO ;;;
                         ret true
                       else ret false
                   | None => ret false
                   end)
                  (fun _ => ret false) ;;
      if filled then ret true else password_loop rest
  end.

(** The loop over [submitSelectors]; the result is [submitted]. *)
Fixpoint submit_loop (selectors : list string) : M bool :=
  match selectors with
  | [] => ret false
  | selector :: rest =>
      done <- try_catch
                (submitButton <- ask (fun w => page_query E w selector) ;;
                 match submitButton with
                 | Some button =>
                     visible <- ask (fun w => isVisible E w button) ;;
                     if visible then
                       act (Click button) ;;;
                       log ("Login form submitted using selector: " ++ selector) INFO ;;;
                       ret true
                     else ret false
                 | None => ret false
                 end)
                (fun _ => ret false) ;;
      if done then ret true else submit_loop rest
  end.

(** *** The two login handlers *)

Definition googleButtonSelectors : list string :=
  match custom (env_GOOGLE_LOGIN_SELECTORS env) with
  | Some l => l
  | None => default_googleButtonSelectors
  end.

(** [handleGoogleLogin(page)]. *)
Definition handleGoogleLogin : M unit :=
  log "Looking for Google login button..." INFO ;;;
  match custom (env_GOOGLE_LOGIN_SELECTORS env) with
  | Some l => log ("Using custom Google login selectors: " ++ JS.join ", " l) INFO
  | None => log "Using default Google login selectors" INFO
  end ;;;
  set_googleButtonFound false ;;;
  google_loop googleButtonSelectors ;;;
  found <- get googleButtonFound ;;
  when (negb found)
    (log "Could not find Google login button. Taking screenshot for debugging..." ERROR ;;;
     act (Screenshot "logs/google-button-not-found.png") ;;;
     log "Screenshot saved to logs/google-button-not-found.png for debugging" INFO ;;;
     if negb (JS.strict_eq (env_HEADED env) "true") then
       throw "Google login button not found. Please check the login page structure or set GOOGLE_LOGIN_SELECTORS in .env"
     else
       log "Running in headed mode - please click Google login button manually" INFO ;;;
       log "Waiting 60 seconds for manual click..." INFO ;;;
       act (WaitForTimeout 60000)) ;;;
  log "Waiting for Google OAuth authentication to complete..." INFO ;;;
  act (WaitForTimeout 10000).

(** [handlePasswordLogin(page)]. *)
Definition handlePasswordLogin : M unit :=
  log "Filling in login credentials..." INFO ;;;
  act (WaitForSelector emailWaitSelector 10000) ;;;
  emailFilled <- email_loop emailSelectors ;;
  when (negb emailFilled) (throw "Could not find email input field") ;;;
  next_loop nextButtonSelectors ;;;
  log "Filling in password..." INFO ;;;
  act (WaitForTimeout 1000) ;;;
  passwordFilled <- password_loop passwordSelectors ;;
  when (negb passwordFilled) (throw "Could not find password input field") ;;;
  log "Submitting login form..." INFO ;;;
  submitted <- submit_loop submitSelectors ;;
  when (negb submitted)
    (act (KeyboardPress "Enter") ;;;
     log "Submitted login form using Enter key" INFO).

(** *** [performZohoCheckin], step by step *)

(** [url.includes('signin') || url.includes('login')]: the page is a
    login page. *)
Definition on_login_page (url : string) : bool :=
  JS.includes url "signin" || JS.includes url "login".

(** Steps 1 and 2: the configuration checks. The result is
    [hasSavedState]. *)
Definition validate : M bool :=
  when (negb (JS.truthy_opt (ZOHO_EMAIL env)))
    (log "Zoho email not configured. Please set ZOHO_EMAIL environment variable." ERROR ;;;
     process_exit 1) ;;;
  hasSavedState <- read (fun w => existsSync E w (STORAGE_STATE_PATH env)) ;;
  (if hasSavedState then
     log "Found saved authentication state. Attempting to reuse session..." INFO
   else if USE_GOOGLE_LOGIN env then
     log "No saved authentication state found. Will run in headed mode for Google OAuth login." INFO ;;;
     log "Please complete the Google login in the browser window that opens." INFO
   else if negb (JS.truthy_opt (ZOHO_PASSWORD env)) then
     log "No password provided and no saved state. Please set ZOHO_PASSWORD or USE_GOOGLE_LOGIN=true" ERROR ;;;
     process_exit 1
   else ret tt) ;;;
  (if negb (useHeadless env) then
     log "Running in headed mode - browser window will be visible" INFO
   else
     log "Running in headless mode - browser window will be hidden" INFO) ;;;
  ret hasSavedState.

(** Step 3: the browser is launched and a page obtained. *)
Definition launch (hasSavedState : bool) : M unit :=
  log ("Launching browser (headless: " ++ show_bool (useHeadless env) ++ ")...") INFO ;;;
  if USE_PERSISTENT_CONTEXT env then
    present <- read (fun w => existsSync E w (USER_DATA_DIR env)) ;;
    when (negb present)
      (act (MkdirSync (USER_DATA_DIR env)) ;;;
       log ("Created browser data directory: " ++ USER_DATA_DIR env) INFO) ;;;
    log "Using persistent browser context - your Google login will be remembered after first use" INFO ;;;
    act (LaunchPersistentContext (USER_DATA_DIR env) (useHeadless env)) ;;;
    pages <- read (context_pages E) ;;
    when (negb (0 <? pages)%nat) (act NewPage) ;;;
    act AddInitScript ;;;
    set_browser false
  else
    act (Launch (useHeadless env)) ;;;
    set_browser true ;;;
    when hasSavedState (log "Loaded saved authentication state" INFO) ;;;
    act (NewContext (if hasSavedState then Some (STORAGE_STATE_PATH env) else None)) ;;;
    act NewPage ;;;
    act AddInitScript.

(** Step 4: the login address is opened. *)
Definition open_login_page : M unit :=
  log ("Navigating to " ++ ZOHO_URL env ++ "...") INFO ;;;
  act SetExtraHTTPHeaders ;;;
  act (Goto (ZOHO_URL env) 30000).

(** The branch of step 5 that logs in. *)
Definition login : M unit :=
  (if USE_GOOGLE_LOGIN env then
     log "Attempting Google OAuth login..." INFO ;;;
     handleGoogleLogin
   else
     log "Attempting password login..." INFO ;;;
     handlePasswordLogin) ;;;
  log "Waiting for login to complete..." INFO ;;;
  act (WaitForTimeout 5000) ;;;
  postLoginUrl <- read (page_url E) ;;
  log ("URL after login attempt: " ++ postLoginUrl) INFO ;;;
  when (on_login_page postLoginUrl)
    (log "Still on login page. Login may have failed." ERROR ;;;
     act (Screenshot "logs/login-failed.png") ;;;
     if USE_GOOGLE_LOGIN env && negb (useHeadless env) then
       log "Please complete the Google login manually in the browser window." INFO ;;;
       log "Waiting 60 seconds for manual login..." INFO ;;;
       act (WaitForTimeout 60000)
     else throw "Login failed or requires additional authentication") ;;;
  if negb (USE_PERSISTENT_CONTEXT env) then
    try_catch
      (act (StorageState (STORAGE_STATE_PATH env)) ;;;
       log "Authentication state saved for future use" INFO)
      (fun message =>
         log ("Warning: Could not save authentication state: " ++ message) ERROR)
  else
    log "Using persistent context - session (including Google login) will be automatically saved" INFO.

(** Step 5: the landing page decides whether to log in. *)
Definition login_if_needed : M unit :=
  currentUrl <- read (page_url E) ;;
  log ("Current URL: " ++ currentUrl) INFO ;;;
  let isLoggedIn := negb (JS.includes currentUrl "signin") &&
                    negb (JS.includes currentUrl "login") in
  if negb isLoggedIn then login
  else log "Already logged in using saved session" INFO.

(** Step 6: the action page is opened unless the page is on it. *)
Definition open_action_page : M unit :=
  pageUrl <- read (page_url E) ;;
  if negb (JS.includes pageUrl "people.zoho.com") || negb (JS.includes pageUrl "myspace") then
    log ("Navigating to check-in/check-out page: " ++ checkinUrl env) INFO ;;;
    act (Goto (checkinUrl env) 30000) ;;;
    act (WaitForTimeout 2000)
  else log "Already on check-in/check-out page" INFO.

Definition actionSelectors : list string :=
  match custom (env_CHECKIN_SELECTORS env) with
  | Some l => l
  | None => default_actionSelectors
  end.

(** The head of step 7, up to the loop. *)
Definition announce_selectors : M unit :=
  log "Looking for check-in/check-out button..." INFO ;;;
  match custom (env_CHECKIN_SELECTORS env) with
  | Some l => log ("Using custom selectors: " ++ JS.join ", " l) INFO
  | None => log "Using default check-in/check-out selectors" INFO
  end ;;;
  set_actionPerformed false ;;;
  set_actionType "unknown".

(** The tail of step 7 and step 8: the outcome is recorded and the final
    screenshot taken. *)
Definition report : M unit :=
  performed <- get actionPerformed ;;
  (if negb performed then
     log "Could not find check-in/check-out button. Taking screenshot for debugging..." ERROR ;;;
     act (Screenshot "logs/checkin-not-found.png") ;;;
     log "Screenshot saved to logs/checkin-not-found.png" INFO
   else
     type <- get actionType ;;
     log (type ++ " action completed successfully!") INFO) ;;;
  timestamp <- read (fun w => dashes (toISOString E w)) ;;
  act (Screenshot ("logs/zoho-checkin-" ++ timestamp ++ ".png")) ;;;
  log ("Screenshot saved to logs/zoho-checkin-" ++ timestamp ++ ".png") INFO ;;;
  log "Zoho check-in automation completed successfully" INFO.

(** Steps 7 and 8: the Action Resolver on the page it is given. *)
Definition resolve_action : M unit :=
  announce_selectors ;;;
  action_loop actionSelectors ;;;
  report.

(** Steps 1 to 4: everything before the landing page is inspected. *)
Definition arrive : M unit :=
  hasSavedState <- validate ;;
  launch hasSavedState ;;;
  open_login_page.

(** Steps 1 to 6: the run up to the Action Resolver. *)
Definition reach_action_page : M unit :=
  arrive ;;;
  login_if_needed ;;;
  open_action_page.

(** The body of the [try] of [performZohoCheckin]. *)
Definition steps : M unit :=
  arrive ;;;
  login_if_needed ;;;
  open_action_page ;;;
  resolve_action.

(** The [catch] of [performZohoCheckin]. *)
Definition on_error (message : string) : M unit :=
  log ("Error during automation: " ++ message) ERROR ;;;
  log ("Stack trace: " ++ stack E message) ERROR ;;;
  launched <- get browser ;;
  when launched
    (try_catch
       (act BrowserPages ;;;
        pages <- read (browser_pages E) ;;
        when (0 <? pages)%nat
          (timestamp <- read (fun w => dashes (toISOString E w)) ;;
           act (Screenshot ("logs/error-" ++ timestamp ++ ".png")) ;;;
           log ("Error screenshot saved to logs/error-" ++ timestamp ++ ".png") INFO))
       (fun screenshotError =>
          log ("Could not take error screenshot: " ++ screenshotError) ERROR)) ;;;
  process_exit 1.

(** The [finally] of [performZohoCheckin]. Its [persistentContext] is the
    variable declared before the [try], which the [try] block shadows
    and never assigns: the second branch does nothing. *)
Definition cleanup : M unit :=
  launched <- get browser ;;
  when launched (act BrowserClose ;;; log "Browser closed" INFO).

(** [performZohoCheckin()]. *)
Definition performZohoCheckin : M unit :=
  try_finally (try_catch steps on_error) cleanup.

(** The script run as the main module:
    [performZohoCheckin().then(...).catch(...)]. *)
Definition main : M unit :=
  try_catch
    (performZohoCheckin ;;;
     log "Script execution completed" INFO ;;;
     process_exit 0)
    (fun message =>
       log ("Fatal error: " ++ message) ERROR ;;;
       process_exit 1).

(** The run of the script in the world [w]. *)
Definition run (w : World) : res unit * St * list (event Handle) := main (start w).

End Script.

(** *** Vocabulary of the properties of the flow *)

(** [sub] occurs in [s]. *)
Definition Substring (sub s : string) : Prop :=
  exists pre post, s = pre ++ sub ++ post.

(** The address carries a login-page marker. *)
Definition login_marker (url : string) : Prop :=
  Substring "signin" url \/ Substring "login" url.

Section Observations.

Context {World Handle : Type}.
Variable E : Engine World Handle.

(** The element a selector yields when it exists on the page and is
    visible, in the world [w]. *)
Definition visible_match (w : World) (selector : string) : option Handle :=
  match page_query E w selector with
  | Fulfilled (Some h) =>
      match isVisible E w h with
      | Fulfilled true => Some h
      | _ => None
      end
  | _ => None
  end.

(** No selector of the list yields a visible match at the moment the
    action loop tries it, that is after its wait for the selector. *)
Fixpoint none_visible (selectors : list string) (w : World) : Prop :=
  match selectors with
  | [] => True
  | selector :: rest =>
      let w1 := snd (perform E (WaitForSelector selector 10000) w) in
      visible_match w1 selector = None /\ none_visible rest w1
  end.

(** The world once the action loop has waited for each selector of the
    list in turn. *)
Fixpoint waited (selectors : list string) (w : World) : World :=
  match selectors with
  | [] => w
  | selector :: rest => waited rest (snd (perform E (WaitForSelector selector 10000) w))
  end.

(** The same two notions for the loop of [handleGoogleLogin], which
    pauses a second before each selector. *)
Fixpoint none_visible_oauth (selectors : list string) (w : World) : Prop :=
  match selectors with
  | [] => True
  | selector :: rest =>
      let w1 := snd (perform E (WaitForTimeout 1000) w) in
      visible_match w1 selector = None /\ none_visible_oauth rest w1
  end.

Fixpoint paused (selectors : list string) (w : World) : World :=
  match selectors with
  | [] => w
  | _ :: rest => paused rest (snd (perform E (WaitForTimeout 1000) w))
  end.

(** What the action loop holds in [buttonText] and [ariaLabel] for an
    element: a rejected read gives the empty string. *)
Definition text_read (w : World) (h : Handle) : string :=
  match textContent E w h with
  | Fulfilled t => t
  | Rejected _ => EmptyString
  end.

Definition label_read (w : World) (h : Handle) : option string :=
  match getAttribute E w h "aria-label" with
  | Fulfilled o => o
  | Rejected _ => Some EmptyString
  end.

(** No action of the engine is rejected. *)
Definition actions_succeed : Prop :=
  forall a w, fst (perform E a w) = Fulfilled tt.

(** Screenshots and the closing of the browser are not rejected. *)
Definition captures_succeed : Prop :=
  (forall path w, fst (perform E (Screenshot path) w) = Fulfilled tt) /\
  (forall w, fst (perform E BrowserClose w) = Fulfilled tt).

End Observations.

Definition is_act {Handle} (e : event Handle) : bool :=
  match e with
  | Act _ => true
  | Logged _ _ => false
  end.

(** The event touches an element: a click, a fill or a scroll. *)
Definition touches {Handle} (e : event Handle) : bool :=
  match e with
  | Act (Click _) | Act (Fill _ _) | Act (ScrollIntoViewIfNeeded _) => true
  | _ => false
  end.

Definition clicks (h : nat) (e : event nat) : bool :=
  match e with
  | Act (Click h') => Nat.eqb h h'
  | _ => false
  end.

Definition fills (h : nat) (e : event nat) : bool :=
  match e with
  | Act (Fill h' _) => Nat.eqb h h'
  | _ => false
  end.

Definition waits (ms : Z) (e : event nat) : bool :=
  match e with
  | Act (WaitForTimeout ms') => Z.eqb ms ms'
  | _ => false
  end.

Definition captures (path : string) (e : event nat) : bool :=
  match e with
  | Act (Screenshot path') => String.eqb path path'
  | _ => false
  end.

Definition outcome_of {A S T} (r : res A * S * T) : res A := fst (fst r).
Definition trace_of {A S T} (r : res A * S * T) : T := snd r.

(** The run [r], after the events [t] have happened. *)
Definition after {A S Ev} (t : list Ev) (x : res A * S * list Ev) : res A * S * list Ev :=
  match x with
  | (r, s, t2) => (r, s, (t ++ t2)%list)
  end.

(** [sub] occurs in [s] once [s] is lower-cased. *)
Definition mentions (sub s : string) : Prop := Substring sub (JS.toLowerCase s).

(** A piece of the script, run from a state whose [actionType] is [T],
    ends by returning [true] or by throwing, with [actionType] still [T]. *)
Definition keeps_type {World Handle : Type} (T : string)
  (x : res bool * @St World * list (event Handle)) : Prop :=
  actionType (snd (fst x)) = T /\
  (fst (fst x) = Ok true \/ exists e, fst (fst x) = Throw e).

(** The classification as the specification words it: a substring match
    on "in" and "out" in the text or the accessible label, check-in
    unless "out" is the only one found. *)
Definition spec_classify (buttonText ariaLabel : string) : string :=
  let found sub := JS.includes (JS.toLowerCase buttonText) sub ||
                   JS.includes (JS.toLowerCase ariaLabel) sub in
  if found "out" && negb (found "in") then "check-out" else "check-in".

(** *** Vocabulary of the confinement properties *)

(** What a run may do under the configuration [env]: each action of the
    script with the only arguments it is ever given, and the mode in
    which it can occur. *)
Definition permitted {Handle : Type} (env : Env) (e : event Handle) : Prop :=
  match e with
  | Logged _ _ => True
  | Act a =>
      match a with
      | MkdirSync dir =>
          USE_PERSISTENT_CONTEXT env = true /\ dir = USER_DATA_DIR env
      | LaunchPersistentContext dir headless =>
          USE_PERSISTENT_CONTEXT env = true /\ dir = USER_DATA_DIR env /\
          headless = useHeadless env
      | Launch headless =>
          USE_PERSISTENT_CONTEXT env = false /\ headless = useHeadless env
      | NewContext state =>
          USE_PERSISTENT_CONTEXT env = false /\
          (state = None \/ state = Some (STORAGE_STATE_PATH env))
      | Goto url timeout =>
          (url = ZOHO_URL env \/ url = checkinUrl env) /\ timeout = 30000%Z
      | WaitForTimeout ms => (0 < ms <= 60000)%Z
      | WaitForSelector _ timeout => timeout = 10000%Z
      | Screenshot path => String.prefix "logs/" path = true
      | StorageState path =>
          USE_PERSISTENT_CONTEXT env = false /\ path = STORAGE_STATE_PATH env
      | Fill _ value =>
          USE_GOOGLE_LOGIN env = false /\
          (value = ZOHO_EMAIL env \/ value = ZOHO_PASSWORD env)
      | KeyboardPress key => USE_GOOGLE_LOGIN env = false /\ key = "Enter"
      | BrowserPages | BrowserClose => USE_PERSISTENT_CONTEXT env = false
      | NewPage | AddInitScript | SetExtraHTTPHeaders
      | ScrollIntoViewIfNeeded _ | Click _ => True
      end
  end.

(** In persistent-context mode the variable [browser] stays [null]. *)
Definition browser_unset {World : Type} (env : Env) (s : @St World) : Prop :=
  USE_PERSISTENT_CONTEXT env = true -> browser s = false.

Definition state_of {A S T} (r : res A * S * T) : S := snd (fst r).

(** A piece of the script keeps [browser_unset], produces permitted
    events only, and exits, if at all, with code 1. *)
Definition confined {World Handle A : Type} (env : Env)
  (m : @St World -> res A * @St World * list (event Handle)) : Prop :=
  forall s,
    browser_unset env s ->
    browser_unset env (state_of (m s)) /\
    Forall (permitted env) (trace_of (m s)) /\
    (forall c, outcome_of (m s) = Exit c -> c = 1%Z).

(** The events that type into the page. *)
Definition types {Handle} (e : event Handle) : bool :=
  match e with
  | Act (Fill _ _) | Act (KeyboardPress _) => true
  | _ => false
  end.

(** The events that only apply to a browser launched without a
    persistent context. *)
Definition plain_browser_only {Handle} (e : event Handle) : bool :=
  match e with
  | Act (Launch _) | Act (NewContext _) | Act (StorageState _)
  | Act BrowserPages | Act BrowserClose => true
  | _ => false
  end.

(** The world once the actions of the trace [t] have been performed,
    in order, from the world [w]. *)
Fixpoint world_after {World Handle : Type} (E : Engine World Handle)
  (t : list (event Handle)) (w : World) : World :=
  match t with
  | [] => w
  | Act a :: rest => world_after E rest (snd (perform E a w))
  | Logged _ _ :: rest => world_after E rest w
  end.

(** The actions of the trace [t] that the engine fulfilled when they
    were performed, in order, from the world [w]; the rejected ones are
    left out. *)
Fixpoint fulfilled {World Handle : Type} (E : Engine World Handle)
  (t : list (event Handle)) (w : World) : list (action Handle) :=
  match t with
  | [] => []
  | Act a :: rest =>
      match perform E a w with
      | (Fulfilled _, w') => a :: fulfilled E rest w'
      | (Rejected _, w') => fulfilled E rest w'
      end
  | Logged _ _ :: rest => fulfilled E rest w
  end.

(** A piece of the script whose trace accounts for the world it leaves
    (the world changes by the actions of the trace and by nothing else)
    and which does not end the process. *)
Definition orderly {World Handle A : Type} (E : Engine World Handle)
  (m : @St World -> res A * @St World * list (event Handle)) : Prop :=
  forall s,
    world (state_of (m s)) = world_after E (trace_of (m s)) (world s) /\
    (forall c, outcome_of (m s) <> Exit c).

(** The event closes the browser. *)
Definition closes {Handle} (e : event Handle) : bool :=
  match e with
  | Act BrowserClose => true
  | _ => false
  end.

(** *** A scripted page for the examples *)

(** A page that does not change: an address, the element each selector
    yields, and what each element shows. Handles are numbers. *)
Record Page := {
  address : string;
  dom : list (string * nat);
  hidden : list nat;
  texts : list (nat * string);
  labels : list (nat * string)     (* elements that carry an aria-label *)
}.

Fixpoint lookup {A} (key : string) (l : list (string * A)) : option A :=
  match l with
  | [] => None
  | (k, v) :: rest => if String.eqb k key then Some v else lookup key rest
  end.

Fixpoint lookup_nat {A} (key : nat) (l : list (nat * A)) : option A :=
  match l with
  | [] => None
  | (k, v) :: rest => if Nat.eqb k key then Some v else lookup_nat key rest
  end.

(** The engine over a scripted page: every action succeeds and leaves
    the page as it is; no file exists; the context has one page. *)
Definition scripted (p : Page) : Engine unit nat :=
  {| perform := fun _ w => (Fulfilled tt, w);
     page_url := fun _ => address p;
     page_query := fun _ selector => Fulfilled (lookup selector (dom p));
     isVisible := fun _ h => Fulfilled (negb (existsb (Nat.eqb h) (hidden p)));
     textContent := fun _ h =>
       Fulfilled (match lookup_nat h (texts p) with Some t => t | None => EmptyString end);
     getAttribute := fun _ h name =>
       Fulfilled (if String.eqb name "aria-label" then lookup_nat h (labels p) else None);
     existsSync := fun _ _ => false;
     context_pages := fun _ => 1%nat;
     browser_pages := fun _ => 0%nat;
     toISOString := fun _ => "2026-11-03T06:00:00.000Z";
     stack := fun message => "Error: " ++ message |}.

(** The environment with [HEADLESS] set to [v]. *)
Definition with_HEADLESS (v : option string) (env : Env) : Env :=
  {| env_ZOHO_EMAIL := env_ZOHO_EMAIL env;
     env_ZOHO_PASSWORD := env_ZOHO_PASSWORD env;
     env_ZOHO_URL := env_ZOHO_URL env;
     env_USE_GOOGLE_LOGIN := env_USE_GOOGLE_LOGIN env;
     env_USER_DATA_DIR := env_USER_DATA_DIR env;
     env_USE_PERSISTENT_CONTEXT := env_USE_PERSISTENT_CONTEXT env;
     env_HEADLESS := v;
     env_HEADED := env_HEADED env;
     env_ZOHO_CHECKIN_URL := env_ZOHO_CHECKIN_URL env;
     env_CHECKIN_SELECTORS := env_CHECKIN_SELECTORS env;
     env_GOOGLE_LOGIN_SELECTORS := env_GOOGLE_LOGIN_SELECTORS env;
     STORAGE_STATE_PATH := STORAGE_STATE_PATH env;
     default_USER_DATA_DIR := default_USER_DATA_DIR env |}.

Definition no_env : Env :=
  {| env_ZOHO_EMAIL := None; env_ZOHO_PASSWORD := None; env_ZOHO_URL := None;
     env_USE_GOOGLE_LOGIN := None; env_USER_DATA_DIR := None;
     env_USE_PERSISTENT_CONTEXT := None; env_HEADLESS := None; env_HEADED := None;
     env_ZOHO_CHECKIN_URL := None; env_CHECKIN_SELECTORS := None;
     env_GOOGLE_LOGIN_SELECTORS := None;
     STORAGE_STATE_PATH := "logs/zoho-auth-state.json";
     default_USER_DATA_DIR := "logs/browser-data" |}.

(** An account that logs in through Google; nothing else is set, so the
    browser is shown ([HEADLESS] is not 'true'). *)
Definition oauth_env : Env :=
  {| env_ZOHO_EMAIL := Some "user@example.com"; env_ZOHO_PASSWORD := None;
     env_ZOHO_URL := None;
     env_USE_GOOGLE_LOGIN := Some "true"; env_USER_DATA_DIR := None;
     env_USE_PERSISTENT_CONTEXT := None; env_HEADLESS := None; env_HEADED := None;
     env_ZOHO_CHECKIN_URL := None; env_CHECKIN_SELECTORS := None;
     env_GOOGLE_LOGIN_SELECTORS := None;
     STORAGE_STATE_PATH := "logs/zoho-auth-state.json";
     default_USER_DATA_DIR := "logs/browser-data" |}.

(** The same account as the monitor starts it: [HEADLESS] is 'false'. *)
Definition oauth_env_from_monitor : Env :=
  {| env_ZOHO_EMAIL := Some "user@example.com"; env_ZOHO_PASSWORD := None;
     env_ZOHO_URL := None;
     env_USE_GOOGLE_LOGIN := Some "true"; env_USER_DATA_DIR := None;
     env_USE_PERSISTENT_CONTEXT := None; env_HEADLESS := Some "false"; env_HEADED := None;
     env_ZOHO_CHECKIN_URL := None; env_CHECKIN_SELECTORS := None;
     env_GOOGLE_LOGIN_SELECTORS := None;
     STORAGE_STATE_PATH := "logs/zoho-auth-state.json";
     default_USER_DATA_DIR := "logs/browser-data" |}.

(** An account that logs in with a password. *)
Definition password_env : Env :=
  {| env_ZOHO_EMAIL := Some "user@example.com"; env_ZOHO_PASSWORD := Some "secret";
     env_ZOHO_URL := None;
     env_USE_GOOGLE_LOGIN := None; env_USER_DATA_DIR := None;
     env_USE_PERSISTENT_CONTEXT := None; env_HEADLESS := None; env_HEADED := None;
     env_ZOHO_CHECKIN_URL := None; env_CHECKIN_SELECTORS := None;
     env_GOOGLE_LOGIN_SELECTORS := None;
     STORAGE_STATE_PATH := "logs/zoho-auth-state.json";
     default_USER_DATA_DIR := "logs/browser-data" |}.

(** The login page with no Google control at all. *)
Definition bare_login_page : Page :=
  {| address := "https://accounts.zoho.com/signin?servicename=zohopeople";
     dom := []; hidden := []; texts := []; labels := [] |}.

(** The login page with a hidden identifier field (element 1) ahead of
    the visible one (element 2). *)
Definition login_page_hidden_field : Page :=
  {| address := "https://accounts.zoho.com/signin?servicename=zohopeople";
     dom := [ ("input[type=" ++ q "email" ++ "]", 1%nat);
              ("input[name=" ++ q "login_id" ++ "]", 2%nat) ];
     hidden := [1%nat]; texts := []; labels := [] |}.

(** The action page of a session that is already authenticated. The
    attendance button (element 1) is visible, reads "Check-out" and has
    no aria-label; another visible button (element 2) is labelled
    "Check messages". *)
Definition action_page_unlabelled : Page :=
  {| address := "https://people.zoho.com/iscalesolutions/zp#home/myspace/overview-actionlist";
     dom := [ ("#ZPAtt_check_in_out", 1%nat);
              ("button#ZPAtt_check_in_out", 1%nat);
              ("button[aria-label*=" ++ q "Check" ++ "]", 2%nat);
              ("button:has-text(" ++ q "Check-out" ++ ")", 1%nat) ];
     hidden := [];
     texts := [ (1%nat, "Check-out"); (2%nat, "Messages") ];
     labels := [ (2%nat, "Check messages") ] |}.

(** The action page with a labelled attendance button. *)
Definition action_page_labelled : Page :=
  {| address := "https://people.zoho.com/iscalesolutions/zp#home/myspace/overview-actionlist";
     dom := [ ("#ZPAtt_check_in_out", 1%nat) ];
     hidden := [];
     texts := [ (1%nat, "Check-out") ];
     labels := [ (1%nat, "Check-out") ] |}.

(** The action page with no attendance control. *)
Definition action_page_empty : Page :=
  {| address := "https://people.zoho.com/iscalesolutions/zp#home/myspace/overview-actionlist";
     dom := []; hidden := []; texts := []; labels := [] |}.

(** The account of [oauth_env] with [HEADED] set to 'true'. *)
Definition oauth_env_HEADED : Env :=
  {| env_ZOHO_EMAIL := Some "user@example.com"; env_ZOHO_PASSWORD := None;
     env_ZOHO_URL := None;
     env_USE_GOOGLE_LOGIN := Some "true"; env_USER_DATA_DIR := None;
     env_USE_PERSISTENT_CONTEXT := None; env_HEADLESS := None; env_HEADED := Some "true";
     env_ZOHO_CHECKIN_URL := None; env_CHECKIN_SELECTORS := None;
     env_GOOGLE_LOGIN_SELECTORS := None;
     STORAGE_STATE_PATH := "logs/zoho-auth-state.json";
     default_USER_DATA_DIR := "logs/browser-data" |}.

(** The password account run without a window. *)
Definition password_env_headless : Env := with_HEADLESS (Some "true") password_env.

(** The login page with its form: the identifier field (element 1), the
    Next button (element 2), the password field (element 3) and the
    submit button (element 4). *)
Definition login_form_page : Page :=
  {| address := "https://accounts.zoho.com/signin?servicename=zohopeople";
     dom := [ ("input[type=" ++ q "email" ++ "]", 1%nat);
              ("button:has-text(" ++ q "Next" ++ ")", 2%nat);
              ("input[type=" ++ q "password" ++ "]", 3%nat);
              ("button[type=" ++ q "submit" ++ "]", 4%nat) ];
     hidden := []; texts := []; labels := [] |}.

(** The login page with the Google control: a hidden icon (element 1)
    ahead of the visible one (element 2). *)
Definition login_page_with_google : Page :=
  {| address := "https://accounts.zoho.com/signin?servicename=zohopeople";
     dom := [ ("span.google_icon", 1%nat);
              (".google_fed", 2%nat) ];
     hidden := [1%nat]; texts := []; labels := [] |}.

(** An engine on which every action is rejected. *)
Definition broken (p : Page) : Engine unit nat :=
  {| perform := fun _ w => (Rejected "Target closed", w);
     page_url := page_url (scripted p);
     page_query := page_query (scripted p);
     isVisible := isVisible (scripted p);
     textContent := textContent (scripted p);
     getAttribute := getAttribute (scripted p);
     existsSync := existsSync (scripted p);
     context_pages := context_pages (scripted p);
     browser_pages := browser_pages (scripted p);
     toISOString := toISOString (scripted p);
     stack := stack (scripted p) |}.

End Checkin.

(** * Properties of the Wi-Fi gate *)

Module WiFiFacts.
Import WiFi.

Section Facts.

Variable execSync : string -> outcome string.
Variable re : Regex.

Lemma guarded_returns {A} (body : outcome (option A)) :
  returns (try_catch body (fun _ => Ok None)).
Proof. destruct body as [v|e]; [exists v|exists None]; reflexivity. Qed.

Lemma try_interfaces_returns ifaces : returns (try_interfaces execSync re ifaces).
Proof.
  induction ifaces as [|iface rest IH]; [exists None; reflexivity|].
  cbn [try_interfaces].
  destruct (guarded_returns
              (result <- execSync ("/usr/sbin/networksetup -getairportnetwork " ++ iface) ;;
               if not_associated result then Ok None
               else Ok (try_patterns (re_patterns re) result))) as [v E].
  rewrite E. cbn [bind]. destruct v as [ssid|]; [exists (Some ssid); reflexivity|exact IH].
Qed.

Lemma first_found_returns stages :
  Forall returns stages -> returns (first_found stages).
Proof.
  induction 1 as [|stage rest [v E] F IH]; [exists None; reflexivity|].
  cbn [first_found]. rewrite E. cbn [bind].
  destruct v as [ssid|]; [exists (Some ssid); reflexivity|exact IH].
Qed.

(** Detection never throws: every command runs inside a [try]. *)
Lemma getCurrentWiFiSSID_returns : returns (getCurrentWiFiSSID execSync re).
Proof.
  unfold getCurrentWiFiSSID.
  match goal with
  | |- returns (bind (try_catch ?b ?h) _) =>
      destruct (guarded_returns b) as [w E]; rewrite E
  end.
  cbn [bind]. apply first_found_returns.
  repeat (constructor; [first [apply try_interfaces_returns | apply guarded_returns]|]).
  constructor.
Qed.

Lemma array_includes_In names name :
  JS.array_includes names name = true <-> In name names.
Proof.
  induction names as [|y rest IH]; cbn [JS.array_includes In].
  - split; [discriminate|tauto].
  - rewrite orb_true_iff, IH, String.eqb_eq. tauto.
Qed.

Lemma truthy_iff s : JS.truthy s = true <-> s <> EmptyString.
Proof.
  unfold JS.truthy. destruct (String.eqb_spec s EmptyString); cbn; split;
    congruence.
Qed.

Lemma split_trim_filter_In s name :
  In name (JS.split_trim_filter s) <->
  name <> EmptyString /\ exists piece, In piece (JS.split "," s) /\ JS.trim piece = name.
Proof.
  unfold JS.split_trim_filter. rewrite filter_In, in_map_iff, truthy_iff.
  split.
  - intros [[piece [Ht Hin]] Hne]. split; [assumption|]. exists piece. auto.
  - intros [Hne [piece [Hin Ht]]]. split; [|assumption]. exists piece. auto.
Qed.

Lemma isOnOfficeWiFi_true_iff e :
  isOnOfficeWiFi execSync re e = Ok true <->
  exists name,
    getCurrentWiFiSSID execSync re = Ok (Some name) /\
    name <> EmptyString /\ entry_of e name.
Proof.
  destruct getCurrentWiFiSSID_returns as [cur Hcur].
  assert (Hcore : forall names,
    (forall name, name <> EmptyString -> (In name names <-> entry_of e name)) ->
    (if (List.length names =? 0)%nat then Ok false
     else currentSSID <- getCurrentWiFiSSID execSync re ;;
          if negb (JS.truthy_opt currentSSID) then Ok false
          else match currentSSID with
               | Some ssid => Ok (JS.array_includes names ssid)
               | None => Ok false
               end) = Ok true <->
    exists name, Ok cur = Ok (Some name) /\ name <> EmptyString /\ entry_of e name).
  { intros names Hn. rewrite Hcur. cbn [bind].
    destruct names as [|n0 rest]; cbn [List.length Nat.eqb].
    - split; [discriminate|]. intros [name [_ [Hne He]]].
      apply Hn in He; [destruct He|assumption].
    - destruct cur as [ssid|]; cbn [JS.truthy_opt negb].
      + destruct (JS.truthy ssid) eqn:Ht; cbn [negb].
        * apply truthy_iff in Ht. split.
          -- intros H. injection H as H.
             apply (proj1 (array_includes_In (n0 :: rest) ssid)) in H.
             exists ssid. repeat split; auto. apply Hn; auto.
          -- intros [name [E [Hne He]]]. injection E as <-.
             f_equal. apply array_includes_In. apply Hn; auto.
        * split; [discriminate|]. intros [name [E [Hne He]]]. injection E as <-.
          apply truthy_iff in Hne. congruence.
      + split; [discriminate|]. intros [name [E _]]. discriminate. }
  rewrite Hcur. unfold isOnOfficeWiFi.
  destruct e as [|s|names|t]; cbn [falsy].
  - split; [discriminate|]. intros [name [_ [_ []]]].
  - destruct (JS.truthy s) eqn:Ht; cbn [negb].
    + apply Hcore. intros name Hne. rewrite split_trim_filter_In. cbn [entry_of].
      tauto.
    + split; [discriminate|]. intros [name [_ [Hne [piece [Hin Htrim]]]]].
      destruct (String.eqb_spec s EmptyString) as [->|]; [|unfold JS.truthy in Ht;
        destruct (String.eqb_spec s EmptyString); [contradiction|discriminate]].
      cbn in Hin. destruct Hin as [<-|[]]. cbn in Htrim. congruence.
  - apply Hcore. intros name _. cbn [entry_of]. tauto.
  - destruct t; cbn [negb]; (split; [discriminate|]); intros [name [_ [_ []]]].
Qed.

Lemma isOnOfficeWiFi_returns e : returns (isOnOfficeWiFi execSync re e).
Proof.
  destruct getCurrentWiFiSSID_returns as [cur Hcur].
  unfold isOnOfficeWiFi.
  destruct (falsy e); [eexists; reflexivity|].
  match goal with |- returns (match ?o with _ => _ end) => destruct o as [names|] end;
    [|eexists; reflexivity].
  destruct (List.length names =? 0)%nat; [eexists; reflexivity|].
  rewrite Hcur. cbn [bind].
  destruct (negb (JS.truthy_opt cur)); [eexists; reflexivity|].
  destruct cur; eexists; reflexivity.
Qed.

End Facts.

(** ** Splitting and trimming, against their descriptions *)

Lemma append_nil_right (s : string) : (s ++ "")%string = s.
Proof. induction s as [|c s IH]; cbn; [reflexivity|]. rewrite IH. reflexivity. Qed.

Lemma append_associative (a b c : string) :
  ((a ++ b) ++ c)%string = (a ++ b ++ c)%string.
Proof. induction a as [|x a IH]; cbn; [reflexivity|]. rewrite IH. reflexivity. Qed.

Lemma length_append (a b : string) :
  String.length (a ++ b) = (String.length a + String.length b)%nat.
Proof. induction a as [|x a IH]; cbn; [reflexivity|]. rewrite IH. reflexivity. Qed.

Lemma is_space_white c : JS.is_space c = true <-> white c.
Proof.
  unfold JS.is_space, white. cbn [In].
  rewrite !orb_true_iff, andb_true_iff, !Nat.leb_le, !Nat.eqb_eq. lia.
Qed.

Lemma is_space_not_white c : JS.is_space c = false <-> ~ white c.
Proof.
  rewrite <- is_space_white. destruct (JS.is_space c); split; congruence.
Qed.

Lemma blank_nil : blank "".
Proof. intros pre c post H. destruct pre; discriminate. Qed.

Lemma blank_cons c s : blank (String c s) <-> white c /\ blank s.
Proof.
  split.
  - intros H. split.
    + apply (H ""%string c s). reflexivity.
    + intros pre c' post ->. apply (H (String c pre) c' post). reflexivity.
  - intros [Hc Hs] pre c' post H. destruct pre as [|x pre]; cbn in H.
    + injection H as -> _. exact Hc.
    + injection H as _ H. exact (Hs _ _ _ H).
Qed.

Lemma comma_free_nil : comma_free "".
Proof. intros pre post H. destruct pre; discriminate. Qed.

Lemma comma_free_cons c p :
  comma_free (String c p) <-> c <> ","%char /\ comma_free p.
Proof.
  split.
  - intros H. split.
    + intros ->. apply (H ""%string p). reflexivity.
    + intros pre post ->. apply (H (String c pre) post). reflexivity.
  - intros [Hc Hp] pre post H. destruct pre as [|x pre]; cbn in H.
    + injection H as -> _. congruence.
    + injection H as _ H. exact (Hp _ _ H).
Qed.

Lemma after_comma_cons c b :
  after_comma (String c b) ->
  (c = ","%char /\ b = ""%string) \/ (b <> ""%string /\ after_comma b).
Proof.
  intros [H|[x H]]; [discriminate|].
  destruct x as [|y x]; cbn in H; injection H as -> ->.
  - left. auto.
  - right. split; [destruct x; discriminate|]. right. exists x. reflexivity.
Qed.

Lemma after_comma_extend h b :
  after_comma b -> after_comma (h ++ String "," b).
Proof.
  intros [->|[x ->]]; right.
  - exists h. reflexivity.
  - exists (h ++ String "," x)%string. rewrite append_associative. reflexivity.
Qed.

(** The first piece of the split is the text up to the first comma, and
    the other pieces are the split of what follows that comma. *)
Lemma split_head s :
  exists h t,
    JS.split "," s = h :: t /\ comma_free h /\
    ((s = h /\ t = []) \/
     exists a, s = (h ++ String "," a)%string /\ t = JS.split "," a).
Proof.
  induction s as [|c rest (h & t & Hs & Hf & Hcase)].
  - exists ""%string, []. split; [reflexivity|]. split; [apply comma_free_nil|].
    left. auto.
  - cbn [JS.split]. destruct (Ascii.eqb_spec c ",") as [->|Hc].
    + exists ""%string, (JS.split "," rest). split; [reflexivity|].
      split; [apply comma_free_nil|]. right. exists rest. auto.
    + rewrite Hs. exists (String c h), t. split; [reflexivity|].
      split; [apply comma_free_cons; auto|].
      destruct Hcase as [[-> ->]|[a [-> ->]]]; [left; auto|right; exists a; auto].
Qed.

(** A piece of a text without comma is the whole text. *)
Lemma piece_of_comma_free h before piece after :
  comma_free h ->
  h = (before ++ piece ++ after)%string -> after_comma before -> before_comma after ->
  piece = h.
Proof.
  intros Hf -> [->|[b ->]] Ha.
  - destruct Ha as [->|[a ->]].
    + cbn. rewrite append_nil_right. reflexivity.
    + exfalso. exact (Hf piece a eq_refl).
  - exfalso. apply (Hf b (piece ++ after)%string).
    rewrite append_associative. reflexivity.
Qed.

(** A piece of a text that starts with a comma-free part and a comma is
    that part, or a piece of what follows the comma. *)
Lemma piece_after_head h a after : forall piece before,
  comma_free h -> comma_free piece ->
  (h ++ String "," a)%string = (before ++ piece ++ after)%string ->
  after_comma before -> before_comma after ->
  (before = ""%string /\ piece = h) \/
  (exists b,
     before = (h ++ String "," b)%string /\
     a = (b ++ piece ++ after)%string /\ after_comma b).
Proof.
  induction h as [|c h IH]; intros piece before Hh Hp E Hb Ha.
  - cbn in E. destruct before as [|x before]; cbn in E.
    + left. split; [reflexivity|].
      destruct piece as [|y piece]; [reflexivity|].
      cbn in E. injection E as <- _.
      apply comma_free_cons in Hp. destruct Hp as [Hp _]. congruence.
    + injection E as <- E. right. exists before.
      split; [reflexivity|]. split; [exact E|].
      apply after_comma_cons in Hb. destruct Hb as [[_ ->]|[_ Hb]];
        [left; reflexivity|exact Hb].
  - apply comma_free_cons in Hh. destruct Hh as [Hc Hh].
    cbn in E. destruct before as [|x before]; cbn in E.
    + destruct piece as [|y piece]; cbn in E.
      * destruct Ha as [->|[a' ->]]; [discriminate|].
        injection E as E _. congruence.
      * injection E as <- E. apply comma_free_cons in Hp. destruct Hp as [_ Hp].
        destruct (IH piece ""%string Hh Hp E (or_introl eq_refl) Ha)
          as [[_ ->]|[b [Eb _]]].
        -- left. auto.
        -- destruct h; discriminate.
    + injection E as <- E.
      apply after_comma_cons in Hb. destruct Hb as [[Hx _]|[Hne Hb]]; [congruence|].
      destruct (IH piece before Hh Hp E Hb Ha) as [[-> _]|[b [-> [Eb Hbb]]]];
        [congruence|].
      right. exists b. auto.
Qed.

Lemma split_pieces_bounded n : forall s piece,
  (String.length s <= n)%nat ->
  (In piece (JS.split "," s) <-> comma_piece s piece).
Proof.
  induction n as [|n IH]; intros s piece Hn.
  - destruct s; [|cbn in Hn; lia]. cbn. split.
    + intros [<-|[]]. split; [apply comma_free_nil|].
      exists ""%string, ""%string. repeat split; left; reflexivity.
    + intros [Hf (before & after & E & Hb & Ha)]. left.
      symmetry. exact (piece_of_comma_free _ _ _ _ comma_free_nil E Hb Ha).
  - destruct (split_head s) as (h & t & Hs & Hf & Hcase). rewrite Hs.
    destruct Hcase as [[-> ->]|[a [-> ->]]].
    + split.
      * intros [<-|[]]. split; [exact Hf|].
        exists ""%string, ""%string. cbn. rewrite append_nil_right.
        repeat split; left; reflexivity.
      * intros [Hp (before & after & E & Hb & Ha)]. left.
        symmetry. exact (piece_of_comma_free _ _ _ _ Hf E Hb Ha).
    + assert (Ha : (String.length a <= n)%nat).
      { rewrite length_append in Hn. cbn in Hn. lia. }
      cbn [In]. rewrite (IH a piece Ha). split.
      * intros [<-|[Hp (before & after & -> & Hb & Haf)]].
        -- split; [exact Hf|]. exists ""%string, (String "," a).
           split; [reflexivity|]. split; [left; reflexivity|right; exists a; reflexivity].
        -- split; [exact Hp|]. exists (h ++ String "," before)%string, after.
           split; [rewrite append_associative; reflexivity|].
           split; [apply after_comma_extend; exact Hb|exact Haf].
      * intros [Hp (before & after & E & Hb & Haf)].
        destruct (piece_after_head h a after piece before Hf Hp E Hb Haf)
          as [[_ ->]|[b [_ [Eb Hbb]]]].
        -- left. reflexivity.
        -- right. split; [exact Hp|]. exists b, after. auto.
Qed.

(** [s.split(',')] gives exactly the pieces of [s] between its commas. *)
Lemma split_pieces s piece : In piece (JS.split "," s) <-> comma_piece s piece.
Proof. apply (split_pieces_bounded (String.length s)). lia. Qed.

Lemma trimStart_lead s :
  exists lead, s = (lead ++ JS.trimStart s)%string /\ blank lead.
Proof.
  induction s as [|c s (lead & E & Hl)].
  - exists ""%string. split; [reflexivity|apply blank_nil].
  - cbn [JS.trimStart]. destruct (JS.is_space c) eqn:Hc.
    + exists (String c lead). split; [cbn; rewrite <- E; reflexivity|].
      apply blank_cons. split; [apply is_space_white; exact Hc|exact Hl].
    + exists ""%string. split; [reflexivity|apply blank_nil].
Qed.

Lemma trimStart_starts s c rest : JS.trimStart s = String c rest -> ~ white c.
Proof.
  induction s as [|x s IH]; cbn [JS.trimStart]; [discriminate|].
  destruct (JS.is_space x) eqn:Hx; [exact IH|].
  intros H. injection H as <- _. apply is_space_not_white. exact Hx.
Qed.

Lemma trimStart_blank_app lead s :
  blank lead -> JS.trimStart (lead ++ s) = JS.trimStart s.
Proof.
  induction lead as [|c lead IH]; intros H; [reflexivity|].
  apply blank_cons in H. destruct H as [Hc H]. apply is_space_white in Hc.
  cbn [append JS.trimStart]. rewrite Hc. exact (IH H).
Qed.

Lemma trimEnd_trail s :
  exists trail, s = (JS.trimEnd s ++ trail)%string /\ blank trail.
Proof.
  induction s as [|c s (trail & E & Ht)].
  - exists ""%string. split; [reflexivity|apply blank_nil].
  - cbn [JS.trimEnd]. destruct (JS.trimEnd s) as [|y r] eqn:Hs.
    + cbn in E. destruct (JS.is_space c) eqn:Hc.
      * exists (String c trail). split; [cbn; rewrite <- E; reflexivity|].
        apply blank_cons. split; [apply is_space_white; exact Hc|exact Ht].
      * exists trail. split; [cbn; rewrite <- E; reflexivity|exact Ht].
    + exists trail. split; [|exact Ht].
      cbn [append] in E |- *. rewrite <- E. reflexivity.
Qed.

Lemma trimEnd_ends s : forall body c,
  JS.trimEnd s = (body ++ String c "")%string -> ~ white c.
Proof.
  induction s as [|x s IH]; intros body c; cbn [JS.trimEnd].
  - destruct body; discriminate.
  - destruct (JS.trimEnd s) as [|y r] eqn:Hs.
    + destruct (JS.is_space x) eqn:Hx; [destruct body; discriminate|].
      intros H. destruct body as [|z body]; cbn in H.
      * injection H as <-. apply is_space_not_white. exact Hx.
      * injection H as _ H. destruct body; discriminate.
    + intros H. destruct body as [|z body]; cbn in H; [discriminate|].
      injection H as _ H. exact (IH body c H).
Qed.

Lemma trimEnd_blank trail : blank trail -> JS.trimEnd trail = ""%string.
Proof.
  induction trail as [|c trail IH]; intros H; [reflexivity|].
  apply blank_cons in H. destruct H as [Hc H]. apply is_space_white in Hc.
  cbn [JS.trimEnd]. rewrite (IH H), Hc. reflexivity.
Qed.

Lemma trimEnd_blank_app s trail :
  blank trail -> JS.trimEnd (s ++ trail) = JS.trimEnd s.
Proof.
  intros H. induction s as [|c s IH]; [exact (trimEnd_blank trail H)|].
  cbn [append JS.trimEnd]. rewrite IH. reflexivity.
Qed.

Lemma trimEnd_fixed name :
  (forall body c, name = (body ++ String c "")%string -> ~ white c) ->
  JS.trimEnd name = name.
Proof.
  induction name as [|x name IH]; intros H; [reflexivity|].
  cbn [JS.trimEnd]. rewrite IH.
  - destruct name as [|y name]; [|reflexivity].
    assert (Hx : ~ white x) by (apply (H ""%string x); reflexivity).
    apply is_space_not_white in Hx. rewrite Hx. reflexivity.
  - intros body c ->. apply (H (String x body) c). reflexivity.
Qed.

(** [piece.trim()] is [piece] without the white space at its two ends. *)
Lemma trim_stripped piece name : JS.trim piece = name <-> stripped piece name.
Proof.
  unfold JS.trim. split.
  - intros <-.
    destruct (trimStart_lead piece) as (lead & El & Hl).
    destruct (trimEnd_trail (JS.trimStart piece)) as (trail & Et & Ht).
    exists lead, trail. split; [rewrite <- Et; exact El|].
    split; [exact Hl|]. split; [exact Ht|]. split.
    + intros c rest Hc. rewrite Hc in Et. cbn in Et.
      exact (trimStart_starts _ _ _ Et).
    + intros body c Hc. exact (trimEnd_ends _ _ _ Hc).
  - intros (lead & trail & -> & Hl & Ht & Hs & He).
    rewrite (trimStart_blank_app lead _ Hl).
    destruct name as [|c rest].
    + cbn [append].
      rewrite <- (append_nil_right trail), (trimStart_blank_app trail ""%string Ht).
      reflexivity.
    + cbn [append JS.trimStart].
      assert (Hc : JS.is_space c = false)
        by (apply is_space_not_white; exact (Hs c rest eq_refl)).
      rewrite Hc.
      change (String c (rest ++ trail)) with (String c rest ++ trail)%string.
      rewrite (trimEnd_blank_app _ _ Ht). exact (trimEnd_fixed _ He).
Qed.

(** The entries the code compares with are the listed names. *)
Lemma entry_of_listed e name : entry_of e name <-> listed e name.
Proof.
  destruct e as [|s|names|t]; cbn [entry_of listed]; try tauto.
  split; intros (piece & Hp & Hn); exists piece.
  - split; [apply split_pieces; exact Hp|apply trim_stripped; exact Hn].
  - split; [apply split_pieces; exact Hp|apply trim_stripped; exact Hn].
Qed.

(** ** The claim about the Wi-Fi gate *)

(** C5, amended. Whatever the commands of the host answer and whatever
    value is passed as the expected networks, [isOnOfficeWiFi] returns a
    boolean and never throws; it returns [true] exactly when detection
    yields a (non-empty) network name that the expected value lists:
    for a string, the name is what is left of one of the pieces between
    its commas once the white space at the two ends of the piece is cut
    off; for an array, the name is one of the entries as it is given
    (array entries are neither split nor trimmed). Hence it returns
    [false] when detection is inconclusive and when the expected value
    is absent, empty or of another type. *)
Theorem C5_isOnOfficeWiFi_exact_membership
  (execSync : string -> outcome string) (re : Regex) (e : expected) :
  (exists b, isOnOfficeWiFi execSync re e = Ok b) /\
  (exists detected, getCurrentWiFiSSID execSync re = Ok detected) /\
  (isOnOfficeWiFi execSync re e = Ok true <->
   exists name,
     getCurrentWiFiSSID execSync re = Ok (Some name) /\
     name <> EmptyString /\ listed e name) /\
  ((forall detected, getCurrentWiFiSSID execSync re = Ok detected ->
                     ~ conclusive detected) ->
   isOnOfficeWiFi execSync re e = Ok false) /\
  (e = Absent \/ e = Str EmptyString \/ (exists t, e = Other t) ->
   isOnOfficeWiFi execSync re e = Ok false).
Proof.
  pose proof (isOnOfficeWiFi_returns execSync re e) as [b Hb].
  assert (Hiff : isOnOfficeWiFi execSync re e = Ok true <->
            exists name,
              getCurrentWiFiSSID execSync re = Ok (Some name) /\
              name <> EmptyString /\ listed e name).
  { rewrite (isOnOfficeWiFi_true_iff execSync re e).
    split; intros [name [Hd [Hne He]]]; exists name;
      (split; [exact Hd|]; split; [exact Hne|]; apply entry_of_listed; exact He). }
  split; [exists b; exact Hb|].
  split; [apply getCurrentWiFiSSID_returns|].
  split; [exact Hiff|].
  split.
  - intros Hinc. destruct b; [|exact Hb].
    apply Hiff in Hb. destruct Hb as [name [E [Hne _]]].
    exfalso. apply (Hinc _ E). exists name. auto.
  - intros Hbad. destruct b; [|exact Hb].
    apply Hiff in Hb. destruct Hb as [name [_ [Hne He]]].
    apply entry_of_listed in He.
    destruct Hbad as [-> | [-> | [t ->]]]; cbn in He; try contradiction.
    destruct He as [piece [[<-|[]] Ht]]. cbn in Ht. congruence.
Qed.

(** C5, as stated, fails for arrays: the statement takes the expected
    set of every input, arrays included, to be split at the commas and
    trimmed, while the script compares the detected name with the
    entries of an array as they are. On a host that reports "iScale_M",
    an array whose entry is padded, or holds two names and a comma,
    lists the name in the sense of the statement and is refused. *)
Lemma C5_counterexample :
  getCurrentWiFiSSID (sample_exec "iScale_M") sample_re = Ok (Some "iScale_M"%string) /\
  spec_expected_set (Arr [" iScale_M "%string]) "iScale_M" /\
  isOnOfficeWiFi (sample_exec "iScale_M") sample_re (Arr [" iScale_M "%string]) = Ok false /\
  spec_expected_set (Arr ["Guest,iScale_M"%string]) "iScale_M" /\
  isOnOfficeWiFi (sample_exec "iScale_M") sample_re (Arr ["Guest,iScale_M"%string]) = Ok false.
Proof.
  split; [reflexivity|]. split; [|split; [reflexivity|split; [|reflexivity]]].
  - exists " iScale_M "%string, " iScale_M "%string.
    split; [left; reflexivity|].
    split; [apply split_pieces; left; reflexivity|apply trim_stripped; reflexivity].
  - exists "Guest,iScale_M"%string, "iScale_M"%string.
    split; [left; reflexivity|].
    split; [apply split_pieces; right; left; reflexivity
           |apply trim_stripped; reflexivity].
Qed.

(** The same names given as one string are accepted: the string is
    split at its commas and its pieces are trimmed. *)
Lemma C5_witness :
  listed (Str "iScale Solutions_5G, iScale_M ,Maytronics Au/Us") "iScale_M" /\
  isOnOfficeWiFi (sample_exec "iScale_M") sample_re
    (Str "iScale Solutions_5G, iScale_M ,Maytronics Au/Us") = Ok true.
Proof.
  assert (H : listed (Str "iScale Solutions_5G, iScale_M ,Maytronics Au/Us") "iScale_M").
  { exists " iScale_M "%string.
    split; [apply split_pieces; right; left; reflexivity
           |apply trim_stripped; reflexivity]. }
  split; [exact H|].
  apply (proj1 (proj2 (proj2 (C5_isOnOfficeWiFi_exact_membership
                                (sample_exec "iScale_M") sample_re
                                (Str "iScale Solutions_5G, iScale_M ,Maytronics Au/Us"))))).
  exists "iScale_M"%string. split; [reflexivity|]. split; [discriminate|exact H].
Defined.

(** On a host that reports the network "iScale_M": the comma-separated
    list is split and trimmed, names are compared exactly, and array
    entries are compared as they are. *)
Example isOnOfficeWiFi_samples :
  isOnOfficeWiFi (sample_exec "iScale_M") sample_re
    (Str "iScale Solutions_5G, iScale_M ,Maytronics Au/Us") = Ok true /\
  isOnOfficeWiFi (sample_exec "iScale_M") sample_re (Str "iScale_M2,iScale") = Ok false /\
  isOnOfficeWiFi (sample_exec "iScale_M") sample_re (Arr ["Guest"; "iScale_M"]) = Ok true /\
  isOnOfficeWiFi (sample_exec "iScale_M") sample_re (Arr [" iScale_M "]) = Ok false /\
  isOnOfficeWiFi (sample_exec "iScale_M") sample_re Absent = Ok false /\
  isOnOfficeWiFi (sample_exec "iScale_M") sample_re (Other true) = Ok false /\
  isOnOfficeWiFi dead_exec sample_re (Str "iScale_M") = Ok false /\
  getCurrentWiFiSSID dead_exec sample_re = Ok None.
Proof. repeat split; reflexivity. Qed.

End WiFiFacts.

(** * Properties of the polling scheduler *)

Module MonitorFacts.
Import Monitor.
Local Open Scope list_scope.

Lemma count_app {A} (p : A -> bool) (l1 l2 : list A) :
  count p (l1 ++ l2) = (count p l1 + count p l2)%nat.
Proof. unfold count. rewrite filter_app, length_app. reflexivity. Qed.

Lemma shouldRunCheckin_eq now st :
  shouldRunCheckin now st = (Ret (due CheckIn now st), after_check CheckIn now st, []).
Proof.
  unfold shouldRunCheckin, after_check, due.
  cbn [schedule marker hour minute CHECKIN_TIME].
  destruct (Z_includes WEEKDAYS (getDay now)); [|reflexivity].
  destruct ((getHours now =? 6)%Z && (getMinutes now =? 0)%Z); [|reflexivity].
  unfold bind, get, put, ret. cbn [negb andb app].
  destruct (differs (lastCheckinDate st) (toDateString now)); reflexivity.
Qed.

Lemma shouldRunCheckout_eq now st :
  shouldRunCheckout now st = (Ret (due CheckOut now st), after_check CheckOut now st, []).
Proof.
  unfold shouldRunCheckout, after_check, due.
  cbn [schedule marker hour minute CHECKOUT_TIME].
  destruct (Z_includes WEEKDAYS (getDay now)); [|reflexivity].
  destruct ((getHours now =? 13)%Z && (getMinutes now =? 45)%Z); [|reflexivity].
  unfold bind, get, put, ret. cbn [negb andb app].
  destruct (differs (lastCheckoutDate st) (toDateString now)); reflexivity.
Qed.

(** The callback in closed form. *)
Lemma tick_eq now nowIn nowOut st :
  let st1 := after_check CheckIn nowIn st in
  let st2 := after_check CheckOut nowOut st1 in
  tick now nowIn nowOut st =
    (Ret tt,
     (if midnight now then reset else st2),
     ((if due CheckIn nowIn st then firing CheckIn st1 else []) ++
      (if due CheckOut nowOut st1 then firing CheckOut st2 else []) ++
      (if midnight now
       then [(reset, Log INFO "Daily reset - Ready for new check-in/check-out")]
       else []))%list).
Proof.
  intros st1 st2. unfold tick. unfold bind at 1. rewrite shouldRunCheckin_eq.
  fold st1. unfold bind at 1.
  assert (Hw : forall t s, when true (log (detected t) INFO ;;; runCheckinScript) s
                           = (Ret tt, s, firing t s)) by reflexivity.
  assert (Hn : forall m s, when false m s = (Ret tt, s, [])) by reflexivity.
  change checkin_detected with (detected CheckIn).
  change checkout_detected with (detected CheckOut).
  unfold midnight.
  destruct (due CheckIn nowIn st).
  - rewrite Hw. unfold bind at 1. rewrite shouldRunCheckout_eq. fold st2.
    unfold bind at 1.
    destruct (due CheckOut nowOut st1).
    + rewrite Hw. destruct ((getHours now =? 0)%Z && (getMinutes now =? 0)%Z); reflexivity.
    + rewrite Hn. destruct ((getHours now =? 0)%Z && (getMinutes now =? 0)%Z); reflexivity.
  - rewrite Hn. unfold bind at 1. rewrite shouldRunCheckout_eq. fold st2.
    unfold bind at 1.
    destruct (due CheckOut nowOut st1).
    + rewrite Hw. destruct ((getHours now =? 0)%Z && (getMinutes now =? 0)%Z); reflexivity.
    + rewrite Hn. destruct ((getHours now =? 0)%Z && (getMinutes now =? 0)%Z); reflexivity.
Qed.

Lemma loop_cons i rest st :
  loop (i :: rest) st =
    match handle i st with
    | (Ret _, st1, t1) =>
        match loop rest st1 with
        | (r, st2, t2) => (r, st2, (t1 ++ t2)%list)
        end
    | (Exited c, st1, t1) => (Exited c, st1, t1)
    end.
Proof. reflexivity. Qed.

Lemma fired_firing t t' st :
  fired t (firing t' st) = match t, t' with
                           | CheckIn, CheckIn | CheckOut, CheckOut => 1%nat
                           | _, _ => 0%nat
                           end.
Proof. destruct t, t'; reflexivity. Qed.

Lemma marker_after_check t t' r st :
  marker t (after_check t' r st) =
    match t, t' with
    | CheckIn, CheckIn | CheckOut, CheckOut =>
        if due t' r st then Some (toDateString r) else marker t st
    | _, _ => marker t st
    end.
Proof.
  unfold after_check. destruct t, t'; destruct (due _ r st); reflexivity.
Qed.

Lemma due_after_other r r' st :
  due CheckOut r (after_check CheckIn r' st) = due CheckOut r st.
Proof.
  unfold due. rewrite (marker_after_check CheckOut CheckIn). reflexivity.
Qed.

Lemma fired_app t l1 l2 : fired t (l1 ++ l2) = (fired t l1 + fired t l2)%nat.
Proof. apply count_app. Qed.

Lemma spawned_app l1 l2 : spawned (l1 ++ l2) = (spawned l1 + spawned l2)%nat.
Proof. apply count_app. Qed.

(** How many times a target fires in one run of the callback. *)
Lemma fired_tick t now nowIn nowOut st :
  fired t (effects (tick now nowIn nowOut st)) =
    if due t (reading_for t nowIn nowOut) st then 1%nat else 0%nat.
Proof.
  pose proof (tick_eq now nowIn nowOut st) as E. cbv zeta in E. rewrite E.
  unfold effects. cbn [snd]. rewrite due_after_other, !fired_app.
  destruct t; cbn [reading_for];
    destruct (due CheckIn nowIn st), (due CheckOut nowOut st), (midnight now);
    rewrite ?fired_firing; reflexivity.
Qed.

Lemma spawned_tick now nowIn nowOut st :
  spawned (effects (tick now nowIn nowOut st)) =
    (fired CheckIn (effects (tick now nowIn nowOut st)) +
     fired CheckOut (effects (tick now nowIn nowOut st)))%nat.
Proof.
  rewrite !fired_tick. cbn [reading_for].
  pose proof (tick_eq now nowIn nowOut st) as E. cbv zeta in E. rewrite E.
  unfold effects, spawned. cbn [snd]. rewrite due_after_other, !count_app.
  destruct (due CheckIn nowIn st), (due CheckOut nowOut st), (midnight now);
    reflexivity.
Qed.

Lemma final_state_tick now nowIn nowOut st :
  final_state (tick now nowIn nowOut st) =
    if midnight now then reset
    else after_check CheckOut nowOut (after_check CheckIn nowIn st).
Proof.
  pose proof (tick_eq now nowIn nowOut st) as E. cbv zeta in E. rewrite E.
  reflexivity.
Qed.

Lemma result_tick now nowIn nowOut st :
  result (tick now nowIn nowOut st) = Ret tt.
Proof.
  pose proof (tick_eq now nowIn nowOut st) as E. cbv zeta in E. rewrite E.
  reflexivity.
Qed.

(** The trace of the loop, one input at a time. *)
Lemma effects_loop_tick now nowIn nowOut rest st :
  effects (loop (Tick now nowIn nowOut :: rest) st) =
    (effects (tick now nowIn nowOut st) ++
     effects (loop rest (final_state (tick now nowIn nowOut st))))%list.
Proof.
  rewrite loop_cons. cbn [handle].
  pose proof (result_tick now nowIn nowOut st) as R.
  unfold result, effects, final_state in *.
  destruct (tick now nowIn nowOut st) as [[r s1] t1]. cbn [fst snd] in *. subst r.
  destruct (loop rest s1) as [[r2 s2] t2]. reflexivity.
Qed.

Lemma effects_loop_child_error message rest st :
  effects (loop (ChildError message :: rest) st) =
    ((st, Log ERROR ("Error running script: " ++ message)%string) :: effects (loop rest st)).
Proof.
  rewrite loop_cons. cbn. unfold effects.
  destruct (loop rest st) as [[r2 s2] t2]. reflexivity.
Qed.

Lemma on_child_exit_eq code st :
  exists lvl msg, on_child_exit code st = (Ret tt, st, [(st, Log lvl msg)]).
Proof.
  destruct code as [[| |]|]; do 2 eexists; reflexivity.
Qed.

Lemma effects_loop_child_exit code rest st :
  exists lvl msg,
    effects (loop (ChildExit code :: rest) st) =
      ((st, Log lvl msg) :: effects (loop rest st)) /\
    (lvl = ERROR \/ msg = "Check-in/check-out script completed successfully").
Proof.
  rewrite loop_cons. cbn [handle]. unfold effects.
  destruct (loop rest st) as [[r2 s2] t2] eqn:E.
  destruct code as [[| |]|]; cbn; rewrite E; do 2 eexists; split;
    try reflexivity; auto.
Qed.

Lemma effects_loop_signal rest st :
  effects (loop (Signal :: rest) st) = [(st, Log INFO "Shutting down monitor...")].
Proof. reflexivity. Qed.

Lemma due_marked t r st :
  marker t st = Some (toDateString r) -> due t r st = false.
Proof.
  unfold due, differs. intros ->. cbn [JS.strict_eq].
  rewrite String.eqb_refl. apply andb_false_r.
Qed.

Lemma due_true t r st :
  due t r st = true ->
  In (getDay r) WEEKDAYS /\
  getHours r = hour (schedule t) /\ getMinutes r = minute (schedule t) /\
  marker t st <> Some (toDateString r).
Proof.
  unfold due. rewrite !andb_true_iff. intros [[Hd [Hh Hm]] Hx].
  apply Z.eqb_eq in Hh. apply Z.eqb_eq in Hm.
  repeat split; auto.
  - unfold Z_includes in Hd. apply existsb_exists in Hd.
    destruct Hd as [x [Hin Hx']]. apply Z.eqb_eq in Hx'. subst x. exact Hin.
  - intros E. unfold differs in Hx. rewrite E in Hx. cbn in Hx.
    rewrite String.eqb_refl in Hx. discriminate.
Qed.

Lemma due_of_matches t r st :
  matches t r -> marker t st <> Some (toDateString r) -> due t r st = true.
Proof.
  intros [Hd [Hh Hm]] Hx. unfold due. rewrite Hh, Hm, !Z.eqb_refl.
  rewrite !andb_true_r.
  apply andb_true_iff. split.
  - unfold Z_includes. apply existsb_exists. exists (getDay r). split; auto.
    apply Z.eqb_refl.
  - unfold differs. destruct (marker t st) as [m|]; cbn; auto.
    destruct (String.eqb_spec m (toDateString r)); auto. congruence.
Qed.

Lemma schedule_minute_pos t :
  (1 < 60 * hour (schedule t) + minute (schedule t))%Z.
Proof. destruct t; reflexivity. Qed.

Lemma midnight_minute now : midnight now = true -> minute_of_day now = 0%Z.
Proof.
  unfold midnight, minute_of_day. rewrite andb_true_iff.
  intros [Hh Hm]. apply Z.eqb_eq in Hh. apply Z.eqb_eq in Hm. lia.
Qed.

Lemma not_midnight now : minute_of_day now <> 0%Z -> midnight now = false.
Proof.
  intros H. destruct (midnight now) eqn:E; auto.
  apply midnight_minute in E. contradiction.
Qed.

(** Once a target is marked for day [d], it stays quiet for as long as
    the clock shows day [d] and no reset happens. *)
Lemma quiet_once_marked t d ins : forall st,
  marker t st = Some d ->
  Forall (fun r => toDateString r = d /\ minute_of_day r <> 0%Z)
         (flat_map readings ins) ->
  fired t (effects (loop ins st)) = 0%nat.
Proof.
  induction ins as [|i rest IH]; intros st Hm Hr; [reflexivity|].
  destruct i as [now nowIn nowOut|message|code|].
  - cbn [flat_map readings app] in Hr.
    inversion Hr as [|? ? [Hd0 Hn0] Hr1]; subst.
    inversion Hr1 as [|? ? [Hd1 Hn1] Hr2]; subst.
    inversion Hr2 as [|? ? [Hd2 Hn2] Hr3]; subst.
    rewrite effects_loop_tick, fired_app, fired_tick.
    rewrite due_marked by (destruct t; cbn [reading_for]; congruence).
    cbn [Nat.add]. apply IH; [|assumption].
    rewrite final_state_tick, (not_midnight _ Hn0).
    destruct t; rewrite !marker_after_check.
    + rewrite (due_marked CheckIn) by (cbn [marker] in *; congruence). assumption.
    + rewrite due_after_other.
      rewrite (due_marked CheckOut) by (cbn [marker] in *; congruence). assumption.
  - rewrite effects_loop_child_error.
    change (?x :: ?l) with ([x] ++ l). rewrite fired_app.
    rewrite IH by assumption. destruct t; reflexivity.
  - destruct (effects_loop_child_exit code rest st) as [lvl [msg [E Hl]]].
    rewrite E. change (?x :: ?l) with ([x] ++ l). rewrite fired_app.
    rewrite IH by assumption.
    destruct Hl as [-> | ->]; [destruct t; reflexivity|].
    destruct lvl, t; reflexivity.
  - rewrite effects_loop_signal. destruct t; reflexivity.
Qed.

Lemma chronological_tick now nowIn nowOut rest :
  chronological (Tick now nowIn nowOut :: rest) ->
  (minute_of_day now <= minute_of_day nowIn)%Z /\
  (minute_of_day nowIn <= minute_of_day nowOut)%Z /\
  Forall (fun r => (minute_of_day nowOut <= minute_of_day r)%Z)
         (flat_map readings rest) /\
  chronological rest.
Proof.
  unfold chronological. cbn [flat_map readings app map]. intros H.
  inversion H as [|? ? H1 F0]; subst.
  inversion H1 as [|? ? H2 F1]; subst.
  inversion H2 as [|? ? H3 F2]; subst.
  inversion F0; subst. inversion F1; subst.
  repeat split; auto.
  rewrite Forall_forall in *. intros r Hr. apply F2.
  apply in_map. exact Hr.
Qed.

Lemma same_day_tick d now nowIn nowOut rest :
  same_day d (Tick now nowIn nowOut :: rest) ->
  toDateString now = d /\ toDateString nowIn = d /\ toDateString nowOut = d /\
  same_day d rest.
Proof.
  unfold same_day. cbn [flat_map readings app]. intros H.
  inversion H as [|? ? E0 H1]; subst. inversion H1 as [|? ? E1 H2]; subst.
  inversion H2 as [|? ? E2 H3]; subst. auto.
Qed.

(** The heart of the at-most-once argument, for any mix of inputs. *)
Lemma fired_at_most_once t d ins : forall st,
  same_day d ins -> chronological ins -> Forall brief ins ->
  (fired t (effects (loop ins st)) <= 1)%nat.
Proof.
  induction ins as [|i rest IH]; intros st Hd Hc Hb; [cbn; lia|].
  inversion Hb as [|? ? Hbi Hbrest]; subst.
  destruct i as [now nowIn nowOut|message|code|].
  - apply chronological_tick in Hc. destruct Hc as [L01 [L12 [Frest Hc]]].
    apply same_day_tick in Hd. destruct Hd as [D0 [D1 [D2 Hd]]].
    cbn [brief] in Hbi.
    rewrite effects_loop_tick, fired_app, fired_tick.
    destruct (due t (reading_for t nowIn nowOut) st) eqn:Hdue.
    + rewrite (quiet_once_marked t d); [cbn; lia| |].
      * pose proof (due_true _ _ _ Hdue) as [_ [Hh [Hm _]]].
        pose proof (schedule_minute_pos t) as Hpos.
        assert (Hn0 : minute_of_day now <> 0%Z).
        { destruct t; cbn [reading_for] in *; unfold minute_of_day in *;
            rewrite Hh, Hm in *; lia. }
        rewrite final_state_tick, (not_midnight _ Hn0).
        destruct t; rewrite !marker_after_check; cbn [reading_for] in *.
        -- rewrite Hdue. congruence.
        -- rewrite due_after_other, Hdue. congruence.
      * pose proof (due_true _ _ _ Hdue) as [_ [Hh [Hm _]]].
        pose proof (schedule_minute_pos t) as Hpos.
        unfold same_day in Hd.
        rewrite Forall_forall in *. intros r Hr. split; [auto|].
        specialize (Frest r Hr).
        destruct t; cbn [reading_for] in *; unfold minute_of_day in *;
          rewrite Hh, Hm in *; lia.
    + cbn [Nat.add]. apply IH; assumption.
  - rewrite effects_loop_child_error.
    change (?x :: ?l) with ([x] ++ l). rewrite fired_app.
    assert (E : fired t [(st, Log ERROR ("Error running script: " ++ message)%string)] = 0%nat)
      by (destruct t; reflexivity).
    rewrite E. apply IH; auto.
  - destruct (effects_loop_child_exit code rest st) as [lvl [msg [E Hl]]].
    rewrite E. change (?x :: ?l) with ([x] ++ l). rewrite fired_app.
    assert (E0 : fired t [(st, Log lvl msg)] = 0%nat).
    { destruct Hl as [-> | ->]; [destruct t; reflexivity|].
      destruct lvl, t; reflexivity. }
    rewrite E0. apply IH; auto.
  - rewrite effects_loop_signal. destruct t; cbn; lia.
Qed.

(** Every spawn belongs to exactly one firing. *)
Lemma spawned_loop ins : forall st,
  spawned (effects (loop ins st)) =
    (fired CheckIn (effects (loop ins st)) + fired CheckOut (effects (loop ins st)))%nat.
Proof.
  induction ins as [|i rest IH]; intros st; [reflexivity|].
  destruct i as [now nowIn nowOut|message|code|].
  - rewrite effects_loop_tick, spawned_app, !fired_app, spawned_tick, IH. lia.
  - rewrite effects_loop_child_error.
    change (?x :: ?l) with ([x] ++ l). rewrite spawned_app, !fired_app, IH.
    reflexivity.
  - destruct (effects_loop_child_exit code rest st) as [lvl [msg [E Hl]]].
    rewrite E. change (?x :: ?l) with ([x] ++ l).
    rewrite spawned_app, !fired_app, IH.
    destruct Hl as [-> | ->]; [reflexivity|]. destruct lvl; reflexivity.
  - rewrite effects_loop_signal. reflexivity.
Qed.

Lemma result_loop ins : forall st,
  existsb is_signal ins = false -> result (loop ins st) = Ret tt.
Proof.
  induction ins as [|i rest IH]; intros st Hs; [reflexivity|].
  cbn [existsb] in Hs. apply orb_false_iff in Hs. destruct Hs as [Hi Hs].
  rewrite loop_cons.
  destruct i as [now nowIn nowOut|message|code|]; cbn [handle]; [| | |discriminate].
  - pose proof (result_tick now nowIn nowOut st) as R. unfold result in *.
    destruct (tick now nowIn nowOut st) as [[r s1] t1]. cbn [fst] in R. subst r.
    specialize (IH s1 Hs). destruct (loop rest s1) as [[r2 s2] t2]. exact IH.
  - cbn. specialize (IH st Hs). unfold result in *.
    destruct (loop rest st) as [[r2 s2] t2]. exact IH.
  - destruct (on_child_exit_eq code st) as [lvl [msg E]]. rewrite E.
    specialize (IH st Hs). unfold result in *.
    destruct (loop rest st) as [[r2 s2] t2]. exact IH.
Qed.

Lemma blocks_tick d now nowIn nowOut st :
  toDateString nowIn = d -> toDateString nowOut = d ->
  exists bs, effects (tick now nowIn nowOut st) = concat bs /\ Forall (block d) bs.
Proof.
  intros D1 D2.
  pose proof (tick_eq now nowIn nowOut st) as E. cbv zeta in E. rewrite E.
  unfold effects. cbn [snd].
  set (st1 := after_check CheckIn nowIn st).
  set (st2 := after_check CheckOut nowOut st1).
  assert (M1 : due CheckIn nowIn st = true -> marker CheckIn st1 = Some d).
  { intros H. unfold st1. rewrite marker_after_check, H. congruence. }
  assert (M2 : due CheckOut nowOut st1 = true -> marker CheckOut st2 = Some d).
  { intros H. unfold st2. rewrite marker_after_check, H. congruence. }
  exists ((if due CheckIn nowIn st then [firing CheckIn st1] else []) ++
          (if due CheckOut nowOut st1 then [firing CheckOut st2] else []) ++
          (if midnight now
           then [[(reset, Log INFO "Daily reset - Ready for new check-in/check-out")]]
           else [])).
  split.
  - destruct (due CheckIn nowIn st), (due CheckOut nowOut st1), (midnight now);
      reflexivity.
  - apply Forall_app; split; [|apply Forall_app; split].
    + destruct (due CheckIn nowIn st); constructor; [|constructor].
      apply block_firing. auto.
    + destruct (due CheckOut nowOut st1); constructor; [|constructor].
      apply block_firing. auto.
    + destruct (midnight now); constructor; [|constructor].
      apply block_log.
Qed.

Lemma blocks_loop d ins : forall st,
  same_day d ins ->
  exists bs, effects (loop ins st) = concat bs /\ Forall (block d) bs.
Proof.
  induction ins as [|i rest IH]; intros st Hd.
  - exists []. split; [reflexivity|constructor].
  - destruct i as [now nowIn nowOut|message|code|].
    + apply same_day_tick in Hd. destruct Hd as [D0 [D1 [D2 Hd]]].
      destruct (blocks_tick d now nowIn nowOut st D1 D2) as [b1 [E1 F1]].
      destruct (IH (final_state (tick now nowIn nowOut st)) Hd) as [b2 [E2 F2]].
      exists (b1 ++ b2). rewrite effects_loop_tick, E1, E2, concat_app.
      split; [reflexivity|]. apply Forall_app. auto.
    + destruct (IH st Hd) as [b2 [E2 F2]].
      exists ([(st, Log ERROR ("Error running script: " ++ message)%string)] :: b2).
      rewrite effects_loop_child_error, E2. split; [reflexivity|].
      constructor; [constructor|assumption].
    + destruct (IH st Hd) as [b2 [E2 F2]].
      destruct (effects_loop_child_exit code rest st) as [lvl [msg [E _]]].
      exists ([(st, Log lvl msg)] :: b2). rewrite E, E2.
      split; [reflexivity|]. constructor; [constructor|assumption].
    + exists [[(st, Log INFO "Shutting down monitor...")]].
      rewrite effects_loop_signal. split; [reflexivity|].
      repeat constructor.
Qed.

(** ** The claims about the scheduler *)

(** C2. Over any run of ticks that all read the same calendar day, with a
    clock that does not run backwards and callbacks that take at most a
    minute, each target (check-in, check-out) fires at most once, however
    many ticks satisfy its (hour, minute, weekday) condition; and every
    spawned flow belongs to one such firing. *)
Theorem C2_fires_at_most_once_per_day
  (d : string) (ticks : list (Date * Date * Date)) (st : state) :
  same_day d (tick_inputs ticks) ->
  chronological (tick_inputs ticks) ->
  Forall brief (tick_inputs ticks) ->
  let tr := effects (loop (tick_inputs ticks) st) in
  (fired CheckIn tr <= 1)%nat /\ (fired CheckOut tr <= 1)%nat /\
  spawned tr = (fired CheckIn tr + fired CheckOut tr)%nat.
Proof.
  intros Hd Hc Hb tr. unfold tr.
  split; [|split].
  - apply (fired_at_most_once CheckIn d); assumption.
  - apply (fired_at_most_once CheckOut d); assumption.
  - apply spawned_loop.
Qed.

(** C3. A tick whose reading for a target matches the target's schedule,
    taken while the target's marker does not hold the date of that reading
    (it holds the date of a previous day, or nothing after the midnight
    reset), fires the target: the flow is spawned, exactly once, with the
    marker already moved to the new date. *)
Theorem C3_fires_again_on_a_later_day
  (t : target) (st : state) (now nowIn nowOut : Date) :
  marker t st <> Some (toDateString (reading_for t nowIn nowOut)) ->
  matches t (reading_for t nowIn nowOut) ->
  let tr := effects (tick now nowIn nowOut st) in
  fired t tr = 1%nat /\
  exists pre post s,
    tr = pre ++ firing t s ++ post /\
    marker t s = Some (toDateString (reading_for t nowIn nowOut)).
Proof.
  intros Hm Hmatch tr. unfold tr in *.
  pose proof (due_of_matches t _ st Hmatch Hm) as Hdue.
  split; [rewrite fired_tick, Hdue; reflexivity|].
  pose proof (tick_eq now nowIn nowOut st) as E. cbv zeta in E. rewrite E.
  unfold effects. cbn [snd].
  destruct t; cbn [reading_for] in *.
  - rewrite Hdue.
    exists [], ((if due CheckOut nowOut (after_check CheckIn nowIn st)
                 then firing CheckOut
                        (after_check CheckOut nowOut (after_check CheckIn nowIn st))
                 else []) ++
                (if midnight now
                 then [(reset, Log INFO "Daily reset - Ready for new check-in/check-out")]
                 else [])), (after_check CheckIn nowIn st).
    split; [reflexivity|]. rewrite marker_after_check, Hdue. reflexivity.
  - rewrite due_after_other, Hdue.
    exists (if due CheckIn nowIn st
            then firing CheckIn (after_check CheckIn nowIn st) else []),
           (if midnight now
            then [(reset, Log INFO "Daily reset - Ready for new check-in/check-out")]
            else []),
           (after_check CheckOut nowOut (after_check CheckIn nowIn st)).
    split; [reflexivity|].
    rewrite marker_after_check, due_after_other, Hdue. reflexivity.
Qed.

(** C10. Over any run of the event loop on one calendar day (ticks mixed
    with the error and exit events of the spawned children): every spawn
    sits in a firing performed with the target's marker already recorded;
    the handlers of a child's error or exit leave the markers alone and only
    log (a non-zero or missing exit code at level ERROR), and the loop keeps
    running; and no target fires a second time that day, whatever became
    of its child. *)
Theorem C10_marker_first_and_no_retry
  (d : string) (ins : list input) (st : state) :
  same_day d ins -> chronological ins -> Forall brief ins ->
  let out := loop ins st in
  (exists bs, effects out = concat bs /\ Forall (block d) bs) /\
  (forall s message,
     on_child_error message s =
       (Ret tt, s, [(s, Log ERROR ("Error running script: " ++ message)%string)])) /\
  (forall s code,
     exists lvl msg,
       on_child_exit code s = (Ret tt, s, [(s, Log lvl msg)]) /\
       (code <> Some 0%Z -> lvl = ERROR)) /\
  (existsb is_signal ins = false -> result out = Ret tt) /\
  (forall t, (fired t (effects out) <= 1)%nat).
Proof.
  intros Hd Hc Hb out. unfold out.
  split; [apply blocks_loop; assumption|].
  split; [reflexivity|].
  split.
  { intros s code.
    destruct code as [[| |]|]; do 2 eexists; (split; [reflexivity|]);
      intros H; try reflexivity; congruence. }
  split; [apply result_loop|].
  intros t. apply (fired_at_most_once t d); assumption.
Qed.

Ltac clock_facts :=
  unfold same_day, chronological, tick_inputs; cbn;
  repeat constructor; unfold minute_of_day; cbn; lia.

Lemma C2_witness :
  same_day "Tue Nov 03 2026" (tick_inputs two_matching_ticks) /\
  chronological (tick_inputs two_matching_ticks) /\
  Forall brief (tick_inputs two_matching_ticks) /\
  let tr := effects (loop (tick_inputs two_matching_ticks) initial) in
  (fired CheckIn tr <= 1)%nat /\ (fired CheckOut tr <= 1)%nat /\
  spawned tr = (fired CheckIn tr + fired CheckOut tr)%nat.
Proof.
  assert (H1 : same_day "Tue Nov 03 2026" (tick_inputs two_matching_ticks))
    by (unfold same_day; cbn; repeat constructor).
  assert (H2 : chronological (tick_inputs two_matching_ticks)) by clock_facts.
  assert (H3 : Forall brief (tick_inputs two_matching_ticks)) by clock_facts.
  split; [exact H1|]. split; [exact H2|]. split; [exact H3|].
  exact (C2_fires_at_most_once_per_day
           "Tue Nov 03 2026" two_matching_ticks initial H1 H2 H3).
Defined.

(** The scenario of the specification: two ticks that both read 06:00 on
    the same weekday give exactly one spawn. *)
Example two_matching_ticks_one_spawn :
  spawned (effects (monitor (tick_inputs two_matching_ticks))) = 1%nat /\
  fired CheckIn (effects (monitor (tick_inputs two_matching_ticks))) = 1%nat.
Proof. split; reflexivity. Qed.

(** The two assumptions on the clock are needed: the midnight reset
    clears the markers whenever the callback's own reading is 00:00, so a
    clock set back to midnight, or a callback that stalls from midnight
    until 06:00, lets the target fire a second time. *)
Example midnight_reset_reopens_the_day :
  fired CheckIn (effects (loop (tick_inputs clock_set_back) initial)) = 2%nat /\
  fired CheckIn (effects (loop (tick_inputs stalled_callback) initial)) = 2%nat.
Proof. split; reflexivity. Qed.

Lemma C3_witness :
  marker CheckIn marked_on_monday <> Some (toDateString tue_0600) /\
  matches CheckIn tue_0600 /\
  let tr := effects (tick tue_0600 tue_0600 tue_0600 marked_on_monday) in
  fired CheckIn tr = 1%nat /\
  exists pre post s,
    tr = pre ++ firing CheckIn s ++ post /\
    marker CheckIn s = Some (toDateString tue_0600).
Proof.
  assert (H1 : marker CheckIn marked_on_monday <> Some (toDateString tue_0600))
    by (cbn; discriminate).
  assert (H2 : matches CheckIn tue_0600)
    by (unfold matches; cbn; repeat split; auto).
  split; [exact H1|]. split; [exact H2|].
  exact (C3_fires_again_on_a_later_day
           CheckIn marked_on_monday tue_0600 tue_0600 tue_0600 H1 H2).
Defined.

Lemma C10_witness :
  same_day "Tue Nov 03 2026" day_with_failed_child /\
  chronological day_with_failed_child /\
  Forall brief day_with_failed_child /\
  forall t, (fired t (effects (loop day_with_failed_child initial)) <= 1)%nat.
Proof.
  assert (H1 : same_day "Tue Nov 03 2026" day_with_failed_child)
    by (unfold same_day; cbn; repeat constructor).
  assert (H2 : chronological day_with_failed_child) by clock_facts.
  assert (H3 : Forall brief day_with_failed_child) by clock_facts.
  split; [exact H1|]. split; [exact H2|]. split; [exact H3|].
  exact (proj2 (proj2 (proj2 (proj2
           (C10_marker_first_and_no_retry
              "Tue Nov 03 2026" day_with_failed_child initial H1 H2 H3))))).
Defined.

(** On that day both targets fire once, the failed child notwithstanding,
    and the loop is still running at the end. *)
Example day_with_failed_child_run :
  fired CheckIn (effects (loop day_with_failed_child initial)) = 1%nat /\
  fired CheckOut (effects (loop day_with_failed_child initial)) = 1%nat /\
  spawned (effects (loop day_with_failed_child initial)) = 2%nat /\
  result (loop day_with_failed_child initial) = Ret tt.
Proof. repeat split; reflexivity. Qed.

End MonitorFacts.

(** * Properties of the browser flow *)

Module CheckinFacts.
Import Checkin.
Local Open Scope list_scope.

(** *** [includes] is the substring relation *)

Lemma prefix_iff sub s :
  String.prefix sub s = true <-> exists post, s = (sub ++ post)%string.
Proof.
  revert s. induction sub as [|c sub IH]; intros s.
  - cbn. split; [intros _; exists s; reflexivity|destruct s; reflexivity].
  - destruct s as [|d s]; cbn [String.prefix].
    + split; [discriminate|]. intros [post H]. discriminate.
    + destruct (Ascii.ascii_dec c d) as [->|Hne].
      * rewrite IH. split; intros [post H]; exists post.
        -- cbn. rewrite H. reflexivity.
        -- cbn in H. injection H as H. exact H.
      * split; [discriminate|]. intros [post H]. cbn in H. injection H as H _.
        congruence.
Qed.

Lemma includes_iff s sub : JS.includes s sub = true <-> Substring sub s.
Proof.
  unfold Substring. induction s as [|c s IH].
  - cbn [JS.includes]. rewrite orb_false_r, prefix_iff. split.
    + intros [post H]. exists EmptyString, post. exact H.
    + intros [pre [post H]]. destruct pre; [exists post; exact H|discriminate].
  - cbn [JS.includes]. rewrite orb_true_iff, prefix_iff, IH. split.
    + intros [[post H]|[pre [post H]]].
      * exists EmptyString, post. exact H.
      * exists (String c pre), post. cbn. rewrite H. reflexivity.
    + intros [pre [post H]]. destruct pre as [|d pre].
      * left. exists post. exact H.
      * right. cbn in H. injection H as _ H. exists pre, post. exact H.
Qed.

Lemma includes_false_iff s sub : JS.includes s sub = false <-> ~ Substring sub s.
Proof.
  rewrite <- includes_iff. destruct (JS.includes s sub); split; congruence.
Qed.

Section Facts.

Context {World Handle : Type}.
Variable E : Engine World Handle.
Variable env : Env.

Local Abbreviation M := (@M World Handle).

(** *** Running a sequence *)

Lemma bind_Ok {A B} (m : M A) (f : A -> M B) s a s1 t1 :
  m s = (Ok a, s1, t1) ->
  bind m f s = (let '(r, s2, t2) := f a s1 in (r, s2, t1 ++ t2)).
Proof. intros H. unfold bind. rewrite H. destruct (f a s1) as [[r s2] t2]. reflexivity. Qed.

Lemma bind_assoc {A B C} (m : M A) (f : A -> M B) (g : B -> M C) s :
  bind (bind m f) g s = bind m (fun a => bind (f a) g) s.
Proof.
  unfold bind. destruct (m s) as [[[a|e|c] s1] t1]; try reflexivity.
  destruct (f a s1) as [[[b|e|c] s2] t2]; try reflexivity.
  destruct (g b s2) as [[r s3] t3]. rewrite app_assoc. reflexivity.
Qed.

Lemma act_Fulfilled a s :
  fst (perform E a (world s)) = Fulfilled tt ->
  act E a s = (Ok tt, with_world s (snd (perform E a (world s))), [Act a]).
Proof.
  unfold act. destruct (perform E a (world s)) as [o w]. cbn. intros ->. reflexivity.
Qed.

(** ** The claims about the browser flow *)

(** C4. When the account identifier is absent (the variable is not set,
    or is empty), the run logs the configuration error and exits with
    code 1; the trace holds that log line and nothing else: no action of
    the engine, hence no browser launch and no navigation, precedes the
    exit. *)
Theorem C4_no_email_exits_before_any_action (w : World) :
  env_ZOHO_EMAIL env = None \/ env_ZOHO_EMAIL env = Some EmptyString ->
  run E env w =
    (Exit 1, start w,
     [Logged ERROR "Zoho email not configured. Please set ZOHO_EMAIL environment variable."]) /\
  existsb is_act (trace_of (run E env w)) = false.
Proof.
  intros H.
  assert (Hr : run E env w =
    (Exit 1, start w,
     [Logged ERROR "Zoho email not configured. Please set ZOHO_EMAIL environment variable."])).
  { unfold run, main, performZohoCheckin, steps, arrive, validate.
    unfold try_catch, try_finally, bind, when, ZOHO_EMAIL.
    destruct H as [-> | ->]; reflexivity. }
  split; [exact Hr|]. rewrite Hr. reflexivity.
Qed.

Lemma bind_ext {A B} (m : M A) (f g : A -> M B) s :
  (forall a s1, f a s1 = g a s1) -> bind m f s = bind m g s.
Proof.
  intros H. unfold bind. destruct (m s) as [[[a|e|c] s1] t1]; try reflexivity.
  rewrite H. reflexivity.
Qed.

Lemma steps_split s :
  steps E env s = bind (reach_action_page E env) (fun _ => resolve_action E env) s.
Proof.
  unfold steps, reach_action_page.
  rewrite (bind_assoc (arrive E env)).
  apply bind_ext. intros _ s1. symmetry. apply bind_assoc.
Qed.

Lemma on_login_page_false url :
  ~ login_marker url ->
  JS.includes url "signin" = false /\ JS.includes url "login" = false.
Proof.
  unfold login_marker. intros H. split; apply includes_false_iff; tauto.
Qed.

Lemma login_if_needed_skips s :
  ~ login_marker (page_url E (world s)) ->
  login_if_needed E env s =
    (Ok tt, s,
     [Logged INFO ("Current URL: " ++ page_url E (world s))%string;
      Logged INFO "Already logged in using saved session"]).
Proof.
  intros H. apply on_login_page_false in H. destruct H as [H1 H2].
  unfold login_if_needed, bind, read, log. cbn [fst snd app].
  rewrite H1, H2. reflexivity.
Qed.

(** C7. When the address of the landing page carries no login marker
    ("signin", "login"), step 5 changes nothing and performs nothing: its
    whole trace is the two log lines "Current URL" and "Already logged
    in"; neither login handler runs (no fill, no scan for the OAuth
    control, no wait, no navigation), and the run goes on with step 6 and
    the Action Resolver from the very state in which the page was
    reached. *)
Theorem C7_authenticated_session_skips_login (s0 s : St) (tr0 : list (event Handle)) :
  arrive E env s0 = (Ok tt, s, tr0) ->
  ~ login_marker (page_url E (world s)) ->
  login_if_needed E env s =
    (Ok tt, s,
     [Logged INFO ("Current URL: " ++ page_url E (world s))%string;
      Logged INFO "Already logged in using saved session"]) /\
  steps E env s0 =
    (let '(r, s', tr) :=
       bind (open_action_page E env) (fun _ => resolve_action E env) s in
     (r, s',
      tr0 ++
      [Logged INFO ("Current URL: " ++ page_url E (world s))%string;
       Logged INFO "Already logged in using saved session"] ++ tr)).
Proof.
  intros Harr Hurl.
  pose proof (login_if_needed_skips s Hurl) as Hskip.
  split; [exact Hskip|].
  unfold steps. rewrite (bind_Ok _ _ _ _ _ _ Harr).
  rewrite (bind_Ok _ _ _ _ _ _ Hskip).
  destruct (bind (open_action_page E env) (fun _ => resolve_action E env) s)
    as [[r s'] tr].
  reflexivity.
Qed.

(** *** The action loop when nothing visible matches *)

Definition untouched (tr : list (event Handle)) : Prop :=
  Forall (fun e => touches e = false) tr.

Lemma or_else_act a s :
  or_else (act E a) tt s = (Ok tt, with_world s (snd (perform E a (world s))), [Act a]).
Proof.
  unfold or_else, try_catch, act, ret.
  destruct (perform E a (world s)) as [[[]|e] w]; reflexivity.
Qed.

Lemma or_else_ask {A} (query : World -> outcome A) (fallback : A) s :
  or_else (ask query : M A) fallback s =
    (Ok (match query (world s) with
         | Fulfilled a => a
         | Rejected _ => fallback
         end), s, []).
Proof.
  unfold or_else, try_catch, ask, ret.
  destruct (query (world s)); reflexivity.
Qed.

Lemma ask_eq {A} (query : World -> outcome A) s :
  (ask query : M A) s =
    match query (world s) with
    | Fulfilled a => (Ok a, s, [])
    | Rejected e => (Throw e, s, [])
    end.
Proof. reflexivity. Qed.

Lemma try_action_selector_no_match selector s :
  visible_match E (snd (perform E (WaitForSelector selector 10000) (world s))) selector = None ->
  exists tr,
    try_action_selector E selector s =
      (Ok false, with_world s (snd (perform E (WaitForSelector selector 10000) (world s))), tr) /\
    untouched tr.
Proof.
  set (w1 := snd (perform E (WaitForSelector selector 10000) (world s))).
  unfold visible_match. intros Hv.
  unfold try_action_selector, try_catch.
  rewrite (bind_Ok _ _ _ _ _ _ (or_else_act _ s)). fold w1.
  unfold bind at 1. rewrite ask_eq. cbn [world with_world].
  destruct (page_query E w1 selector) as [[h|]|e1].
  - unfold bind at 1. rewrite or_else_ask. cbn [world with_world].
    destruct (isVisible E w1 h) as [[|]|e2]; [discriminate| |];
      (eexists; split; [reflexivity|repeat constructor]).
  - eexists; split; [reflexivity|repeat constructor].
  - eexists; split; [reflexivity|repeat constructor].
Qed.

Lemma action_loop_no_match_waited selectors : forall s,
  none_visible E selectors (world s) ->
  exists tr,
    action_loop E selectors s = (Ok tt, with_world s (waited E selectors (world s)), tr) /\
    untouched tr.
Proof.
  induction selectors as [|selector rest IH]; intros s H.
  - exists []. split; [destruct s; reflexivity|constructor].
  - cbn [none_visible] in H. destruct H as [Hsel Hrest].
    destruct (try_action_selector_no_match selector s Hsel) as [t1 [E1 U1]].
    set (w1 := snd (perform E (WaitForSelector selector 10000) (world s))) in *.
    destruct (IH (with_world s w1) Hrest) as [t2 [E2 U2]].
    exists (t1 ++ t2). cbn [action_loop waited].
    rewrite (bind_Ok _ _ _ _ _ _ E1), E2. split; [reflexivity|].
    apply Forall_app. split; assumption.
Qed.

Lemma action_loop_no_match selectors s :
  none_visible E selectors (world s) ->
  exists w' tr,
    action_loop E selectors s = (Ok tt, with_world s w', tr) /\ untouched tr.
Proof.
  intros H. destruct (action_loop_no_match_waited selectors s H) as [tr [E1 U]].
  exists (waited E selectors (world s)), tr. auto.
Qed.

Lemma announce_selectors_eq s :
  exists banner,
    (announce_selectors env : M unit) s =
      (Ok tt, mkSt (world s) (browser s) false "unknown" (googleButtonFound s),
       [Logged INFO "Looking for check-in/check-out button..."; Logged INFO banner]).
Proof.
  unfold announce_selectors.
  destruct (custom (env_CHECKIN_SELECTORS env)); eexists; reflexivity.
Qed.

Lemma report_not_performed s :
  actionPerformed s = false ->
  captures_succeed E ->
  exists w' stamp,
    report E s =
      (Ok tt, with_world s w',
       [Logged ERROR "Could not find check-in/check-out button. Taking screenshot for debugging...";
        Act (Screenshot "logs/checkin-not-found.png");
        Logged INFO "Screenshot saved to logs/checkin-not-found.png";
        Act (Screenshot ("logs/zoho-checkin-" ++ stamp ++ ".png")%string);
        Logged INFO ("Screenshot saved to logs/zoho-checkin-" ++ stamp ++ ".png")%string;
        Logged INFO "Zoho check-in automation completed successfully"]).
Proof.
  intros Hp [Hshot _].
  unfold report, bind, get, read, log, act. rewrite Hp. cbn [negb fst snd app].
  pose proof (Hshot "logs/checkin-not-found.png" (world s)) as H1.
  destruct (perform E (Screenshot "logs/checkin-not-found.png") (world s)) as [o1 w1].
  cbn [fst] in H1. subst o1. cbn [world with_world fst snd app].
  set (stamp := dashes (toISOString E w1)).
  pose proof (Hshot ("logs/zoho-checkin-" ++ stamp ++ ".png")%string w1) as H2.
  destruct (perform E (Screenshot ("logs/zoho-checkin-" ++ stamp ++ ".png")%string) w1)
    as [o2 w2].
  cbn [fst] in H2. subst o2. cbn [world with_world fst snd app].
  exists w2, stamp. reflexivity.
Qed.

Lemma cleanup_eq s :
  captures_succeed E ->
  exists w',
    cleanup E s =
      (Ok tt, with_world s w',
       if browser s then [Act BrowserClose; Logged INFO "Browser closed"] else []).
Proof.
  intros [_ Hclose]. unfold cleanup, bind, get, when, act, log, ret.
  cbn [fst snd app]. destruct (browser s) eqn:B.
  - pose proof (Hclose (world s)) as H.
    destruct (perform E BrowserClose (world s)) as [o w']. cbn [fst] in H. subst o.
    exists w'. reflexivity.
  - exists (world s). destruct s; cbn in *. subst. reflexivity.
Qed.

(** C8. Suppose the run reaches the Action Resolver, no selector of the
    action list yields a visible match when the loop tries it, and the
    screenshots (and the closing of the browser) are not rejected. Then
    the loop touches no element, the failure is logged at level ERROR and
    the diagnostic screenshot [logs/checkin-not-found.png] is taken, no
    error is raised, the final screenshot follows, and the run exits with
    code 0. *)
Theorem C8_no_match_is_recorded_not_raised
  (w0 : World) (s : St) (tr0 : list (event Handle)) :
  reach_action_page E env (start w0) = (Ok tt, s, tr0) ->
  none_visible E (actionSelectors env) (world s) ->
  captures_succeed E ->
  exists scan stamp final,
    run E env w0 =
      (Exit 0, final,
       tr0 ++ scan ++
       [Logged ERROR "Could not find check-in/check-out button. Taking screenshot for debugging...";
        Act (Screenshot "logs/checkin-not-found.png");
        Logged INFO "Screenshot saved to logs/checkin-not-found.png";
        Act (Screenshot ("logs/zoho-checkin-" ++ stamp ++ ".png")%string);
        Logged INFO ("Screenshot saved to logs/zoho-checkin-" ++ stamp ++ ".png")%string;
        Logged INFO "Zoho check-in automation completed successfully"] ++
       (if browser s then [Act BrowserClose; Logged INFO "Browser closed"] else []) ++
       [Logged INFO "Script execution completed"]) /\
    untouched scan /\ actionPerformed final = false.
Proof.
  intros Hreach Hnone Hcap.
  destruct (announce_selectors_eq s) as [banner Hann].
  set (s1 := mkSt (world s) (browser s) false "unknown" (googleButtonFound s)) in *.
  destruct (action_loop_no_match (actionSelectors env) s1 Hnone) as [w2 [scan [Hloop Hscan]]].
  destruct (report_not_performed (with_world s1 w2) eq_refl Hcap) as [w3 [stamp Hrep]].
  destruct (cleanup_eq (with_world (with_world s1 w2) w3) Hcap) as [w4 Hclean].
  set (s3 := with_world (with_world s1 w2) w3) in *.
  assert (Hres : resolve_action E env s =
            (Ok tt, s3,
             ([Logged INFO "Looking for check-in/check-out button..."; Logged INFO banner]
              ++ scan) ++
             [Logged ERROR "Could not find check-in/check-out button. Taking screenshot for debugging...";
              Act (Screenshot "logs/checkin-not-found.png");
              Logged INFO "Screenshot saved to logs/checkin-not-found.png";
              Act (Screenshot ("logs/zoho-checkin-" ++ stamp ++ ".png")%string);
              Logged INFO ("Screenshot saved to logs/zoho-checkin-" ++ stamp ++ ".png")%string;
              Logged INFO "Zoho check-in automation completed successfully"])).
  { unfold resolve_action.
    rewrite (bind_Ok _ _ _ _ _ _ Hann), (bind_Ok _ _ _ _ _ _ Hloop), Hrep.
    rewrite app_assoc. reflexivity. }
  assert (Hsteps : steps E env (start w0) =
            (Ok tt, s3,
             tr0 ++
             ([Logged INFO "Looking for check-in/check-out button..."; Logged INFO banner]
              ++ scan) ++
             [Logged ERROR "Could not find check-in/check-out button. Taking screenshot for debugging...";
              Act (Screenshot "logs/checkin-not-found.png");
              Logged INFO "Screenshot saved to logs/checkin-not-found.png";
              Act (Screenshot ("logs/zoho-checkin-" ++ stamp ++ ".png")%string);
              Logged INFO ("Screenshot saved to logs/zoho-checkin-" ++ stamp ++ ".png")%string;
              Logged INFO "Zoho check-in automation completed successfully"])).
  { rewrite steps_split, (bind_Ok _ _ _ _ _ _ Hreach), Hres. reflexivity. }
  exists ([Logged INFO "Looking for check-in/check-out button..."; Logged INFO banner] ++ scan),
         stamp, (with_world s3 w4).
  split; [|split].
  - unfold run, main, performZohoCheckin.
    unfold try_catch at 1. unfold bind at 1. unfold try_finally.
    unfold try_catch at 1. rewrite Hsteps, Hclean.
    assert (Hb : browser s3 = browser s) by reflexivity. rewrite Hb.
    unfold bind, log, process_exit. cbn [fst snd].
    rewrite <- !app_assoc. reflexivity.
  - constructor; [reflexivity|]. constructor; [reflexivity|]. exact Hscan.
  - reflexivity.
Qed.

(** *** The action loop on a visible match *)

Lemma classify_labelled buttonText label :
  exists type,
    classify buttonText (Some label) = Fulfilled type /\
    (type = "check-in"%string \/ type = "check-out"%string).
Proof.
  unfold classify.
  destruct (JS.includes (JS.toLowerCase buttonText) "check-in"); [eauto|].
  destruct (JS.includes (JS.toLowerCase label) "check-in"); [eauto|].
  destruct (JS.includes (JS.toLowerCase buttonText) "check-out" ||
            JS.includes (JS.toLowerCase label) "check-out"); [eauto|].
  destruct (JS.includes (JS.toLowerCase buttonText) "out"); eauto.
Qed.

(** Symbolic execution of the script, one statement at a time. *)

Lemma after_pair {A} (t : list (event Handle)) (r : res A) (s : @St World) t2 :
  after t (r, s, t2) = (r, s, t ++ t2).
Proof. reflexivity. Qed.

Lemma run_ret {A B} (a : A) (f : A -> M B) s : bind (ret a) f s = f a s.
Proof. unfold bind, ret. destruct (f a s) as [[r s2] t2]. reflexivity. Qed.

Lemma run_log {B} msg lvl (f : unit -> M B) s :
  bind (log msg lvl) f s = after [Logged lvl msg] (f tt s).
Proof. unfold bind, log, after. destruct (f tt s) as [[r s2] t2]. reflexivity. Qed.

Lemma run_act {B} a (f : unit -> M B) s :
  fst (perform E a (world s)) = Fulfilled tt ->
  bind (act E a) f s = after [Act a] (f tt (with_world s (snd (perform E a (world s))))).
Proof.
  intros H. rewrite (bind_Ok _ _ _ _ _ _ (act_Fulfilled a s H)). unfold after.
  destruct (f tt _) as [[r s2] t2]. reflexivity.
Qed.

Lemma run_or_else_act {B} a (f : unit -> M B) s :
  bind (or_else (act E a) tt) f s =
    after [Act a] (f tt (with_world s (snd (perform E a (world s))))).
Proof.
  rewrite (bind_Ok _ _ _ _ _ _ (or_else_act a s)). unfold after.
  destruct (f tt _) as [[r s2] t2]. reflexivity.
Qed.

Lemma run_or_else_ask {A B} (query : World -> outcome A) fallback (f : A -> M B) s :
  bind (or_else (ask query) fallback) f s =
    f (match query (world s) with Fulfilled a => a | Rejected _ => fallback end) s.
Proof.
  rewrite (bind_Ok _ _ _ _ _ _ (or_else_ask query fallback s)).
  destruct (f _ s) as [[r s2] t2]. reflexivity.
Qed.

Lemma run_ask {A B} (query : World -> outcome A) (f : A -> M B) s a :
  query (world s) = Fulfilled a -> bind (ask query) f s = f a s.
Proof.
  intros H. unfold bind, ask. rewrite H. destruct (f a s) as [[r s2] t2]. reflexivity.
Qed.

Lemma run_lift {A B} (o : outcome A) (f : A -> M B) s a :
  o = Fulfilled a -> bind (lift o) f s = f a s.
Proof. intros ->. apply run_ret. Qed.

Lemma run_set_actionType {B} t (f : unit -> M B) s :
  bind (set_actionType t) f s =
    f tt (mkSt (world s) (browser s) (actionPerformed s) t (googleButtonFound s)).
Proof. unfold bind, set_actionType. destruct (f tt _) as [[r s2] t2]. reflexivity. Qed.

Lemma run_set_actionPerformed {B} b (f : unit -> M B) s :
  bind (set_actionPerformed b) f s =
    f tt (mkSt (world s) (browser s) b (actionType s) (googleButtonFound s)).
Proof. unfold bind, set_actionPerformed. destruct (f tt _) as [[r s2] t2]. reflexivity. Qed.

Lemma try_catch_Ok {A} (body : M A) handler s a s1 t1 :
  body s = (Ok a, s1, t1) -> try_catch body handler s = (Ok a, s1, t1).
Proof. intros H. unfold try_catch. rewrite H. reflexivity. Qed.

Lemma try_action_selector_match selector s h label :
  actions_succeed E ->
  visible_match E (snd (perform E (WaitForSelector selector 10000) (world s))) selector = Some h ->
  label_read E (snd (perform E (WaitForSelector selector 10000) (world s))) h = Some label ->
  exists type s' newText,
    classify (text_read E (snd (perform E (WaitForSelector selector 10000) (world s))) h)
             (Some label) = Fulfilled type /\
    try_action_selector E selector s =
      (Ok true, s',
       [Act (WaitForSelector selector 10000);
        Logged INFO ("Found " ++ type ++ " button. Button text: " ++
                     q (text_read E (snd (perform E (WaitForSelector selector 10000) (world s))) h) ++
                     ", Aria-label: " ++ q label)%string;
        Act (ScrollIntoViewIfNeeded h);
        Act (WaitForTimeout 500);
        Act (Click h);
        Logged INFO (type ++ " performed using selector: " ++ selector)%string;
        Act (WaitForTimeout 3000);
        Act (WaitForTimeout 2000);
        Logged INFO ("Button text after action: " ++ q newText)%string]) /\
    actionType s' = type /\ actionPerformed s' = true.
Proof.
  intros Hact.
  set (w1 := snd (perform E (WaitForSelector selector 10000) (world s))).
  unfold visible_match. intros Hv Hl.
  destruct (page_query E w1 selector) as [[h'|]|] eqn:Q; try discriminate.
  destruct (isVisible E w1 h') as [[|]|] eqn:V; try discriminate.
  injection Hv as ->.
  destruct (classify_labelled (text_read E w1 h) label) as [type [Hc _]].
  exists type. unfold try_action_selector.
  eexists. eexists. split; [exact Hc|].
  split; [apply try_catch_Ok|].
  - rewrite run_or_else_act. fold w1.
    rewrite (run_ask _ _ _ (Some h)) by exact Q.
    rewrite run_or_else_ask. cbn [world with_world]. rewrite V.
    rewrite run_or_else_ask. cbn [world with_world]. fold (text_read E w1 h).
    rewrite run_or_else_ask. cbn [world with_world]. fold (label_read E w1 h).
    rewrite Hl. rewrite (run_lift _ _ _ type) by exact Hc.
    rewrite run_set_actionType, run_log. unfold click_and_settle.
    rewrite run_act by apply Hact. rewrite run_act by apply Hact.
    rewrite run_act by apply Hact.
    rewrite run_set_actionPerformed, run_log.
    rewrite run_act by apply Hact. rewrite run_act by apply Hact.
    rewrite run_or_else_ask, run_log.
    unfold ret. rewrite !after_pair. reflexivity.
  - split; reflexivity.
Qed.


(** *** What a turn does after the classification *)

Lemma keeps_type_after T t (x : res bool * @St World * list (event Handle)) :
  keeps_type T x -> keeps_type T (after t x).
Proof. destruct x as [[r s'] t2]. exact (fun H => H). Qed.

Lemma keeps_type_act T a (f : unit -> M bool) s :
  (forall w, keeps_type T (f tt (with_world s w))) ->
  actionType s = T ->
  keeps_type T (bind (act E a) f s).
Proof.
  intros Hf Hs. unfold bind, act.
  destruct (perform E a (world s)) as [[[]|e] w].
  - specialize (Hf w). destruct (f tt (with_world s w)) as [[r s2] t2]. exact Hf.
  - split; [exact Hs|]. right. exists e. reflexivity.
Qed.

Lemma click_and_settle_keeps button type selector s :
  keeps_type (actionType s) (click_and_settle E button type selector s).
Proof.
  unfold click_and_settle.
  apply keeps_type_act; [intros w1|reflexivity].
  apply keeps_type_act; [intros w2|reflexivity].
  apply keeps_type_act; [intros w3|reflexivity].
  rewrite run_set_actionPerformed, run_log. apply keeps_type_after.
  apply keeps_type_act; [intros w4|reflexivity].
  apply keeps_type_act; [intros w5|reflexivity].
  rewrite run_or_else_ask, run_log. apply keeps_type_after.
  split; [reflexivity|]. left. reflexivity.
Qed.

(** A turn on a visible, labelled match always classifies the control:
    the class is logged and stored, whatever happens to the click. *)
Lemma try_action_selector_classifies selector s h label :
  visible_match E (snd (perform E (WaitForSelector selector 10000) (world s))) selector = Some h ->
  label_read E (snd (perform E (WaitForSelector selector 10000) (world s))) h = Some label ->
  exists type stop s' tr,
    classify (text_read E (snd (perform E (WaitForSelector selector 10000) (world s))) h)
             (Some label) = Fulfilled type /\
    try_action_selector E selector s = (Ok stop, s', tr) /\
    actionType s' = type /\
    In (Logged INFO ("Found " ++ type ++ " button. Button text: " ++
                     q (text_read E (snd (perform E (WaitForSelector selector 10000) (world s))) h) ++
                     ", Aria-label: " ++ q label)%string) tr.
Proof.
  set (w1 := snd (perform E (WaitForSelector selector 10000) (world s))).
  unfold visible_match. intros Hv Hl.
  destruct (page_query E w1 selector) as [[h'|]|] eqn:Q; try discriminate.
  destruct (isVisible E w1 h') as [[|]|] eqn:V; try discriminate.
  injection Hv as ->.
  destruct (classify_labelled (text_read E w1 h) label) as [type [Hc _]].
  exists type.
  set (s2 := mkSt w1 (browser s) (actionPerformed s) type (googleButtonFound s)).
  pose proof (click_and_settle_keeps h type selector s2) as Hk.
  destruct (click_and_settle E h type selector s2) as [[r s3] t3] eqn:Hrest.
  destruct Hk as [Htype Hr]. cbn [fst snd] in Htype, Hr.
  unfold try_action_selector.
  match goal with
  | |- context [try_catch ?b ?handler s] =>
      assert (Hbody : b s =
        (r, s3,
         Act (WaitForSelector selector 10000) ::
         Logged INFO ("Found " ++ type ++ " button. Button text: " ++
                      q (text_read E w1 h) ++ ", Aria-label: " ++ q label)%string :: t3))
  end.
  { rewrite run_or_else_act. fold w1.
    rewrite (run_ask _ _ _ (Some h)) by exact Q.
    rewrite run_or_else_ask. cbn [world with_world]. rewrite V.
    rewrite run_or_else_ask. cbn [world with_world]. fold (text_read E w1 h).
    rewrite run_or_else_ask. cbn [world with_world]. fold (label_read E w1 h).
    rewrite Hl. rewrite (run_lift _ _ _ type) by exact Hc.
    rewrite run_set_actionType, run_log.
    cbn [world with_world browser actionPerformed googleButtonFound].
    fold s2. rewrite Hrest. reflexivity. }
  unfold try_catch. rewrite Hbody.
  destruct Hr as [-> | [e ->]].
  - exists true, s3. eexists. split; [exact Hc|]. split; [reflexivity|].
    split; [exact Htype|]. cbn. tauto.
  - exists false, s3. eexists. split; [exact Hc|]. split; [reflexivity|].
    split; [exact Htype|]. cbn. tauto.
Qed.

(** *** First visible match wins, where the loops test visibility *)

(** In the action loop: the candidates before the first visible match
    are passed without touching anything, and that match is the one
    element clicked, provided its label is read as a string and the
    engine rejects no action. *)
Lemma action_loop_first_visible pre selector post h label : forall s,
  actions_succeed E ->
  none_visible E pre (world s) ->
  visible_match E
    (snd (perform E (WaitForSelector selector 10000) (waited E pre (world s)))) selector
    = Some h ->
  label_read E
    (snd (perform E (WaitForSelector selector 10000) (waited E pre (world s)))) h
    = Some label ->
  exists s' skipped turn,
    action_loop E (pre ++ selector :: post) s = (Ok tt, s', skipped ++ turn) /\
    untouched skipped /\
    In (Act (Click h)) turn /\
    (forall h', In (Act (Click h')) turn -> h' = h) /\
    actionPerformed s' = true.
Proof.
  induction pre as [|p pre IH]; intros s Hact Hnone Hv Hl.
  - cbn [waited app] in *.
    destruct (try_action_selector_match selector s h label Hact Hv Hl)
      as [type [s' [newText [_ [Hrun [_ Hp]]]]]].
    exists s', []. eexists. cbn [action_loop app].
    rewrite (bind_Ok _ _ _ _ _ _ Hrun). cbn [app].
    split; [reflexivity|].
    split; [constructor|]. split; [cbn; tauto|]. split; [|exact Hp].
    intros h' Hin. cbn in Hin.
    repeat (destruct Hin as [Hin|Hin]; [try discriminate; try (injection Hin as <-; reflexivity)|]).
    destruct Hin.
  - cbn [none_visible] in Hnone. destruct Hnone as [Hsel Hrest].
    destruct (try_action_selector_no_match p s Hsel) as [t1 [E1 U1]].
    set (w1 := snd (perform E (WaitForSelector p 10000) (world s))) in *.
    destruct (IH (with_world s w1) Hact Hrest Hv Hl)
      as [s' [skipped [turn [Hrun [Hu [Hc [Honly Hp]]]]]]].
    exists s', (t1 ++ skipped), turn. cbn [app action_loop].
    rewrite (bind_Ok _ _ _ _ _ _ E1), Hrun.
    split; [rewrite app_assoc; reflexivity|].
    split; [apply Forall_app; split; assumption|]. auto.
Qed.

(** *** The OAuth scan when nothing visible matches *)

Lemma try_google_selector_no_match selector s :
  visible_match E (snd (perform E (WaitForTimeout 1000) (world s))) selector = None ->
  exists tr,
    try_google_selector E selector s =
      (Ok false, with_world s (snd (perform E (WaitForTimeout 1000) (world s))), tr) /\
    untouched tr.
Proof.
  set (w1 := snd (perform E (WaitForTimeout 1000) (world s))).
  unfold visible_match. intros Hv.
  unfold try_google_selector, try_catch.
  unfold bind at 1. unfold act at 1.
  destruct (perform E (WaitForTimeout 1000) (world s)) as [[[]|e0] w] eqn:P;
    cbn [snd] in w1; subst w1.
  - unfold bind at 1. rewrite ask_eq. cbn [world with_world].
    destruct (page_query E w selector) as [[h|]|e1].
    + unfold bind at 1. rewrite or_else_ask. cbn [world with_world].
      destruct (isVisible E w h) as [[|]|e2]; [discriminate| |];
        (eexists; split; [reflexivity|repeat constructor]).
    + eexists; split; [reflexivity|repeat constructor].
    + eexists; split; [reflexivity|repeat constructor].
  - eexists; split; [reflexivity|repeat constructor].
Qed.

Lemma google_loop_no_match selectors : forall s,
  none_visible_oauth E selectors (world s) ->
  exists tr,
    google_loop E selectors s = (Ok tt, with_world s (paused E selectors (world s)), tr) /\
    untouched tr.
Proof.
  induction selectors as [|selector rest IH]; intros s H.
  - exists []. split; [destruct s; reflexivity|constructor].
  - cbn [none_visible_oauth] in H. destruct H as [Hsel Hrest].
    destruct (try_google_selector_no_match selector s Hsel) as [t1 [E1 U1]].
    set (w1 := snd (perform E (WaitForTimeout 1000) (world s))) in *.
    destruct (IH (with_world s w1) Hrest) as [t2 [E2 U2]].
    exists (t1 ++ t2). cbn [google_loop paused].
    rewrite (bind_Ok _ _ _ _ _ _ E1), E2. split; [reflexivity|].
    apply Forall_app. split; assumption.
Qed.

(** When no OAuth control is visible and [HEADED] is not 'true', the
    handler takes the screenshot and throws, whether or not the
    browser is shown. *)
Lemma handleGoogleLogin_not_found_throws s :
  JS.strict_eq (env_HEADED env) "true" = false ->
  none_visible_oauth E (googleButtonSelectors env) (world s) ->
  captures_succeed E ->
  exists s' scan,
    handleGoogleLogin E env s =
      (Throw "Google login button not found. Please check the login page structure or set GOOGLE_LOGIN_SELECTORS in .env",
       s',
       scan ++
       [Logged ERROR "Could not find Google login button. Taking screenshot for debugging...";
        Act (Screenshot "logs/google-button-not-found.png");
        Logged INFO "Screenshot saved to logs/google-button-not-found.png for debugging"]) /\
    untouched scan.
Proof.
  intros Hheaded Hnone [Hshot _].
  set (s1 := mkSt (world s) (browser s) (actionPerformed s) (actionType s) false).
  destruct (google_loop_no_match (googleButtonSelectors env) s1 Hnone) as [scan [Hloop Hscan]].
  set (s2 := with_world s1 (paused E (googleButtonSelectors env) (world s1))) in *.
  assert (Hbanner : exists banner,
            (match custom (env_GOOGLE_LOGIN_SELECTORS env) with
             | Some l => log ("Using custom Google login selectors: " ++ JS.join ", " l)%string INFO
             | None => log "Using default Google login selectors" INFO
             end : M unit) = log banner INFO)
    by (destruct (custom (env_GOOGLE_LOGIN_SELECTORS env)); eexists; reflexivity).
  destruct Hbanner as [banner Hbanner].
  unfold handleGoogleLogin. rewrite Hbanner.
  rewrite run_log, run_log.
  assert (Hset : forall B (f : unit -> M B),
            bind (set_googleButtonFound false) f s = f tt s1).
  { intros B f. unfold bind, set_googleButtonFound. fold s1.
    destruct (f tt s1) as [[r x] t]. reflexivity. }
  rewrite Hset.
  rewrite (bind_Ok _ _ _ _ _ _ Hloop).
  unfold bind at 1. unfold get at 1. cbn [googleButtonFound with_world s2 s1 negb when].
  unfold bind at 1. rewrite run_log.
  rewrite run_act by apply Hshot. rewrite run_log. rewrite Hheaded. cbn [negb].
  unfold throw. rewrite !after_pair. cbn [app].
  eexists. exists ([Logged INFO "Looking for Google login button..."; Logged INFO banner] ++ scan).
  split.
  - reflexivity.
  - constructor; [reflexivity|]. constructor; [reflexivity|]. exact Hscan.
Qed.

(** [handleGoogleLogin] never reads [HEADLESS]: what it does when no
    control is found is decided by [HEADED] alone. *)
Lemma handleGoogleLogin_ignores_HEADLESS v s :
  handleGoogleLogin E (with_HEADLESS v env) s = handleGoogleLogin E env s.
Proof. reflexivity. Qed.

(** *** The classification *)

Lemma classify_labelled_check_out buttonText label :
  classify buttonText (Some label) = Fulfilled "check-out" <->
  ~ (mentions "check-in" buttonText \/ mentions "check-in" label) /\
  (mentions "check-out" buttonText \/ mentions "check-out" label \/
   mentions "out" buttonText).
Proof.
  unfold mentions. rewrite <- !includes_iff. unfold classify.
  destruct (JS.includes (JS.toLowerCase buttonText) "check-in");
    destruct (JS.includes (JS.toLowerCase label) "check-in");
    destruct (JS.includes (JS.toLowerCase buttonText) "check-out");
    destruct (JS.includes (JS.toLowerCase label) "check-out");
    destruct (JS.includes (JS.toLowerCase buttonText) "out");
    cbn [orb]; split; intros H; try discriminate; try reflexivity;
    try (split; [intros [?|?]; discriminate | tauto]);
    try (destruct H as [H _]; exfalso; apply H; tauto);
    try (destruct H as [_ [?|[?|?]]]; discriminate).
Qed.

(** C9, amended. For every matched action control (the selector yields a
    visible element once the loop has waited for it) whose accessible
    label is read as a string: the turn of the loop classifies the
    control, logs the class and keeps it in [actionType]. The class is
    "check-in" or "check-out"; it is "check-out" exactly when neither the
    lower-cased text nor the lower-cased label contains "check-in" and
    either one of them contains "check-out" or the text contains "out";
    in every other case it is "check-in". On an engine whose actions are
    not rejected the turn goes on to click the control and ends the
    scan. *)
Theorem C9_classification_of_matched_control
  (selector : string) (s : St) (h : Handle) (label : string) :
  visible_match E (snd (perform E (WaitForSelector selector 10000) (world s))) selector = Some h ->
  label_read E (snd (perform E (WaitForSelector selector 10000) (world s))) h = Some label ->
  exists type stop s' tr,
    try_action_selector E selector s = (Ok stop, s', tr) /\
    actionType s' = type /\
    In (Logged INFO
          ("Found " ++ type ++ " button. Button text: " ++
           q (text_read E (snd (perform E (WaitForSelector selector 10000) (world s))) h) ++
           ", Aria-label: " ++ q label)%string) tr /\
    (type = "check-in"%string \/ type = "check-out"%string) /\
    (type = "check-out"%string <->
     ~ (mentions "check-in"
          (text_read E (snd (perform E (WaitForSelector selector 10000) (world s))) h) \/
        mentions "check-in" label) /\
     (mentions "check-out"
        (text_read E (snd (perform E (WaitForSelector selector 10000) (world s))) h) \/
      mentions "check-out" label \/
      mentions "out"
        (text_read E (snd (perform E (WaitForSelector selector 10000) (world s))) h))) /\
    (actions_succeed E ->
     stop = true /\ actionPerformed s' = true /\ In (Act (Click h)) tr).
Proof.
  intros Hv Hl.
  destruct (try_action_selector_classifies selector s h label Hv Hl)
    as [type [stop [s' [tr [Hc [Hrun [Ht Hlog]]]]]]].
  exists type, stop, s', tr.
  split; [exact Hrun|]. split; [exact Ht|]. split; [exact Hlog|].
  destruct (classify_labelled
              (text_read E (snd (perform E (WaitForSelector selector 10000) (world s))) h)
              label) as [type' [Hc' Hor]].
  rewrite Hc in Hc'. injection Hc' as <-.
  split; [exact Hor|]. split.
  - rewrite <- classify_labelled_check_out, Hc.
    split; [intros ->; reflexivity|intros H; injection H as H; exact H].
  - intros Hact.
    destruct (try_action_selector_match selector s h label Hact Hv Hl)
      as [type2 [s2 [newText [_ [Hrun2 [_ Hp]]]]]].
    rewrite Hrun in Hrun2. injection Hrun2 as -> -> ->.
    split; [reflexivity|]. split; [exact Hp|]. cbn. tauto.
Qed.

End Facts.

(** ** Runs on scripted pages *)

Lemma scripted_actions_succeed p : actions_succeed (scripted p).
Proof. intros a w. reflexivity. Qed.

Lemma scripted_captures_succeed p : captures_succeed (scripted p).
Proof. split; intros; reflexivity. Qed.

Lemma C4_witness :
  (env_ZOHO_EMAIL no_env = None \/ env_ZOHO_EMAIL no_env = Some EmptyString) /\
  run (scripted bare_login_page) no_env tt =
    (Exit 1, start tt,
     [Logged ERROR "Zoho email not configured. Please set ZOHO_EMAIL environment variable."]) /\
  existsb is_act (trace_of (run (scripted bare_login_page) no_env tt)) = false.
Proof.
  assert (H : env_ZOHO_EMAIL no_env = None \/ env_ZOHO_EMAIL no_env = Some EmptyString)
    by (left; reflexivity).
  split; [exact H|].
  exact (C4_no_email_exits_before_any_action (scripted bare_login_page) no_env tt H).
Defined.

Lemma no_marker_on_action_page : ~ login_marker (address action_page_empty).
Proof.
  intros [H|H]; apply includes_iff in H; vm_compute in H; discriminate.
Defined.

Lemma C7_witness :
  login_if_needed (scripted action_page_empty) oauth_env (start tt) =
    (Ok tt, start tt,
     [Logged INFO ("Current URL: " ++ address action_page_empty)%string;
      Logged INFO "Already logged in using saved session"]).
Proof.
  refine (proj1 (C7_authenticated_session_skips_login
                   (scripted action_page_empty) oauth_env (start tt) (start tt) _ _ _)).
  - vm_compute. reflexivity.
  - exact no_marker_on_action_page.
Defined.

Lemma C8_witness :
  none_visible (scripted action_page_empty) (actionSelectors oauth_env) tt /\
  captures_succeed (scripted action_page_empty) /\
  outcome_of (run (scripted action_page_empty) oauth_env tt) = Exit 0.
Proof.
  assert (H1 : none_visible (scripted action_page_empty) (actionSelectors oauth_env) tt)
    by (vm_compute; repeat split).
  assert (H2 : captures_succeed (scripted action_page_empty))
    by apply scripted_captures_succeed.
  split; [exact H1|]. split; [exact H2|].
  destruct (C8_no_match_is_recorded_not_raised
              (scripted action_page_empty) oauth_env tt (start tt) _
              (eq_refl : reach_action_page (scripted action_page_empty) oauth_env (start tt)
                         = (Ok tt, start tt, _))
              H1 H2) as [scan [stamp [final [Hrun _]]]].
  rewrite Hrun. reflexivity.
Defined.

(** That run in full: the failure is logged, both screenshots are
    taken, nothing is touched, and the exit code is 0. *)
Example no_control_run :
  outcome_of (run (scripted action_page_empty) oauth_env tt) = Exit 0 /\
  existsb (captures "logs/checkin-not-found.png")
    (trace_of (run (scripted action_page_empty) oauth_env tt)) = true /\
  existsb (captures "logs/zoho-checkin-2026-11-03T06-00-00-000Z.png")
    (trace_of (run (scripted action_page_empty) oauth_env tt)) = true /\
  existsb touches (trace_of (run (scripted action_page_empty) oauth_env tt)) = false.
Proof. vm_compute. repeat split. Qed.

(** C9, as stated, fails: the text "Checking out" (label "Attendance")
    contains both "in" and "out", which the stated rule resolves to
    check-in, while the script classifies the control as check-out. *)
Lemma C9_counterexample :
  classify "Checking out" (Some "Attendance") <>
  Fulfilled (spec_classify "Checking out" "Attendance").
Proof. vm_compute. discriminate. Qed.

(** No rule that looks only at whether "in" and whether "out" occur in
    the text or the label gives the classes of the script: these two
    controls agree on both tests and are classified differently. *)
Example classes_are_not_decided_by_in_and_out :
  classify "Checking out" (Some EmptyString) = Fulfilled "check-out" /\
  classify "Check-in" (Some "Check-out") = Fulfilled "check-in" /\
  JS.includes (JS.toLowerCase "Checking out") "in" = true /\
  JS.includes (JS.toLowerCase "Checking out") "out" = true /\
  JS.includes (JS.toLowerCase "Check-in") "in" = true /\
  JS.includes (JS.toLowerCase "Check-out") "out" = true.
Proof. vm_compute. repeat split. Qed.

(** A label that contains "out" does not count in the last step: only
    the text does. *)
Example label_out_is_ignored :
  classify EmptyString (Some "Clock out") = Fulfilled "check-in" /\
  classify "Clock out" (Some EmptyString) = Fulfilled "check-out".
Proof. vm_compute. split; reflexivity. Qed.

Lemma C9_witness :
  exists type stop s' tr,
    try_action_selector (scripted action_page_labelled) "#ZPAtt_check_in_out" (start tt)
      = (Ok stop, s', tr) /\
    actionType s' = type /\ type = "check-out"%string.
Proof.
  destruct (C9_classification_of_matched_control
              (scripted action_page_labelled) "#ZPAtt_check_in_out" (start tt)
              1%nat "Check-out" eq_refl eq_refl)
    as [type [stop [s' [tr [Hrun [Ht [_ [_ [Hiff _]]]]]]]]].
  exists type, stop, s', tr. repeat split; try assumption.
  apply Hiff. split.
  - intros [H|H]; apply includes_iff in H; vm_compute in H; discriminate.
  - left. apply includes_iff. vm_compute. reflexivity.
Defined.

(** C1 on the action page: the first candidate, [#ZPAtt_check_in_out],
    exists and is visible (element 1, "Check-out", no aria-label), yet
    the classification of an unlabelled control raises, the turn is
    abandoned, and the loop goes on to click element 2, the first
    labelled match further down the list. The run reports success. *)
Theorem C1_unlabelled_first_match_is_passed_over :
  hd EmptyString (actionSelectors oauth_env) = "#ZPAtt_check_in_out"%string /\
  visible_match (scripted action_page_unlabelled) tt "#ZPAtt_check_in_out" = Some 1%nat /\
  classify "Check-out" None = Rejected TypeError_toLowerCase /\
  existsb (clicks 1) (trace_of (run (scripted action_page_unlabelled) oauth_env tt)) = false /\
  existsb (clicks 2) (trace_of (run (scripted action_page_unlabelled) oauth_env tt)) = true /\
  outcome_of (run (scripted action_page_unlabelled) oauth_env tt) = Exit 0.
Proof. vm_compute. repeat split. Qed.

(** C1 on the identifier list of the password login: the loop fills the
    first candidate that exists, here the hidden element 1, and never
    looks at the visible element 2. *)
Example hidden_identifier_field_is_filled :
  visible_match (scripted login_page_hidden_field) tt
    (hd EmptyString emailSelectors) = None /\
  visible_match (scripted login_page_hidden_field) tt
    (hd EmptyString (tl emailSelectors)) = Some 2%nat /\
  existsb (fills 1)
    (trace_of (run (scripted login_page_hidden_field) password_env tt)) = true /\
  existsb (fills 2)
    (trace_of (run (scripted login_page_hidden_field) password_env tt)) = false.
Proof. vm_compute. repeat split. Qed.

(** C6 in a run with the browser shown, as the monitor starts it
    ([HEADLESS] is 'false', [HEADED] is not set): no OAuth control is
    found, the diagnostic screenshot is taken, and the run fails hard
    with exit code 1 instead of waiting for manual completion. The same
    happens when [HEADLESS] is not set at all. *)
Theorem C6_shown_browser_fails_hard :
  useHeadless oauth_env_from_monitor = false /\
  outcome_of (run (scripted bare_login_page) oauth_env_from_monitor tt) = Exit 1 /\
  existsb (captures "logs/google-button-not-found.png")
    (trace_of (run (scripted bare_login_page) oauth_env_from_monitor tt)) = true /\
  existsb (waits 60000)
    (trace_of (run (scripted bare_login_page) oauth_env_from_monitor tt)) = false /\
  useHeadless oauth_env = false /\
  outcome_of (run (scripted bare_login_page) oauth_env tt) = Exit 1 /\
  existsb (waits 60000)
    (trace_of (run (scripted bare_login_page) oauth_env tt)) = false.
Proof. vm_compute. repeat split. Qed.

End CheckinFacts.

(** * Further properties of the polling scheduler *)

Module MonitorExtras.
Import Monitor MonitorFacts.
Local Open Scope list_scope.

Lemma result_handle i st : is_signal i = false -> result (handle i st) = Ret tt.
Proof.
  destruct i as [now nowIn nowOut|message|code|]; intros H; try discriminate.
  - apply result_tick.
  - reflexivity.
  - destruct (on_child_exit_eq code st) as [lvl [msg E]]. cbn [handle]. rewrite E.
    reflexivity.
Qed.

Lemma loop_step i rest st :
  is_signal i = false ->
  loop (i :: rest) st =
    (result (loop rest (final_state (handle i st))),
     final_state (loop rest (final_state (handle i st))),
     effects (handle i st) ++ effects (loop rest (final_state (handle i st)))).
Proof.
  intros H. pose proof (result_handle i st H) as R. rewrite loop_cons.
  unfold result, final_state, effects in *.
  destruct (handle i st) as [[r s1] t1]. cbn [fst snd] in *. subst r.
  destruct (loop rest s1) as [[r2 s2] t2]. reflexivity.
Qed.

(** X3. A termination signal ends the monitor with exit code 0: the
    inputs before it are handled as usual, the shutdown is logged, and
    nothing that arrives after the signal is handled. *)
Theorem signal_stops_the_loop (pre post : list input) (st : state) :
  existsb is_signal pre = false ->
  loop (pre ++ Signal :: post) st =
    (Exited 0, final_state (loop pre st),
     effects (loop pre st) ++
     [(final_state (loop pre st), Log INFO "Shutting down monitor...")]).
Proof.
  revert st. induction pre as [|i pre IH]; intros st H.
  - reflexivity.
  - cbn [existsb] in H. apply orb_false_iff in H. destruct H as [Hi Hpre].
    cbn [app]. rewrite (loop_step i (pre ++ Signal :: post) st Hi).
    rewrite (loop_step i pre st Hi).
    rewrite (IH (final_state (handle i st)) Hpre).
    unfold result, final_state, effects. cbn [fst snd].
    rewrite app_assoc. reflexivity.
Qed.

Lemma signal_stops_the_loop_witness :
  existsb is_signal day_with_failed_child = false /\
  result (loop (day_with_failed_child ++ Signal :: day_with_failed_child) initial)
    = Exited 0 /\
  spawned (effects (loop (day_with_failed_child ++ Signal :: day_with_failed_child) initial))
    = 2%nat.
Proof.
  assert (H : existsb is_signal day_with_failed_child = false) by reflexivity.
  split; [exact H|].
  rewrite (signal_stops_the_loop day_with_failed_child day_with_failed_child initial H).
  split; reflexivity.
Defined.

Lemma not_due_of_no_match t r st : ~ matches t r -> due t r st = false.
Proof.
  intros H. destruct (due t r st) eqn:D; [|reflexivity].
  apply due_true in D. destruct D as [Hd [Hh [Hm _]]].
  exfalso. apply H. repeat split; assumption.
Qed.

Lemma fired_off_schedule t ins : forall st,
  off_schedule ins -> fired t (effects (loop ins st)) = 0%nat.
Proof.
  induction ins as [|i rest IH]; intros st H; [reflexivity|].
  assert (Hrest : off_schedule rest).
  { intros a b c Hin. apply (H a b c). right. exact Hin. }
  destruct i as [now nowIn nowOut|message|code|].
  - destruct (H now nowIn nowOut (or_introl eq_refl)) as [Hin Hout].
    rewrite effects_loop_tick, fired_app, fired_tick, IH by assumption.
    rewrite not_due_of_no_match by (destruct t; assumption). reflexivity.
  - rewrite effects_loop_child_error.
    change (?x :: ?l) with ([x] ++ l). rewrite fired_app, IH by assumption.
    destruct t; reflexivity.
  - destruct (effects_loop_child_exit code rest st) as [lvl [msg [E Hl]]].
    rewrite E. change (?x :: ?l) with ([x] ++ l). rewrite fired_app, IH by assumption.
    destruct Hl as [-> | ->]; [destruct t; reflexivity|].
    destruct lvl, t; reflexivity.
  - rewrite effects_loop_signal. destruct t; reflexivity.
Qed.

(** X2. A run in which no tick reads a matching (weekday, hour, minute)
    for either target spawns nothing: the flow is never started on a
    weekend or off schedule, whatever the markers hold and whatever the
    children report. *)
Theorem nothing_spawned_off_schedule (ins : list input) (st : state) :
  off_schedule ins -> spawned (effects (loop ins st)) = 0%nat.
Proof.
  intros H. rewrite spawned_loop, !fired_off_schedule by assumption. reflexivity.
Qed.

Lemma nothing_spawned_off_schedule_witness :
  off_schedule quiet_ticks /\
  spawned (effects (loop quiet_ticks initial)) = 0%nat.
Proof.
  assert (H : off_schedule quiet_ticks).
  { intros a b c Hin. cbn in Hin.
    destruct Hin as [Hin|[Hin|[Hin|[]]]]; injection Hin as <- <- <-;
      split; intros [Hd [Hh Hm]]; cbn in Hd, Hh, Hm;
      try discriminate; intuition discriminate. }
  split; [exact H|]. exact (nothing_spawned_off_schedule quiet_ticks initial H).
Defined.

Lemma marker_after_tick_not_due t d now nowIn nowOut st :
  marker t st <> Some d ->
  due t (reading_for t nowIn nowOut) st = false ->
  marker t (final_state (tick now nowIn nowOut st)) <> Some d.
Proof.
  intros Hm Hdue. rewrite final_state_tick.
  destruct (midnight now); [destruct t; discriminate|].
  destruct t; rewrite !marker_after_check; cbn [reading_for] in Hdue.
  - rewrite Hdue. exact Hm.
  - rewrite due_after_other, Hdue. exact Hm.
Qed.

Lemma fired_at_least_once t d ins : forall st,
  same_day d ins -> existsb is_signal ins = false ->
  marker t st <> Some d -> has_match t ins ->
  (1 <= fired t (effects (loop ins st)))%nat.
Proof.
  induction ins as [|i rest IH]; intros st Hd Hs Hm [a [b [c [Hin Hmatch]]]].
  - destruct Hin.
  - cbn [existsb] in Hs. apply orb_false_iff in Hs. destruct Hs as [Hi Hs].
    destruct i as [now nowIn nowOut|message|code|]; [| | |discriminate].
    + apply same_day_tick in Hd. destruct Hd as [D0 [D1 [D2 Hd]]].
      rewrite effects_loop_tick, fired_app, fired_tick.
      destruct (due t (reading_for t nowIn nowOut) st) eqn:Hdue; [cbn; lia|].
      cbn [Nat.add]. apply IH; try assumption.
      * apply marker_after_tick_not_due; assumption.
      * destruct Hin as [Hin|Hin]; [|exists a, b, c; auto].
        injection Hin as <- <- <-. exfalso.
        rewrite due_of_matches in Hdue; [discriminate|exact Hmatch|].
        destruct t; cbn [reading_for]; congruence.
    + rewrite effects_loop_child_error.
      change (?x :: ?l) with ([x] ++ l). rewrite fired_app.
      destruct Hin as [Hin|Hin]; [discriminate|].
      assert (H1 : (1 <= fired t (effects (loop rest st)))%nat)
        by (apply IH; try assumption; exists a, b, c; auto).
      lia.
    + destruct (effects_loop_child_exit code rest st) as [lvl [msg [E _]]].
      rewrite E. change (?x :: ?l) with ([x] ++ l). rewrite fired_app.
      destruct Hin as [Hin|Hin]; [discriminate|].
      assert (H1 : (1 <= fired t (effects (loop rest st)))%nat)
        by (apply IH; try assumption; exists a, b, c; auto).
      lia.
Qed.

(** X1. On a day on which some tick reads a matching time for a target,
    the monitor is not stopped, and the target's marker does not already
    hold that day, the target fires exactly once (same assumptions on
    the clock as for the at-most-once property). *)
Theorem fires_exactly_once_on_a_matching_day
  (t : target) (d : string) (ins : list input) (st : state) :
  same_day d ins -> chronological ins -> Forall brief ins ->
  existsb is_signal ins = false ->
  marker t st <> Some d -> has_match t ins ->
  fired t (effects (loop ins st)) = 1%nat.
Proof.
  intros Hd Hc Hb Hs Hm Hmatch.
  pose proof (fired_at_most_once t d ins st Hd Hc Hb).
  pose proof (fired_at_least_once t d ins st Hd Hs Hm Hmatch). lia.
Qed.

Lemma fires_exactly_once_on_a_matching_day_witness :
  fired CheckOut (effects (loop day_with_failed_child marked_on_monday)) = 1%nat.
Proof.
  apply (fires_exactly_once_on_a_matching_day CheckOut "Tue Nov 03 2026").
  - unfold same_day; cbn; repeat constructor.
  - unfold chronological; cbn; repeat constructor; unfold minute_of_day; cbn; lia.
  - repeat constructor; unfold minute_of_day; cbn; lia.
  - reflexivity.
  - cbn. discriminate.
  - exists tue_1345, tue_1345, tue_1345. split; [cbn; tauto|].
    unfold matches; cbn; repeat split; auto.
Defined.

End MonitorExtras.

(** * Further properties of the Wi-Fi gate *)

Module WiFiExtras.
Import WiFi WiFiFacts.

(** *** [trim] *)

Lemma trimStart_clean s : clean_start (JS.trimStart s).
Proof.
  induction s as [|c s IH]; cbn; [exact I|].
  destruct (JS.is_space c) eqn:Hc; [exact IH|exact Hc].
Qed.

Lemma trimStart_of_clean s : clean_start s -> JS.trimStart s = s.
Proof. destruct s as [|c s]; cbn; [reflexivity|]. intros ->. reflexivity. Qed.

Lemma trimEnd_clean s : clean_start s -> clean_start (JS.trimEnd s).
Proof.
  destruct s as [|c s]; cbn; [exact (fun H => H)|]. intros Hc.
  destruct (JS.trimEnd s); [rewrite Hc|]; exact Hc.
Qed.

Lemma trimEnd_cons c s :
  JS.trimEnd (String c s) =
    match JS.trimEnd s with
    | EmptyString => if JS.is_space c then EmptyString else String c EmptyString
    | r => String c r
    end.
Proof. reflexivity. Qed.

Lemma trimEnd_idempotent s : JS.trimEnd (JS.trimEnd s) = JS.trimEnd s.
Proof.
  induction s as [|c s IH]; [reflexivity|]. rewrite trimEnd_cons.
  destruct (JS.trimEnd s) as [|d r] eqn:Hr.
  - destruct (JS.is_space c) eqn:Hc; [reflexivity|].
    rewrite trimEnd_cons. cbn [JS.trimEnd]. rewrite Hc. reflexivity.
  - rewrite trimEnd_cons, IH. reflexivity.
Qed.

Lemma trim_idempotent s : JS.trim (JS.trim s) = JS.trim s.
Proof.
  unfold JS.trim.
  rewrite (trimStart_of_clean (JS.trimEnd (JS.trimStart s)))
    by (apply trimEnd_clean, trimStart_clean).
  apply trimEnd_idempotent.
Qed.

Section Facts.

Variable execSync : string -> outcome string.
Variable re : Regex.

Lemma group1_trimmed m name : group1 m = Some name -> trimmed name.
Proof.
  unfold group1. destruct m as [g|]; [|discriminate].
  destruct (JS.truthy g); [|discriminate].
  intros H. injection H as <-. apply trim_idempotent.
Qed.

Lemma try_patterns_trimmed patterns result name :
  try_patterns patterns result = Some name -> trimmed name.
Proof.
  induction patterns as [|pattern rest IH]; cbn [try_patterns]; [discriminate|].
  destruct (group1 (pattern result)) as [ssid|] eqn:G; [|exact IH].
  destruct (acceptable_ssid ssid); [|exact IH].
  intros H. injection H as <-. exact (group1_trimmed _ _ G).
Qed.

Lemma try_interfaces_trimmed ifaces : yields_trimmed (try_interfaces execSync re ifaces).
Proof.
  induction ifaces as [|iface rest IH]; intros name; cbn [try_interfaces];
    [discriminate|].
  destruct (execSync ("/usr/sbin/networksetup -getairportnetwork " ++ iface))
    as [result|e]; cbn [bind try_catch]; [|apply IH].
  destruct (not_associated result); cbn [bind try_catch]; [apply IH|].
  destruct (try_patterns (re_patterns re) result) as [ssid|] eqn:T; [|apply IH].
  intros H. injection H as <-. exact (try_patterns_trimmed _ _ _ T).
Qed.

Lemma try_services_trimmed lines name :
  try_services execSync re lines = Ok (Some name) -> trimmed name.
Proof.
  induction lines as [|line rest IH]; cbn [try_services]; [discriminate|].
  destruct ((JS.includes line "Wi-Fi" || JS.includes line "AirPort") &&
            JS.includes line "Connected"); cbn [bind]; [|exact IH].
  destruct (service_name re line) as [serviceName|]; cbn [bind]; [|exact IH].
  destruct (JS.truthy serviceName); cbn [bind]; [|exact IH].
  destruct (execSync ("/usr/sbin/scutil --nc show " ++ JS.dquote ++ serviceName ++ JS.dquote))
    as [info|e]; cbn [bind try_catch]; [|exact IH].
  destruct (group1 (re_ssid_line re info)) as [ssid|] eqn:G; [|exact IH].
  intros H. injection H as <-. exact (group1_trimmed _ _ G).
Qed.

Lemma first_found_trimmed stages :
  Forall yields_trimmed stages -> yields_trimmed (first_found stages).
Proof.
  induction 1 as [|stage rest Hs F IH]; intros name; cbn [first_found]; [discriminate|].
  destruct stage as [[ssid|]|e]; cbn [bind]; [| |discriminate].
  - intros H. apply Hs. rewrite H. reflexivity.
  - apply IH.
Qed.

Lemma getCurrentWiFiSSID_trimmed (name : string) :
  getCurrentWiFiSSID execSync re = Ok (Some name) -> trimmed name.
Proof.
  unfold getCurrentWiFiSSID.
  match goal with
  | |- bind (try_catch ?b ?h) _ = _ -> _ =>
      destruct (guarded_returns b) as [w E]; rewrite E
  end.
  cbn [bind]. apply first_found_trimmed.
  repeat constructor; intros n.
  - apply try_interfaces_trimmed.
  - destruct (execSync "/usr/sbin/system_profiler SPAirPortDataType") as [result|e];
      cbn [bind try_catch]; [|discriminate].
    intros H. injection H as H. exact (group1_trimmed _ _ H).
  - destruct (execSync "/usr/sbin/scutil --nc list") as [state|e];
      cbn [bind try_catch]; [|discriminate].
    destruct (try_services execSync re (JS.split newline state)) as [[ssid|]|e] eqn:S;
      cbn [bind try_catch]; [| |discriminate].
    + intros H. injection H as <-. exact (try_services_trimmed _ _ S).
    + unfold from_prefs.
      destruct (execSync "/usr/sbin/scutil --prefs") as [prefs|e];
        cbn [bind try_catch]; [|discriminate].
      destruct (group1 (re_ssid_word re prefs)) as [ssid|] eqn:G; [|discriminate].
      destruct (JS.truthy ssid); [|discriminate].
      intros H. injection H as <-. exact (group1_trimmed _ _ G).
  - destruct (execSync "/usr/bin/wdutil info") as [result|e];
      cbn [bind try_catch]; [|discriminate].
    destruct (group1 (re_ssid_word re result)) as [ssid|] eqn:G; [|discriminate].
    destruct (usable_ssid ssid); [|discriminate].
    intros H. injection H as <-. exact (group1_trimmed _ _ G).
  - destruct (execSync (airportPath ++ " -I 2>&1")) as [result|e];
      cbn [bind try_catch]; [|discriminate].
    destruct (JS.includes result "deprecated" && negb (JS.includes result "SSID:"));
      [discriminate|].
    destruct (group1 (re_airport re result)) as [ssid|] eqn:G; [|discriminate].
    destruct (usable_ssid ssid); [|discriminate].
    intros H. injection H as <-. exact (group1_trimmed _ _ G).
Qed.

(** X4. Whatever the commands print and whatever the expressions
    capture, a network name returned by [getCurrentWiFiSSID] carries no
    white space at either end: every path returns a trimmed capture. *)
Theorem detected_name_is_trimmed (name : string) :
  getCurrentWiFiSSID execSync re = Ok (Some name) -> JS.trim name = name.
Proof. apply getCurrentWiFiSSID_trimmed. Qed.


(** X6. When every command fails (no such tool, no permission), the
    detection gives [null] without throwing, whatever the expressions
    would match, and the gate answers [false] for every expected value. *)
Theorem dead_host_is_not_the_office (e : expected) :
  all_commands_fail execSync ->
  getCurrentWiFiSSID execSync re = Ok None /\
  isOnOfficeWiFi execSync re e = Ok false.
Proof.
  intros Hfail.
  assert (Hx : forall command (k : string -> outcome (option string)),
            try_catch (bind (execSync command) k) (fun _ => Ok None) = Ok None).
  { intros command k. destruct (Hfail command) as [m ->]. reflexivity. }
  assert (Hi : forall ifaces, try_interfaces execSync re ifaces = Ok None).
  { induction ifaces as [|iface rest IH]; [reflexivity|].
    cbn [try_interfaces]. rewrite Hx. exact IH. }
  assert (Hd : getCurrentWiFiSSID execSync re = Ok None).
  { unfold getCurrentWiFiSSID. rewrite Hx. cbn [bind].
    rewrite Hi, !Hx. reflexivity. }
  split; [exact Hd|].
  destruct (isOnOfficeWiFi_returns execSync re e) as [[|] Hb]; [|exact Hb].
  apply isOnOfficeWiFi_true_iff in Hb. destruct Hb as [name [Hn _]].
  rewrite Hd in Hn. discriminate.
Qed.

(** X7. Run directly, the script ends with exit code 0 or 1 and never
    throws. In test mode ([--test] or [-t]) the code is 0 exactly when a
    non-empty network name is detected, and [OFFICE_WIFI_SSID] plays no
    part; otherwise it is 0 exactly when the variable is set and the
    detected name is one of its trimmed, comma-separated pieces. *)
Theorem exit_code_of_direct_run (argv : list string) (OFFICE_WIFI_SSID : option string) :
  (run_directly execSync re argv OFFICE_WIFI_SSID = Ok 0%Z \/
   run_directly execSync re argv OFFICE_WIFI_SSID = Ok 1%Z) /\
  (run_directly execSync re argv OFFICE_WIFI_SSID = Ok 0%Z <->
   exists name,
     getCurrentWiFiSSID execSync re = Ok (Some name) /\ name <> EmptyString /\
     (In "--test"%string argv \/ In "-t"%string argv \/
      exists v, OFFICE_WIFI_SSID = Some v /\ entry_of (Str v) name)).
Proof.
  unfold run_directly.
  destruct getCurrentWiFiSSID_returns with (execSync := execSync) (re := re) as [cur Hcur].
  destruct (JS.array_includes argv "--test" || JS.array_includes argv "-t") eqn:Ht.
  - rewrite Hcur. cbn [bind].
    assert (Hin : In "--test"%string argv \/ In "-t"%string argv).
    { apply orb_true_iff in Ht.
      destruct Ht as [H|H]; [left|right]; apply (array_includes_In execSync); exact H. }
    destruct cur as [ssid|]; cbn [JS.truthy_opt].
    + destruct (JS.truthy ssid) eqn:Hs.
      * split; [left; reflexivity|]. split; [|reflexivity]. intros _.
        exists ssid. apply truthy_iff in Hs. intuition.
      * split; [right; reflexivity|]. split; [discriminate|].
        intros [name [E [Hne _]]]. injection E as <-.
        apply truthy_iff in Hne. congruence.
    + split; [right; reflexivity|]. split; [discriminate|].
      intros [name [E _]]. discriminate.
  - apply orb_false_iff in Ht. destruct Ht as [Ht1 Ht2].
    assert (Hnot : ~ (In "--test"%string argv \/ In "-t"%string argv)).
    { intros [H|H]; apply (array_includes_In execSync) in H; congruence. }
    unfold main. destruct OFFICE_WIFI_SSID as [v|].
    + destruct (JS.truthy v) eqn:Hv.
      * destruct (isOnOfficeWiFi_returns execSync re (Str v)) as [b Hb].
        pose proof (isOnOfficeWiFi_true_iff execSync re (Str v)) as Hiff.
        rewrite Hb. cbn [bind]. rewrite Hb in Hiff. destruct b.
        -- split; [left; reflexivity|]. split; [|reflexivity]. intros _.
           destruct (proj1 Hiff eq_refl) as [name [Hd [Hne He]]].
           exists name. repeat split; auto.
           right. right. exists v. auto.
        -- split; [right; reflexivity|]. split; [discriminate|].
           intros [name [Hd [Hne [H|[H|[v' [Ev He]]]]]]]; try tauto.
           injection Ev as <-.
           assert (Hc : Ok false = Ok true)
             by (apply Hiff; exists name; auto).
           discriminate.
      * split; [right; reflexivity|]. split; [discriminate|].
        intros [name [Hd [Hne [H|[H|[v' [Ev He]]]]]]]; try tauto.
        injection Ev as <-.
        assert (Hvv : v = EmptyString).
        { unfold JS.truthy in Hv. destruct (String.eqb_spec v EmptyString); [auto|discriminate]. }
        subst v. cbn in He. destruct He as [piece [[<-|[]] Hp]]. cbn in Hp. congruence.
    + split; [right; reflexivity|]. split; [discriminate|].
      intros [name [Hd [Hne [H|[H|[v' [Ev He]]]]]]]; try tauto. discriminate.
Qed.

End Facts.

Lemma dead_host_is_not_the_office_witness :
  all_commands_fail dead_exec /\
  getCurrentWiFiSSID dead_exec sample_re = Ok None /\
  isOnOfficeWiFi dead_exec sample_re (Str "iScale_M") = Ok false.
Proof.
  assert (H : all_commands_fail dead_exec)
    by (intros command; exists "Command failed"%string; reflexivity).
  split; [exact H|].
  exact (dead_host_is_not_the_office dead_exec sample_re (Str "iScale_M") H).
Defined.

Lemma detected_name_is_trimmed_witness :
  getCurrentWiFiSSID (sample_exec "  iScale_M ") sample_re = Ok (Some "iScale_M"%string) /\
  JS.trim "iScale_M" = "iScale_M"%string.
Proof.
  assert (H : getCurrentWiFiSSID (sample_exec "  iScale_M ") sample_re
              = Ok (Some "iScale_M"%string)) by (vm_compute; reflexivity).
  split; [exact H|].
  exact (detected_name_is_trimmed (sample_exec "  iScale_M ") sample_re "iScale_M" H).
Defined.

End WiFiExtras.

(** * Further properties of the browser flow *)

Module CheckinExtras.
Import Checkin CheckinFacts.
Local Open Scope list_scope.

Section Facts.

Context {World Handle : Type}.
Variable E : Engine World Handle.
Variable env : Env.

Local Abbreviation M := (@M World Handle).

(** *** Confinement, statement by statement *)

Ltac pure_step :=
  intros s Hs; unfold confined, state_of, trace_of, outcome_of; cbn;
  repeat split; auto; try discriminate; try (repeat constructor).

Lemma confined_ret {A} (a : A) : confined env (ret a : M A).
Proof. pure_step. Qed.

Lemma confined_throw {A} message : confined env (throw message : M A).
Proof. pure_step. Qed.

Lemma confined_exit_1 {A} : confined env (process_exit 1 : M A).
Proof.
  pure_step. intros c Hc. injection Hc as <-. reflexivity.
Qed.

Lemma confined_log msg lvl : confined env (log msg lvl : M unit).
Proof.
  pure_step.
Qed.

Lemma confined_bind {A B} (m : M A) (f : A -> M B) :
  confined env m -> (forall a, confined env (f a)) -> confined env (bind m f).
Proof.
  intros Hm Hf s Hs. specialize (Hm s Hs). unfold bind.
  unfold state_of, trace_of, outcome_of in *.
  destruct (m s) as [[[a|e|c] s1] t1]; cbn [fst snd] in *.
  - destruct Hm as [H1 [H2 _]]. specialize (Hf a s1 H1).
    unfold state_of, trace_of, outcome_of in Hf.
    destruct (f a s1) as [[r s2] t2]. cbn [fst snd] in *.
    destruct Hf as [G1 [G2 G3]]. repeat split; auto. apply Forall_app. auto.
  - destruct Hm as [H1 [H2 _]]. repeat split; auto. discriminate.
  - destruct Hm as [H1 [H2 H3]]. repeat split; auto.
    intros c' Hc. injection Hc as <-. apply H3. reflexivity.
Qed.

Lemma confined_try_catch {A} (body : M A) handler :
  confined env body -> (forall e, confined env (handler e)) ->
  confined env (try_catch body handler).
Proof.
  intros Hm Hf s Hs. specialize (Hm s Hs). unfold try_catch.
  unfold state_of, trace_of, outcome_of in *.
  destruct (body s) as [[[a|e|c] s1] t1]; cbn [fst snd] in *.
  - exact Hm.
  - destruct Hm as [H1 [H2 _]]. specialize (Hf e s1 H1).
    unfold state_of, trace_of, outcome_of in Hf.
    destruct (handler e s1) as [[r s2] t2]. cbn [fst snd] in *.
    destruct Hf as [G1 [G2 G3]]. repeat split; auto. apply Forall_app. auto.
  - exact Hm.
Qed.

Lemma confined_act a : permitted env (Act a) -> confined env (act E a).
Proof.
  intros Ha s Hs. unfold act.
  destruct (perform E a (world s)) as [[[]|e] w];
    unfold state_of, trace_of, outcome_of; cbn;
    (repeat split; [exact Hs|repeat constructor; exact Ha|discriminate]).
Qed.

Lemma confined_ask {A} (query : World -> outcome A) : confined env (ask query : M A).
Proof.
  intros s Hs. unfold ask. destruct (query (world s));
    unfold state_of, trace_of, outcome_of; cbn;
    (repeat split; [exact Hs|constructor|discriminate]).
Qed.

Lemma confined_read {A} (f : World -> A) : confined env (read f : M A).
Proof. pure_step. Qed.

Lemma confined_get {A} (f : St -> A) : confined env (get f : M A).
Proof. pure_step. Qed.

Lemma confined_set_actionType t : confined env (set_actionType t : M unit).
Proof. pure_step. Qed.

Lemma confined_set_actionPerformed b : confined env (set_actionPerformed b : M unit).
Proof. pure_step. Qed.

Lemma confined_set_googleButtonFound b : confined env (set_googleButtonFound b : M unit).
Proof. pure_step. Qed.

Lemma confined_set_browser b :
  (USE_PERSISTENT_CONTEXT env = true -> b = false) ->
  confined env (set_browser b : M unit).
Proof. intros Hb. pure_step. Qed.

Lemma confined_or_else {A} (m : M A) fallback :
  confined env m -> confined env (or_else m fallback).
Proof. intros H. apply confined_try_catch; [exact H|]. intros e. apply confined_ret. Qed.

Lemma confined_lift {A} (o : outcome A) : confined env (lift o : M A).
Proof. destruct o; [apply confined_ret|apply confined_throw]. Qed.

Lemma confined_when b (m : M unit) : confined env m -> confined env (when b m).
Proof. intros H. destruct b; [exact H|apply confined_ret]. Qed.

(** *** Confinement of the pieces of the script *)

Ltac allow :=
  cbn [permitted];
  first [ exact I | reflexivity | lia
        | solve [repeat split; auto; congruence] ].

Ltac confine :=
  repeat first
    [ apply confined_log | apply confined_ret | apply confined_throw
    | apply confined_exit_1 | apply confined_ask | apply confined_read
    | apply confined_get | apply confined_set_actionType
    | apply confined_set_actionPerformed | apply confined_set_googleButtonFound
    | apply confined_lift
    | apply confined_act; allow
    | apply confined_or_else
    | apply confined_when
    | apply confined_try_catch; [|intros ?]
    | apply confined_bind; [|intros ?]
    | match goal with
      | |- confined _ (match ?x with _ => _ end) => destruct x eqn:?
      end ].

Lemma confined_click_and_settle button type selector :
  confined env (click_and_settle E button type selector).
Proof. unfold click_and_settle. confine. Qed.

Lemma confined_try_action_selector selector :
  confined env (try_action_selector E selector).
Proof.
  unfold try_action_selector. confine.
Qed.

Lemma confined_action_loop selectors : confined env (action_loop E selectors).
Proof.
  induction selectors as [|selector rest IH]; cbn [action_loop]; confine.
  exact IH.
Qed.

Lemma confined_google_loop selectors : confined env (google_loop E selectors).
Proof.
  induction selectors as [|selector rest IH]; cbn [google_loop]; confine.
  exact IH.
Qed.

Lemma confined_handleGoogleLogin : confined env (handleGoogleLogin E env).
Proof.
  unfold handleGoogleLogin. confine. apply confined_google_loop.
Qed.

Section Password.

Hypothesis password_mode : USE_GOOGLE_LOGIN env = false.

Lemma confined_email_loop selectors : confined env (email_loop E env selectors).
Proof.
  induction selectors as [|selector rest IH]; cbn [email_loop]; confine. exact IH.
Qed.

Lemma confined_next_loop selectors : confined env (next_loop E selectors).
Proof.
  induction selectors as [|selector rest IH]; cbn [next_loop]; confine. exact IH.
Qed.

Lemma confined_password_loop selectors : confined env (password_loop E env selectors).
Proof.
  induction selectors as [|selector rest IH]; cbn [password_loop]; confine. exact IH.
Qed.

Lemma confined_submit_loop selectors : confined env (submit_loop E selectors).
Proof.
  induction selectors as [|selector rest IH]; cbn [submit_loop]; confine. exact IH.
Qed.

Lemma confined_handlePasswordLogin : confined env (handlePasswordLogin E env).
Proof.
  unfold handlePasswordLogin.
  apply confined_bind; [confine|intros _].
  apply confined_bind; [confine|intros _].
  apply confined_bind; [apply confined_email_loop|intros emailFilled].
  apply confined_bind; [confine|intros _].
  apply confined_bind; [apply confined_next_loop|intros _].
  apply confined_bind; [confine|intros _].
  apply confined_bind; [confine|intros _].
  apply confined_bind; [apply confined_password_loop|intros passwordFilled].
  apply confined_bind; [confine|intros _].
  apply confined_bind; [confine|intros _].
  apply confined_bind; [apply confined_submit_loop|intros submitted].
  confine.
Qed.

End Password.

(** *** Confinement of the steps *)

Lemma confined_validate : confined env (validate E env).
Proof. unfold validate. confine. Qed.

Lemma confined_launch hasSavedState : confined env (launch E env hasSavedState).
Proof.
  unfold launch. apply confined_bind; [confine|intros _].
  destruct (USE_PERSISTENT_CONTEXT env) eqn:Hp.
  - confine. apply confined_set_browser. reflexivity.
  - apply confined_bind; [confine|intros _].
    apply confined_bind; [apply confined_set_browser; congruence|intros _].
    apply confined_bind; [confine|intros _].
    apply confined_bind; [|intros _; confine].
    apply confined_act. cbn [permitted]. destruct hasSavedState; auto.
Qed.

Lemma confined_open_login_page : confined env (open_login_page E env).
Proof. unfold open_login_page. confine. Qed.

Lemma confined_login : confined env (login E env).
Proof.
  unfold login.
  apply confined_bind; [|intros _].
  { destruct (USE_GOOGLE_LOGIN env) eqn:Hg.
    - apply confined_bind; [confine|intros _]. apply confined_handleGoogleLogin.
    - apply confined_bind; [confine|intros _]. apply confined_handlePasswordLogin.
      exact Hg. }
  apply confined_bind; [confine|intros _].
  apply confined_bind; [confine|intros _].
  apply confined_bind; [confine|intros postLoginUrl].
  apply confined_bind; [confine|intros _].
  apply confined_bind; [confine|intros _].
  destruct (USE_PERSISTENT_CONTEXT env) eqn:Hp; cbn [negb]; confine.
Qed.

Lemma confined_login_if_needed : confined env (login_if_needed E env).
Proof.
  unfold login_if_needed.
  apply confined_bind; [confine|intros currentUrl].
  apply confined_bind; [confine|intros _].
  cbv zeta.
  destruct (negb _); [apply confined_login|confine].
Qed.

Lemma confined_open_action_page : confined env (open_action_page E env).
Proof. unfold open_action_page. confine. Qed.

Lemma confined_report : confined env (report E).
Proof. unfold report. confine. Qed.

Lemma confined_resolve_action : confined env (resolve_action E env).
Proof.
  unfold resolve_action.
  apply confined_bind; [unfold announce_selectors; confine|intros _].
  apply confined_bind; [apply confined_action_loop|intros _].
  apply confined_report.
Qed.

Lemma confined_steps : confined env (steps E env).
Proof.
  unfold steps, arrive.
  apply confined_bind; [|intros _].
  { apply confined_bind; [apply confined_validate|intros hasSavedState].
    apply confined_bind; [apply confined_launch|intros _].
    apply confined_open_login_page. }
  apply confined_bind; [apply confined_login_if_needed|intros _].
  apply confined_bind; [apply confined_open_action_page|intros _].
  apply confined_resolve_action.
Qed.

(** *** The error handler, the clean-up and the whole run *)

Lemma confined_try_finally {A} (body : M A) fin :
  confined env body -> confined env fin -> confined env (try_finally body fin).
Proof.
  intros Hm Hf s Hs. specialize (Hm s Hs). unfold try_finally.
  unfold state_of, trace_of, outcome_of in *.
  destruct (body s) as [[r s1] t1]; cbn [fst snd] in *.
  destruct Hm as [H1 [H2 H3]]. specialize (Hf s1 H1).
  unfold state_of, trace_of, outcome_of in Hf.
  destruct r as [a|e|c].
  - destruct (fin s1) as [[[u|e2|c2] s2] t2]; cbn [fst snd] in *;
      destruct Hf as [G1 [G2 G3]]; repeat split; auto;
      try (apply Forall_app; auto); try discriminate.
    intros c' Hc. injection Hc as <-. apply G3. reflexivity.
  - destruct (fin s1) as [[[u|e2|c2] s2] t2]; cbn [fst snd] in *;
      destruct Hf as [G1 [G2 G3]]; repeat split; auto;
      try (apply Forall_app; auto); try discriminate.
    intros c' Hc. injection Hc as <-. apply G3. reflexivity.
  - cbn [fst snd]. repeat split; auto.
Qed.

(** What is guarded by [if (browser)] runs only when no persistent
    context is in use. *)
Lemma confined_get_browser {A} (f : bool -> M A) :
  (forall launched,
      (launched = true -> USE_PERSISTENT_CONTEXT env = false) ->
      confined env (f launched)) ->
  confined env (bind (get browser) f).
Proof.
  intros Hf s Hs. unfold bind, get.
  assert (Hp : browser s = true -> USE_PERSISTENT_CONTEXT env = false).
  { intros Hb. destruct (USE_PERSISTENT_CONTEXT env) eqn:Hp; [|reflexivity].
    unfold browser_unset in Hs. rewrite Hp in Hs.
    specialize (Hs eq_refl). congruence. }
  specialize (Hf (browser s) Hp s Hs). unfold state_of, trace_of, outcome_of in *.
  destruct (f (browser s) s) as [[r s2] t2]. exact Hf.
Qed.

Lemma confined_on_error message : confined env (on_error E message).
Proof.
  unfold on_error.
  apply confined_bind; [confine|intros _].
  apply confined_bind; [confine|intros _].
  apply confined_get_browser. intros launched Hl.
  apply confined_bind; [|intros _; confine].
  destruct launched; cbn [when]; [specialize (Hl eq_refl)|]; confine.
Qed.

Lemma confined_cleanup : confined env (cleanup E).
Proof.
  unfold cleanup. apply confined_get_browser. intros launched Hl.
  destruct launched; cbn [when]; [specialize (Hl eq_refl)|]; confine.
Qed.

Lemma confined_performZohoCheckin : confined env (performZohoCheckin E env).
Proof.
  unfold performZohoCheckin. apply confined_try_finally.
  - apply confined_try_catch; [apply confined_steps|]. apply confined_on_error.
  - apply confined_cleanup.
Qed.

Lemma browser_unset_start w : browser_unset env (start w : @St World).
Proof. intros _. reflexivity. Qed.

(** The error handler always ends the process with code 1. *)
Lemma on_error_exits message (s : @St World) :
  outcome_of (on_error E message s) = Exit 1%Z.
Proof.
  unfold on_error, outcome_of, bind, log, get, when, try_catch, act, read,
    process_exit, ret.
  destruct (browser s); cbn; [|reflexivity].
  destruct (perform E BrowserPages (world s)) as [[[]|e] w1]; cbn; [|reflexivity].
  destruct (browser_pages E w1); cbn; [reflexivity|].
  destruct (perform E (Screenshot _) w1) as [[[]|e] w2]; reflexivity.
Qed.

Lemma Forall_existsb_false {A} (P : A -> Prop) (f : A -> bool) (l : list A) :
  (forall x, P x -> f x = false) -> Forall P l -> existsb f l = false.
Proof.
  intros H HF. induction HF as [|x l Hx _ IH]; cbn; [reflexivity|].
  rewrite (H x Hx), IH. reflexivity.
Qed.

(** How the main block ends, from how [performZohoCheckin] ends. *)
Lemma main_eq (s : @St World) :
  main E env s =
    match performZohoCheckin E env s with
    | (Ok _, s1, t1) =>
        (Exit 0%Z, s1, t1 ++ [Logged INFO "Script execution completed"%string])
    | (Throw e, s1, t1) =>
        (Exit 1%Z, s1, t1 ++ [Logged ERROR ("Fatal error: " ++ e)%string])
    | (Exit c, s1, t1) => (Exit c, s1, t1)
    end.
Proof.
  unfold main, try_catch, bind, log, process_exit.
  destruct (performZohoCheckin E env s) as [[[u|e|c] s1] t1]; reflexivity.
Qed.

Lemma run_confined w :
  Forall (permitted env) (trace_of (run E env w)) /\
  (outcome_of (run E env w) = Exit 0%Z \/ outcome_of (run E env w) = Exit 1%Z).
Proof.
  unfold run. rewrite main_eq.
  pose proof (confined_performZohoCheckin (start w) (browser_unset_start w)) as H.
  unfold state_of, trace_of, outcome_of in *.
  destruct (performZohoCheckin E env (start w)) as [[[u|e|c] s1] t1];
    cbn [fst snd] in *; destruct H as [_ [H2 H3]].
  - split; [|left; reflexivity]. apply Forall_app. split; [exact H2|].
    repeat constructor.
  - split; [|right; reflexivity]. apply Forall_app. split; [exact H2|].
    repeat constructor.
  - split; [exact H2|]. right. rewrite (H3 c eq_refl). reflexivity.
Qed.

(** X8. The script run as the main module always ends the process, with
    exit code 0 or 1: it never returns and no error escapes it. The code
    is 0 exactly when the steps of [performZohoCheckin] complete without
    an error and the closing of the browser is not rejected. *)
Theorem run_exits_with_0_or_1 w :
  (outcome_of (run E env w) = Exit 0%Z \/ outcome_of (run E env w) = Exit 1%Z) /\
  (outcome_of (run E env w) = Exit 0%Z <->
   exists s1 t1,
     steps E env (start w) = (Ok tt, s1, t1) /\
     outcome_of (cleanup E s1) = Ok tt).
Proof.
  split; [apply run_confined|].
  unfold run. rewrite main_eq. unfold performZohoCheckin, try_finally, try_catch.
  pose proof (confined_steps (start w) (browser_unset_start w)) as H.
  unfold state_of, trace_of, outcome_of in *.
  destruct (steps E env (start w)) as [[[[]|e|c] s1] t1]; cbn [fst snd] in *;
    destruct H as [H1 [_ H3]].
  - pose proof (confined_cleanup s1 H1) as G.
    unfold state_of, trace_of, outcome_of in G.
    destruct (cleanup E s1) as [[[[]|e2|c2] s2] t2] eqn:Hc; cbn [fst snd] in *.
    + split; [intros _|reflexivity]. exists s1, t1. rewrite Hc. split; reflexivity.
    + split; [discriminate|]. intros [s' [t' [Hs Hk]]].
      injection Hs as <- <-. rewrite Hc in Hk. discriminate.
    + destruct G as [_ [_ G3]]. rewrite (G3 c2 eq_refl).
      split; [discriminate|]. intros [s' [t' [Hs Hk]]].
      injection Hs as <- <-. rewrite Hc in Hk. discriminate.
  - pose proof (on_error_exits e s1) as G. unfold outcome_of in G.
    destruct (on_error E e s1) as [[r s2] t2]. cbn [fst snd] in G. subst r.
    cbn [fst snd]. split; [discriminate|]. intros [s' [t' [Hs _]]]. discriminate.
  - rewrite (H3 c eq_refl). split; [discriminate|].
    intros [s' [t' [Hs _]]]. discriminate.
Qed.

(** X9. Whatever the pages show and whatever the engine rejects, every
    event of a run is permitted by the configuration: the only addresses
    opened are the login address and the action-page address, with a 30 s
    timeout; the only values typed are the configured identifier and
    password, and the only key pressed is Enter, both in password mode
    only; every screenshot goes under [logs/]; the session state is only
    written to the fixed state file; no pause is longer than 60 s and no
    selector is awaited longer than 10 s. *)
Theorem run_is_confined w : Forall (permitted env) (trace_of (run E env w)).
Proof. apply run_confined. Qed.

(** X10. In OAuth mode the run types nothing: no field is filled and no
    key is pressed, so neither the identifier nor the password is ever
    sent to the page. *)
Theorem oauth_run_types_nothing w :
  USE_GOOGLE_LOGIN env = true ->
  existsb types (trace_of (run E env w)) = false.
Proof.
  intros Hg. apply (Forall_existsb_false (permitted env)); [|apply run_confined].
  intros [a|lvl msg] Hx; [|reflexivity].
  destruct a; try reflexivity; unfold permitted in Hx; destruct Hx as [Hx _];
    congruence.
Qed.

(** X11. With the persistent context in use the variable [browser] stays
    [null] throughout, so what is guarded by it never runs: no plain
    launch, no new context, no saving of the session state, no listing of
    the browser's pages and no closing of the browser. *)
Theorem persistent_run_never_closes w :
  USE_PERSISTENT_CONTEXT env = true ->
  existsb plain_browser_only (trace_of (run E env w)) = false.
Proof.
  intros Hp. apply (Forall_existsb_false (permitted env)); [|apply run_confined].
  intros [a|lvl msg] Hx; [|reflexivity].
  destruct a; try reflexivity; unfold permitted in Hx;
    try (apply proj1 in Hx); congruence.
Qed.

(** X12. Once the identifier is configured the configuration checks
    never stop the run: they only log, and hand on whether the saved
    state file exists. The branch that reports a missing password cannot
    be reached, because a missing password switches the run to OAuth
    mode. *)
Theorem checks_pass_once_identifier_is_set (s : @St World) :
  JS.truthy_opt (ZOHO_EMAIL env) = true ->
  exists t,
    validate E env s =
      (Ok (existsSync E (world s) (STORAGE_STATE_PATH env)), s, t) /\
    existsb is_act t = false.
Proof.
  intros H. unfold validate, bind, when, read, log, ret, process_exit.
  rewrite H. cbn [negb].
  destruct (existsSync E (world s) (STORAGE_STATE_PATH env)).
  - destruct (useHeadless env); cbn; eexists; split; reflexivity.
  - destruct (USE_GOOGLE_LOGIN env) eqn:Hg.
    + destruct (useHeadless env); cbn; eexists; split; reflexivity.
    + assert (Hp : JS.truthy_opt (ZOHO_PASSWORD env) = true).
      { unfold USE_GOOGLE_LOGIN in Hg. apply orb_false_iff in Hg.
        destruct Hg as [_ Hg]. apply negb_false_iff in Hg. exact Hg. }
      rewrite Hp. cbn [negb].
      destruct (useHeadless env); cbn; eexists; split; reflexivity.
Qed.

(** X13. When a step of [performZohoCheckin] throws, the run logs the
    error and its stack, may try the error screenshot, and exits with
    code 1 from inside the [catch]: the [finally] block is not reached,
    so the browser is not closed by the script. *)
Theorem failed_step_exits_without_closing w e s1 t1 :
  steps E env (start w) = (Throw e, s1, t1) ->
  exists s2 shot,
    run E env w =
      (Exit 1%Z, s2,
       t1 ++ Logged ERROR ("Error during automation: " ++ e)%string ::
             Logged ERROR ("Stack trace: " ++ stack E e)%string :: shot) /\
    existsb closes shot = false.
Proof.
  intros H. unfold run. rewrite main_eq.
  unfold performZohoCheckin, try_finally, try_catch. rewrite H.
  unfold on_error, bind, log, get, when, try_catch, act, read, process_exit, ret.
  destruct (browser s1); cbn; [|eexists; eexists; split; reflexivity].
  destruct (perform E BrowserPages (world s1)) as [[[]|e1] w1]; cbn;
    [|eexists; eexists; split; reflexivity].
  destruct (browser_pages E w1); cbn; [eexists; eexists; split; reflexivity|].
  destruct (perform E (Screenshot _) w1) as [[[]|e2] w2]; cbn;
    eexists; eexists; split; reflexivity.
Qed.

(** *** The password login *)

Lemma bind_Ok_inv {A B} (m : M A) (f : A -> M B) s b s' t :
  bind m f s = (Ok b, s', t) ->
  exists a s1 t1 t2,
    m s = (Ok a, s1, t1) /\ f a s1 = (Ok b, s', t2) /\ t = t1 ++ t2.
Proof.
  unfold bind. destruct (m s) as [[[a|e|c] s1] t1]; try discriminate.
  destruct (f a s1) as [[r s2] t2] eqn:Hf. intros H. injection H as -> -> <-.
  exists a, s1, t1, t2. auto.
Qed.

Lemma when_throw_Ok (b : bool) message (s s' : @St World) t :
  when (negb b) (throw message : M unit) s = (Ok tt, s', t) ->
  b = true /\ s' = s /\ t = [].
Proof.
  destruct b; cbn; intros H; [|discriminate].
  injection H as <- <-. auto.
Qed.

Lemma world_after_app (t1 t2 : list (event Handle)) : forall w,
  world_after E (t1 ++ t2) w = world_after E t2 (world_after E t1 w).
Proof.
  induction t1 as [|[a|lvl msg] t1 IH]; intros w; cbn [app world_after]; auto.
Qed.

Lemma fulfilled_app (t1 t2 : list (event Handle)) : forall w,
  fulfilled E (t1 ++ t2) w = fulfilled E t1 w ++ fulfilled E t2 (world_after E t1 w).
Proof.
  induction t1 as [|[a|lvl msg] t1 IH]; intros w; cbn [app world_after fulfilled]; auto.
  destruct (perform E a w) as [[u|e] w1]; cbn [snd app]; rewrite IH; reflexivity.
Qed.

(** Orderliness, statement by statement. *)

Ltac orderly_step :=
  intros s; unfold state_of, trace_of, outcome_of; cbn;
  split; [reflexivity|intros c; discriminate].

Lemma orderly_ret {A} (a : A) : orderly E (ret a : M A).
Proof. orderly_step. Qed.

Lemma orderly_throw {A} message : orderly E (throw message : M A).
Proof. orderly_step. Qed.

Lemma orderly_log msg lvl : orderly E (log msg lvl : M unit).
Proof. orderly_step. Qed.

Lemma orderly_read {A} (f : World -> A) : orderly E (read f : M A).
Proof. orderly_step. Qed.

Lemma orderly_get {A} (f : St -> A) : orderly E (get f : M A).
Proof. orderly_step. Qed.

Lemma orderly_ask {A} (query : World -> outcome A) : orderly E (ask query : M A).
Proof.
  intros s. unfold ask, state_of, trace_of, outcome_of.
  destruct (query (world s)); cbn; (split; [reflexivity|intros c; discriminate]).
Qed.

Lemma orderly_act a : orderly E (act E a).
Proof.
  intros s. unfold act, state_of, trace_of, outcome_of.
  destruct (perform E a (world s)) as [[[]|e] w] eqn:P; cbn; rewrite P;
    (split; [reflexivity|intros c; discriminate]).
Qed.

Lemma orderly_bind {A B} (m : M A) (f : A -> M B) :
  orderly E m -> (forall a, orderly E (f a)) -> orderly E (bind m f).
Proof.
  intros Hm Hf s. specialize (Hm s). unfold bind.
  unfold state_of, trace_of, outcome_of in *.
  destruct (m s) as [[[a|e|c] s1] t1]; cbn [fst snd] in *.
  - destruct Hm as [H1 _]. specialize (Hf a s1).
    unfold state_of, trace_of, outcome_of in Hf.
    destruct (f a s1) as [[r s2] t2]. cbn [fst snd] in *.
    destruct Hf as [G1 G2]. split; [|exact G2].
    rewrite world_after_app, <- H1. exact G1.
  - split; [apply Hm|intros c; discriminate].
  - destruct Hm as [_ H2]. exfalso. exact (H2 c eq_refl).
Qed.

Lemma orderly_try_catch {A} (body : M A) handler :
  orderly E body -> (forall e, orderly E (handler e)) ->
  orderly E (try_catch body handler).
Proof.
  intros Hm Hf s. specialize (Hm s). unfold try_catch.
  unfold state_of, trace_of, outcome_of in *.
  destruct (body s) as [[[a|e|c] s1] t1]; cbn [fst snd] in *.
  - exact Hm.
  - destruct Hm as [H1 _]. specialize (Hf e s1).
    unfold state_of, trace_of, outcome_of in Hf.
    destruct (handler e s1) as [[r s2] t2]. cbn [fst snd] in *.
    destruct Hf as [G1 G2]. split; [|exact G2].
    rewrite world_after_app, <- H1. exact G1.
  - exact Hm.
Qed.

Lemma orderly_when b (m : M unit) : orderly E m -> orderly E (when b m).
Proof. intros H. destruct b; [exact H|apply orderly_ret]. Qed.

Ltac order :=
  repeat first
    [ apply orderly_log | apply orderly_ret | apply orderly_throw
    | apply orderly_ask | apply orderly_read | apply orderly_get
    | apply orderly_act
    | apply orderly_when
    | apply orderly_try_catch; [|intros ?]
    | apply orderly_bind; [|intros ?]
    | match goal with
      | |- orderly _ (match ?x with _ => _ end) => destruct x
      end ].

Lemma orderly_email_loop selectors : orderly E (email_loop E env selectors).
Proof.
  induction selectors as [|selector rest IH]; cbn [email_loop]; order. exact IH.
Qed.

Lemma orderly_next_loop selectors : orderly E (next_loop E selectors).
Proof.
  induction selectors as [|selector rest IH]; cbn [next_loop]; order. exact IH.
Qed.

Lemma orderly_password_loop selectors : orderly E (password_loop E env selectors).
Proof.
  induction selectors as [|selector rest IH]; cbn [password_loop]; order. exact IH.
Qed.

Lemma orderly_submit_loop selectors : orderly E (submit_loop E selectors).
Proof.
  induction selectors as [|selector rest IH]; cbn [submit_loop]; order. exact IH.
Qed.

Lemma orderly_handlePasswordLogin : orderly E (handlePasswordLogin E env).
Proof.
  unfold handlePasswordLogin.
  apply orderly_bind; [order|intros _].
  apply orderly_bind; [order|intros _].
  apply orderly_bind; [apply orderly_email_loop|intros emailFilled].
  apply orderly_bind; [order|intros _].
  apply orderly_bind; [apply orderly_next_loop|intros _].
  apply orderly_bind; [order|intros _].
  apply orderly_bind; [order|intros _].
  apply orderly_bind; [apply orderly_password_loop|intros passwordFilled].
  apply orderly_bind; [order|intros _].
  apply orderly_bind; [order|intros _].
  apply orderly_bind; [apply orderly_submit_loop|intros submitted].
  order.
Qed.

(** What a sequence has had fulfilled is what its first part has had
    fulfilled, then what the rest has had fulfilled in the world the
    first part left. *)
Lemma bind_Ok_fulfilled {A B} (m : M A) (f : A -> M B) s b s' t :
  orderly E m ->
  bind m f s = (Ok b, s', t) ->
  exists a s1 t1 t2,
    m s = (Ok a, s1, t1) /\ f a s1 = (Ok b, s', t2) /\
    fulfilled E t (world s) = fulfilled E t1 (world s) ++ fulfilled E t2 (world s1).
Proof.
  intros Ho H. apply bind_Ok_inv in H. destruct H as (a & s1 & t1 & t2 & Hm & Hf & ->).
  exists a, s1, t1, t2. split; [exact Hm|]. split; [exact Hf|].
  rewrite fulfilled_app. destruct (Ho s) as [Hw _]. rewrite Hm in Hw.
  unfold state_of, trace_of in Hw. cbn [fst snd] in Hw. rewrite Hw. reflexivity.
Qed.

(** A loop that reports a filled field ends on a fill that the engine
    fulfilled. *)
Lemma email_loop_fulfilled selectors : forall s s' t,
  email_loop E env selectors s = (Ok true, s', t) ->
  exists f pre, fulfilled E t (world s) = pre ++ [Fill f (ZOHO_EMAIL env)].
Proof.
  induction selectors as [|selector rest IH]; intros s s' t H; cbn [email_loop] in H.
  - discriminate.
  - match type of H with
    | bind ?m _ _ = _ => assert (Ho : orderly E m) by order
    end.
    apply (bind_Ok_fulfilled _ _ _ _ _ _ Ho) in H.
    destruct H as (filled & s1 & t1 & t2 & H1 & H2 & ->).
    destruct filled.
    + injection H2 as _ <-. cbn [fulfilled]. rewrite app_nil_r.
      unfold try_catch, bind, ask, act, log, ret in H1.
      destruct (page_query E (world s) selector) as [[h|]|e]; cbn in H1;
        try discriminate.
      destruct (perform E (Fill h (ZOHO_EMAIL env)) (world s)) as [[[]|e] w] eqn:P;
        cbn in H1; try discriminate.
      injection H1 as _ <-. exists h, []. cbn [fulfilled app]. rewrite P. reflexivity.
    + destruct (IH _ _ _ H2) as (f & pre & ->).
      exists f, (fulfilled E t1 (world s) ++ pre). rewrite app_assoc. reflexivity.
Qed.

Lemma password_loop_fulfilled selectors : forall s s' t,
  password_loop E env selectors s = (Ok true, s', t) ->
  exists f pre, fulfilled E t (world s) = pre ++ [Fill f (ZOHO_PASSWORD env)].
Proof.
  induction selectors as [|selector rest IH]; intros s s' t H; cbn [password_loop] in H.
  - discriminate.
  - match type of H with
    | bind ?m _ _ = _ => assert (Ho : orderly E m) by order
    end.
    apply (bind_Ok_fulfilled _ _ _ _ _ _ Ho) in H.
    destruct H as (filled & s1 & t1 & t2 & H1 & H2 & ->).
    destruct filled.
    + injection H2 as _ <-. cbn [fulfilled]. rewrite app_nil_r.
      unfold try_catch, bind, ask, act, log, ret in H1.
      destruct (page_query E (world s) selector) as [[h|]|e]; cbn in H1;
        try discriminate.
      destruct (isVisible E (world s) h) as [[|]|e]; cbn in H1; try discriminate.
      destruct (perform E (Fill h (ZOHO_PASSWORD env)) (world s)) as [[[]|e] w] eqn:P;
        cbn in H1; try discriminate.
      injection H1 as _ <-. exists h, []. cbn [fulfilled app]. rewrite P. reflexivity.
    + destruct (IH _ _ _ H2) as (f & pre & ->).
      exists f, (fulfilled E t1 (world s) ++ pre). rewrite app_assoc. reflexivity.
Qed.

Lemma submit_loop_fulfilled selectors : forall s s' t,
  submit_loop E selectors s = (Ok true, s', t) ->
  exists b, In (Click b) (fulfilled E t (world s)).
Proof.
  induction selectors as [|selector rest IH]; intros s s' t H; cbn [submit_loop] in H.
  - discriminate.
  - match type of H with
    | bind ?m _ _ = _ => assert (Ho : orderly E m) by order
    end.
    apply (bind_Ok_fulfilled _ _ _ _ _ _ Ho) in H.
    destruct H as (done & s1 & t1 & t2 & H1 & H2 & ->).
    destruct done.
    + unfold try_catch, bind, ask, act, log, ret in H1.
      destruct (page_query E (world s) selector) as [[h|]|e]; cbn in H1;
        try discriminate.
      destruct (isVisible E (world s) h) as [[|]|e]; cbn in H1; try discriminate.
      destruct (perform E (Click h) (world s)) as [[[]|e] w] eqn:P;
        cbn in H1; try discriminate.
      injection H1 as _ <-. exists h. cbn [fulfilled app]. rewrite P.
      left. reflexivity.
    + destruct (IH _ _ _ H2) as (b & Hb).
      exists b. apply in_or_app. right. exact Hb.
Qed.

(** X14. The password login either returns normally or throws: it never
    ends the process. It returns normally only after the engine has
    fulfilled a fill of a field with the identifier, later a fill of a
    field with the password, and after that either a click on a submit
    control or the pressing of Enter; a fill or a click that the engine
    rejected does not count. *)
Theorem password_login_returns_only_after_typing_both (s : @St World) :
  (outcome_of (handlePasswordLogin E env s) = Ok tt \/
   exists message, outcome_of (handlePasswordLogin E env s) = Throw message) /\
  (outcome_of (handlePasswordLogin E env s) = Ok tt ->
   exists f1 f2 before between rest,
     fulfilled E (trace_of (handlePasswordLogin E env s)) (world s) =
       before ++ Fill f1 (ZOHO_EMAIL env) ::
       between ++ Fill f2 (ZOHO_PASSWORD env) :: rest /\
     ((exists b, In (Click b) rest) \/ In (KeyboardPress "Enter") rest)).
Proof.
  split.
  { destruct (orderly_handlePasswordLogin s) as [_ Hx]. unfold outcome_of in *.
    destruct (handlePasswordLogin E env s) as [[[[]|e|c] s'] t]; cbn [fst] in *.
    - left. reflexivity.
    - right. exists e. reflexivity.
    - exfalso. exact (Hx c eq_refl). }
  unfold outcome_of, trace_of.
  destruct (handlePasswordLogin E env s) as [[r s'] t] eqn:H. cbn [fst snd].
  intros ->. unfold handlePasswordLogin in H.
  apply bind_Ok_fulfilled in H; [|order].
  destruct H as ([] & sa & ta & t0 & _ & H & ->).
  apply bind_Ok_fulfilled in H; [|order].
  destruct H as ([] & sb & tb & t1 & _ & H & ->).
  apply bind_Ok_fulfilled in H; [|apply orderly_email_loop].
  destruct H as (emailFilled & sc & tc & t2 & He & H & ->).
  apply bind_Ok_fulfilled in H; [|order].
  destruct H as ([] & sd & td & t3 & Hw1 & H & ->).
  apply when_throw_Ok in Hw1. destruct Hw1 as (-> & -> & ->).
  apply bind_Ok_fulfilled in H; [|apply orderly_next_loop].
  destruct H as ([] & se & te & t4 & _ & H & ->).
  apply bind_Ok_fulfilled in H; [|order].
  destruct H as ([] & sf & tf & t5 & _ & H & ->).
  apply bind_Ok_fulfilled in H; [|order].
  destruct H as ([] & sg & tg & t6 & _ & H & ->).
  apply bind_Ok_fulfilled in H; [|apply orderly_password_loop].
  destruct H as (passwordFilled & sh & th & t7 & Hp & H & ->).
  apply bind_Ok_fulfilled in H; [|order].
  destruct H as ([] & si & ti & t8 & Hw2 & H & ->).
  apply when_throw_Ok in Hw2. destruct Hw2 as (-> & -> & ->).
  apply bind_Ok_fulfilled in H; [|order].
  destruct H as ([] & sj & tj & t9 & _ & H & ->).
  apply bind_Ok_fulfilled in H; [|apply orderly_submit_loop].
  destruct H as (submitted & sk & tk & t10 & Hs & H & ->).
  destruct (email_loop_fulfilled _ _ _ _ He) as (f1 & pre1 & ->).
  destruct (password_loop_fulfilled _ _ _ _ Hp) as (f2 & pre2 & ->).
  cbn [fulfilled app].
  exists f1, f2, (fulfilled E ta (world s) ++ fulfilled E tb (world sa) ++ pre1),
    (fulfilled E te (world sc) ++ fulfilled E tf (world se) ++
     fulfilled E tg (world sf) ++ pre2),
    (fulfilled E tj (world sh) ++ fulfilled E tk (world sj) ++
     fulfilled E t10 (world sk)).
  split.
  - repeat (rewrite <- ?app_assoc; cbn [app]). reflexivity.
  - destruct submitted.
    + destruct (submit_loop_fulfilled _ _ _ _ Hs) as (b & Hb). left. exists b.
      apply in_or_app. right. apply in_or_app. left. exact Hb.
    + right. cbn [negb when] in H.
      apply bind_Ok_inv in H. destruct H as ([] & sl & tl & t11 & Hk & Hlog & ->).
      unfold act in Hk.
      destruct (perform E (KeyboardPress "Enter") (world sk)) as [[[]|e] w] eqn:P;
        [|discriminate].
      injection Hk as _ <-.
      apply in_or_app. right. apply in_or_app. right.
      cbn [app fulfilled]. rewrite P. left. reflexivity.
Qed.

(** *** The login step *)

Lemma run_read {A B} (g : World -> A) (f : A -> M B) s :
  bind (read g) f s = f (g (world s)) s.
Proof. unfold bind, read. destruct (f _ s) as [[r s2] t2]. reflexivity. Qed.

Lemma bind_Ok_after {A B} (m : M A) (f : A -> M B) s a s1 t1 :
  m s = (Ok a, s1, t1) -> bind m f s = after t1 (f a s1).
Proof. intros H. rewrite (bind_Ok _ _ _ _ _ _ H). reflexivity. Qed.

(** The saving of the session state never fails the run. *)
Lemma save_state_returns (s : @St World) :
  outcome_of
    ((if negb (USE_PERSISTENT_CONTEXT env) then
        try_catch
          (bind (act E (StorageState (STORAGE_STATE_PATH env)))
                (fun _ => log "Authentication state saved for future use" INFO))
          (fun message =>
             log ("Warning: Could not save authentication state: " ++ message) ERROR)
      else
        log "Using persistent context - session (including Google login) will be automatically saved" INFO)
       s) = Ok tt.
Proof.
  destruct (USE_PERSISTENT_CONTEXT env); cbn [negb]; [reflexivity|].
  unfold try_catch, bind, act, log, outcome_of.
  destruct (perform E (StorageState _) (world s)) as [[[]|e] w]; reflexivity.
Qed.

(** X15. When the login handler has returned and the page is still a
    login page five seconds later, the login step takes the screenshot
    [logs/login-failed.png] and then depends on the mode alone: in OAuth
    mode with the browser shown it waits 60 s and goes on to save the
    session without looking at the address again; in password mode, or
    without a window, it throws. *)
Theorem login_on_a_persisting_login_page (s s1 : @St World) t1 :
  actions_succeed E ->
  (if USE_GOOGLE_LOGIN env then handleGoogleLogin E env else handlePasswordLogin E env) s
    = (Ok tt, s1, t1) ->
  on_login_page (page_url E (snd (perform E (WaitForTimeout 5000) (world s1)))) = true ->
  exists banner s' tail,
    login E env s =
      ((if USE_GOOGLE_LOGIN env && negb (useHeadless env) then Ok tt
        else Throw "Login failed or requires additional authentication"),
       s',
       Logged INFO banner :: t1 ++
       [Logged INFO "Waiting for login to complete..."%string;
        Act (WaitForTimeout 5000);
        Logged INFO ("URL after login attempt: " ++
                     page_url E (snd (perform E (WaitForTimeout 5000) (world s1))))%string;
        Logged ERROR "Still on login page. Login may have failed."%string;
        Act (Screenshot "logs/login-failed.png")] ++ tail) /\
    (if USE_GOOGLE_LOGIN env && negb (useHeadless env) then
       exists saved,
         tail =
           Logged INFO "Please complete the Google login manually in the browser window."%string ::
           Logged INFO "Waiting 60 seconds for manual login..."%string ::
           Act (WaitForTimeout 60000) :: saved
     else tail = []).
Proof.
  intros Hact Hh Hl.
  assert (Hfirst : exists banner,
            (if USE_GOOGLE_LOGIN env
             then bind (log "Attempting Google OAuth login..." INFO)
                       (fun _ => handleGoogleLogin E env)
             else bind (log "Attempting password login..." INFO)
                       (fun _ => handlePasswordLogin E env)) s
            = (Ok tt, s1, Logged INFO banner :: t1)).
  { destruct (USE_GOOGLE_LOGIN env); eexists; rewrite run_log, Hh; reflexivity. }
  destruct Hfirst as [banner Hfirst]. exists banner.
  unfold login. rewrite (bind_Ok_after _ _ _ _ _ _ Hfirst).
  rewrite run_log, run_act by apply Hact.
  set (w2 := snd (perform E (WaitForTimeout 5000) (world s1))) in *.
  rewrite run_read. cbn [world with_world]. rewrite run_log. rewrite Hl. cbn [when].
  rewrite bind_assoc, run_log. rewrite bind_assoc, run_act by apply Hact.
  cbn [world with_world].
  destruct (USE_GOOGLE_LOGIN env && negb (useHeadless env)).
  - rewrite bind_assoc, run_log. rewrite bind_assoc, run_log.
    rewrite run_act by apply Hact.
    match goal with
    | |- context [after [Act (WaitForTimeout 60000)] (?m ?st)] =>
        pose proof (save_state_returns st) as Hsave;
        destruct (m st) as [[r sf] tf]
    end.
    unfold outcome_of in Hsave. cbn [fst] in Hsave. subst r.
    rewrite !after_pair. exists sf.
    exists (Logged INFO "Please complete the Google login manually in the browser window."%string ::
            Logged INFO "Waiting 60 seconds for manual login..."%string ::
            Act (WaitForTimeout 60000) :: tf).
    split; [reflexivity|]. exists tf. reflexivity.
  - unfold bind at 1. unfold throw. rewrite !after_pair.
    eexists. exists []. split; reflexivity.
Qed.

(** *** The OAuth login *)

Lemma run_set_googleButtonFound {B} b (f : unit -> M B) s :
  bind (set_googleButtonFound b) f s =
    f tt (mkSt (world s) (browser s) (actionPerformed s) (actionType s) b).
Proof. unfold bind, set_googleButtonFound. destruct (f tt _) as [[r s2] t2]. reflexivity. Qed.



Lemma handleGoogleLogin_banner :
  exists banner,
    (match custom (env_GOOGLE_LOGIN_SELECTORS env) with
     | Some l => log ("Using custom Google login selectors: " ++ JS.join ", " l)%string INFO
     | None => log "Using default Google login selectors" INFO
     end : M unit) = log banner INFO.
Proof. destruct (custom (env_GOOGLE_LOGIN_SELECTORS env)); eexists; reflexivity. Qed.


(** X17. When no OAuth control is visible and [HEADED] is 'true', the
    handler takes the screenshot, waits 60 s for a manual click, then
    waits its 10 s and returns normally, whatever [HEADLESS] says,
    provided the engine rejects no action. *)
Theorem oauth_login_waits_when_HEADED (s : @St World) :
  JS.strict_eq (env_HEADED env) "true" = true ->
  none_visible_oauth E (googleButtonSelectors env) (world s) ->
  actions_succeed E ->
  exists s' scan,
    handleGoogleLogin E env s =
      (Ok tt, s',
       scan ++
       [Logged ERROR "Could not find Google login button. Taking screenshot for debugging..."%string;
        Act (Screenshot "logs/google-button-not-found.png");
        Logged INFO "Screenshot saved to logs/google-button-not-found.png for debugging"%string;
        Logged INFO "Running in headed mode - please click Google login button manually"%string;
        Logged INFO "Waiting 60 seconds for manual click..."%string;
        Act (WaitForTimeout 60000);
        Logged INFO "Waiting for Google OAuth authentication to complete..."%string;
        Act (WaitForTimeout 10000)]) /\
    untouched scan.
Proof.
  intros Hheaded Hnone Hact.
  set (s1 := mkSt (world s) (browser s) (actionPerformed s) (actionType s) false).
  destruct (google_loop_no_match E (googleButtonSelectors env) s1 Hnone)
    as [scan [Hloop Hscan]].
  set (s2 := with_world s1 (paused E (googleButtonSelectors env) (world s1))) in *.
  destruct handleGoogleLogin_banner as [banner Hbanner].
  unfold handleGoogleLogin. rewrite Hbanner.
  rewrite run_log, run_log, run_set_googleButtonFound. fold s1.
  rewrite (bind_Ok_after _ _ _ _ _ _ Hloop).
  unfold bind at 1. unfold get at 1. cbn [googleButtonFound with_world s2 s1 negb when].
  rewrite !bind_assoc, run_log. rewrite bind_assoc, run_act by apply Hact.
  rewrite bind_assoc, run_log. rewrite Hheaded. cbn [negb].
  rewrite bind_assoc, run_log. rewrite bind_assoc, run_log.
  rewrite run_act by apply Hact. rewrite run_log.
  match goal with
  | |- context [act E (WaitForTimeout 10000) ?st] =>
      pose proof (Hact (WaitForTimeout 10000) (world st)) as Hw; unfold act;
      destruct (perform E (WaitForTimeout 10000) (world st)) as [o w3]
  end.
  cbn [fst] in Hw. subst o. rewrite !after_pair.
  eexists.
  exists ([Logged INFO "Looking for Google login button..."%string; Logged INFO banner]
            ++ scan).
  split.
  - reflexivity.
  - constructor; [reflexivity|]. constructor; [reflexivity|]. exact Hscan.
Qed.

(** *** The run that finds its control *)

Lemma action_loop_first_visible_typed pre selector post h label : forall s,
  actions_succeed E ->
  none_visible E pre (world s) ->
  visible_match E
    (snd (perform E (WaitForSelector selector 10000) (waited E pre (world s)))) selector
    = Some h ->
  label_read E
    (snd (perform E (WaitForSelector selector 10000) (waited E pre (world s)))) h
    = Some label ->
  exists s' skipped turn,
    action_loop E (pre ++ selector :: post) s = (Ok tt, s', skipped ++ turn) /\
    untouched skipped /\
    In (Act (Click h)) turn /\
    (forall h', In (Act (Click h')) turn -> h' = h) /\
    actionPerformed s' = true /\
    (actionType s' = "check-in"%string \/ actionType s' = "check-out"%string).
Proof.
  induction pre as [|p pre IH]; intros s Hact Hnone Hv Hl.
  - cbn [waited app] in *.
    destruct (try_action_selector_match E selector s h label Hact Hv Hl)
      as [type [s' [newText [Hc [Hrun [Ht Hp]]]]]].
    destruct (classify_labelled
                (text_read E (snd (perform E (WaitForSelector selector 10000) (world s))) h)
                label) as [type' [Hc' Hor]].
    rewrite Hc in Hc'. injection Hc' as <-.
    exists s', []. eexists. cbn [action_loop app].
    rewrite (bind_Ok _ _ _ _ _ _ Hrun). cbn [app].
    split; [reflexivity|].
    split; [constructor|]. split; [cbn; tauto|].
    split; [|split; [exact Hp|rewrite Ht; exact Hor]].
    intros h' Hin. cbn in Hin.
    repeat (destruct Hin as [Hin|Hin];
            [try discriminate; try (injection Hin as <-; reflexivity)|]).
    destruct Hin.
  - cbn [none_visible] in Hnone. destruct Hnone as [Hsel Hrest].
    destruct (try_action_selector_no_match E p s Hsel) as [t1 [E1 U1]].
    set (w1 := snd (perform E (WaitForSelector p 10000) (world s))) in *.
    destruct (IH (with_world s w1) Hact Hrest Hv Hl)
      as [s' [skipped [turn [Hrun [Hu [Hc [Honly [Hp Hty]]]]]]]].
    exists s', (t1 ++ skipped), turn. cbn [app action_loop].
    rewrite (bind_Ok _ _ _ _ _ _ E1), Hrun.
    split; [rewrite app_assoc; reflexivity|].
    split; [apply Forall_app; split; assumption|]. auto 10.
Qed.

Lemma report_performed (s : @St World) :
  actionPerformed s = true ->
  actions_succeed E ->
  exists w' stamp,
    report E s =
      (Ok tt, with_world s w',
       [Logged INFO (actionType s ++ " action completed successfully!")%string;
        Act (Screenshot ("logs/zoho-checkin-" ++ stamp ++ ".png")%string);
        Logged INFO ("Screenshot saved to logs/zoho-checkin-" ++ stamp ++ ".png")%string;
        Logged INFO "Zoho check-in automation completed successfully"%string]).
Proof.
  intros Hp Hact.
  unfold report, bind, get, read, log, act. rewrite Hp. cbn [negb fst snd app].
  set (stamp := dashes (toISOString E (world s))).
  pose proof (Hact (Screenshot ("logs/zoho-checkin-" ++ stamp ++ ".png")%string) (world s)) as H2.
  destruct (perform E (Screenshot ("logs/zoho-checkin-" ++ stamp ++ ".png")%string) (world s))
    as [o2 w2].
  cbn [fst] in H2. subst o2. exists w2, stamp. reflexivity.
Qed.

Lemma touches_click (h : Handle) (tr : list (event Handle)) :
  untouched tr -> ~ In (Act (Click h)) tr.
Proof.
  intros Hu Hin. unfold untouched in Hu. rewrite Forall_forall in Hu.
  specialize (Hu _ Hin). discriminate.
Qed.

(** X18. The whole run on a page that shows the control: when the run
    reaches the action page and the first selector with a visible match
    yields an element whose label is read as a string, the run clicks
    that element and no other from there on, records a class that is
    check-in or check-out, logs the completed action instead of the
    not-found error, and exits with code 0, provided the engine rejects
    no action. *)
Theorem run_clicks_the_control_and_exits_0
  (w : World) (s : @St World) t0 pre selector post h label :
  actions_succeed E ->
  reach_action_page E env (start w) = (Ok tt, s, t0) ->
  actionSelectors env = pre ++ selector :: post ->
  none_visible E pre (world s) ->
  visible_match E
    (snd (perform E (WaitForSelector selector 10000) (waited E pre (world s)))) selector
    = Some h ->
  label_read E
    (snd (perform E (WaitForSelector selector 10000) (waited E pre (world s)))) h
    = Some label ->
  exists final rest,
    run E env w = (Exit 0%Z, final, t0 ++ rest) /\
    In (Act (Click h)) rest /\
    (forall h', In (Act (Click h')) rest -> h' = h) /\
    (actionType final = "check-in"%string \/ actionType final = "check-out"%string) /\
    In (Logged INFO (actionType final ++ " action completed successfully!")%string) rest.
Proof.
  intros Hact Hreach Hsel Hnone Hv Hl.
  assert (Hcap : captures_succeed E) by (split; intros; apply Hact).
  destruct (@announce_selectors_eq World Handle env s) as [banner Hann].
  set (s1 := mkSt (world s) (browser s) false "unknown" (googleButtonFound s)) in *.
  destruct (action_loop_first_visible_typed pre selector post h label s1 Hact Hnone Hv Hl)
    as [s2 [skipped [turn [Hloop [Hu [Hc [Honly [Hp Hty]]]]]]]].
  destruct (report_performed s2 Hp Hact) as [w3 [stamp Hrep]].
  destruct (cleanup_eq E (with_world s2 w3) Hcap) as [w4 Hclean].
  set (s3 := with_world s2 w3) in *.
  assert (Hsteps : steps E env (start w) =
            (Ok tt, s3,
             t0 ++
             ([Logged INFO "Looking for check-in/check-out button..."%string;
               Logged INFO banner] ++ skipped ++ turn) ++
             [Logged INFO (actionType s2 ++ " action completed successfully!")%string;
              Act (Screenshot ("logs/zoho-checkin-" ++ stamp ++ ".png")%string);
              Logged INFO ("Screenshot saved to logs/zoho-checkin-" ++ stamp ++ ".png")%string;
              Logged INFO "Zoho check-in automation completed successfully"%string])).
  { rewrite steps_split, (bind_Ok _ _ _ _ _ _ Hreach). unfold resolve_action.
    rewrite (bind_Ok _ _ _ _ _ _ Hann). rewrite Hsel.
    rewrite (bind_Ok _ _ _ _ _ _ Hloop), Hrep. reflexivity. }
  exists (with_world s3 w4). eexists. split; [|split; [|split; [|split; [exact Hty|]]]].
  - unfold run. rewrite main_eq. unfold performZohoCheckin, try_finally, try_catch.
    rewrite Hsteps, Hclean. rewrite <- !app_assoc. reflexivity.
  - cbn [app]. right. right. apply in_or_app. right. apply in_or_app. left. exact Hc.
  - intros h' Hin. cbn [app] in Hin.
    destruct Hin as [Hin|[Hin|Hin]]; try discriminate.
    apply in_app_or in Hin. destruct Hin as [Hin|Hin];
      [exfalso; exact (touches_click _ _ Hu Hin)|].
    apply in_app_or in Hin. destruct Hin as [Hin|Hin]; [exact (Honly _ Hin)|].
    cbn [app] in Hin.
    do 4 (destruct Hin as [Hin|Hin]; [discriminate|]).
    apply in_app_or in Hin. destruct Hin as [Hin|Hin].
    + match type of Hin with
      | context [if ?b then _ else _] => destruct b
      end; cbn in Hin;
        repeat (destruct Hin as [Hin|Hin]; [discriminate|]); destruct Hin.
    + cbn in Hin. destruct Hin as [Hin|Hin]; [discriminate|destruct Hin].
  - cbn [app]. right. right. apply in_or_app. right. apply in_or_app. right.
    left. reflexivity.
Qed.

End Facts.

(** ** Runs on scripted pages, continued *)

Lemma oauth_run_types_nothing_witness :
  USE_GOOGLE_LOGIN oauth_env = true /\
  existsb types (trace_of (run (scripted login_page_with_google) oauth_env tt)) = false.
Proof.
  split; [reflexivity|].
  exact (oauth_run_types_nothing (scripted login_page_with_google) oauth_env tt eq_refl).
Defined.

Lemma persistent_run_never_closes_witness :
  USE_PERSISTENT_CONTEXT oauth_env = true /\
  existsb plain_browser_only
    (trace_of (run (scripted action_page_labelled) oauth_env tt)) = false.
Proof.
  split; [reflexivity|].
  exact (persistent_run_never_closes (scripted action_page_labelled) oauth_env tt eq_refl).
Defined.

Lemma checks_pass_once_identifier_is_set_witness :
  JS.truthy_opt (ZOHO_EMAIL password_env) = true /\
  exists t,
    validate (scripted login_form_page) password_env (start tt) =
      (Ok false, start tt, t) /\
    existsb is_act t = false.
Proof.
  split; [reflexivity|].
  exact (checks_pass_once_identifier_is_set
           (scripted login_form_page) password_env (start tt) eq_refl).
Defined.

Lemma failed_step_exits_without_closing_witness :
  steps (broken bare_login_page) oauth_env (start tt) =
    (Throw "Target closed", start tt,
     trace_of (steps (broken bare_login_page) oauth_env (start tt))) /\
  exists s2 shot,
    run (broken bare_login_page) oauth_env tt =
      (Exit 1%Z, s2,
       trace_of (steps (broken bare_login_page) oauth_env (start tt)) ++
       Logged ERROR "Error during automation: Target closed" ::
       Logged ERROR "Stack trace: Error: Target closed" :: shot) /\
    existsb closes shot = false.
Proof.
  split; [reflexivity|].
  exact (failed_step_exits_without_closing
           (broken bare_login_page) oauth_env tt "Target closed" (start tt) _ eq_refl).
Defined.

Lemma password_login_returns_only_after_typing_both_witness :
  outcome_of (handlePasswordLogin (scripted login_form_page) password_env (start tt)) = Ok tt /\
  exists f1 f2 before between rest,
    fulfilled (scripted login_form_page)
      (trace_of (handlePasswordLogin (scripted login_form_page) password_env (start tt)))
      (world (start tt)) =
      before ++ Fill f1 (ZOHO_EMAIL password_env) ::
      between ++ Fill f2 (ZOHO_PASSWORD password_env) :: rest /\
    ((exists b, In (Click b) rest) \/
     In (KeyboardPress "Enter") rest).
Proof.
  split; [reflexivity|].
  exact (proj2 (password_login_returns_only_after_typing_both
                  (scripted login_form_page) password_env (start tt)) eq_refl).
Defined.

Lemma login_on_a_persisting_login_page_witness :
  actions_succeed (scripted login_form_page) /\
  on_login_page (address login_form_page) = true /\
  exists banner s' tail,
    login (scripted login_form_page) password_env (start tt) =
      (Throw "Login failed or requires additional authentication", s',
       Logged INFO banner ::
       trace_of (handlePasswordLogin (scripted login_form_page) password_env (start tt)) ++
       [Logged INFO "Waiting for login to complete..."%string;
        Act (WaitForTimeout 5000);
        Logged INFO ("URL after login attempt: " ++ address login_form_page)%string;
        Logged ERROR "Still on login page. Login may have failed."%string;
        Act (Screenshot "logs/login-failed.png")] ++ tail) /\
    tail = [].
Proof.
  split; [apply scripted_actions_succeed|]. split; [reflexivity|].
  exact (login_on_a_persisting_login_page
           (scripted login_form_page) password_env (start tt) (start tt) _
           (scripted_actions_succeed login_form_page) eq_refl eq_refl).
Defined.


Lemma oauth_login_waits_when_HEADED_witness :
  JS.strict_eq (env_HEADED oauth_env_HEADED) "true" = true /\
  none_visible_oauth (scripted bare_login_page) (googleButtonSelectors oauth_env_HEADED) tt /\
  exists s' scan,
    handleGoogleLogin (scripted bare_login_page) oauth_env_HEADED (start tt) =
      (Ok tt, s',
       scan ++
       [Logged ERROR "Could not find Google login button. Taking screenshot for debugging..."%string;
        Act (Screenshot "logs/google-button-not-found.png");
        Logged INFO "Screenshot saved to logs/google-button-not-found.png for debugging"%string;
        Logged INFO "Running in headed mode - please click Google login button manually"%string;
        Logged INFO "Waiting 60 seconds for manual click..."%string;
        Act (WaitForTimeout 60000);
        Logged INFO "Waiting for Google OAuth authentication to complete..."%string;
        Act (WaitForTimeout 10000)]) /\
    untouched scan.
Proof.
  assert (H1 : none_visible_oauth (scripted bare_login_page)
                 (googleButtonSelectors oauth_env_HEADED) tt)
    by (vm_compute; repeat split).
  split; [reflexivity|]. split; [exact H1|].
  exact (oauth_login_waits_when_HEADED
           (scripted bare_login_page) oauth_env_HEADED (start tt) eq_refl H1
           (scripted_actions_succeed bare_login_page)).
Defined.

Lemma run_clicks_the_control_and_exits_0_witness :
  actions_succeed (scripted action_page_labelled) /\
  actionSelectors oauth_env =
    [] ++ "#ZPAtt_check_in_out"%string :: tl default_actionSelectors /\
  visible_match (scripted action_page_labelled) tt "#ZPAtt_check_in_out" = Some 1%nat /\
  label_read (scripted action_page_labelled) tt 1%nat = Some "Check-out"%string /\
  exists final rest,
    run (scripted action_page_labelled) oauth_env tt =
      (Exit 0%Z, final,
       trace_of (reach_action_page (scripted action_page_labelled) oauth_env (start tt))
       ++ rest) /\
    In (Act (Click 1%nat)) rest /\
    (forall h', In (Act (Click h')) rest -> h' = 1%nat) /\
    (actionType final = "check-in"%string \/ actionType final = "check-out"%string) /\
    In (Logged INFO (actionType final ++ " action completed successfully!")%string) rest.
Proof.
  split; [apply scripted_actions_succeed|]. split; [reflexivity|].
  split; [reflexivity|]. split; [reflexivity|].
  exact (run_clicks_the_control_and_exits_0
           (scripted action_page_labelled) oauth_env tt (start tt) _
           [] "#ZPAtt_check_in_out" (tl default_actionSelectors) 1%nat "Check-out"
           (scripted_actions_succeed action_page_labelled)
           eq_refl eq_refl I eq_refl eq_refl).
Defined.

End CheckinExtras.
